(** * SEAL video automation: ranking, synthesis cascade and orchestration

    A shallow embedding of the Python sources
    - [script_generator.py] / [trend_analyzer.py] (class [TrendAnalyzer]),
    - [voiceover_generator.py] (class [VoiceoverGenerator]),
    - [main_automation_script.py] (class [SEALVideoAutomation], [main]),
    - [video_creator.py] (class [VideoCreator]),
    together with the properties of the design document that concern them.

    Conventions of the embedding.
    - Python objects that are mutated in place live in a store indexed by
      object identity; lists hold identities, so aliasing is visible.
    - Python [float]s are modelled by exact rationals [Q]; decimal literals
      denote the rational they spell.  Every concrete evaluation below is
      chosen so that the binary64 result agrees (clamped values are exactly
      [1], compared values are far apart).
    - Exceptions are instances of [Exception], identified by their message;
      a computation that may raise returns a [Result].  Asynchronous
      signals ([KeyboardInterrupt], task cancellation) are not modelled.
    - Calls that leave the process (HTTP, ffmpeg, gTTS, the file system, the
      clock, the collaborators of the orchestrator) are oracles operating on
      an abstract world. *)

From Stdlib Require Import ZArith QArith Lia List Ascii String Sorted Permutation.
From stdpp Require Import gmap strings list pretty.

Set Default Proof Using "Type".
Local Open Scope Z_scope.

(* ================================================================== *)
(** * Python built-ins used by the sources *)
(* ================================================================== *)

(** Outcome of a call: a value, or a raised [Exception] with its
    message ([str(e)]). *)
Inductive Result (A : Type) : Type :=
| Ok (a : A)
| Raise (msg : string).
Arguments Ok {A} a.
Arguments Raise {A} msg.

(** Levels of the [logging] module that the sources use. *)
Inductive level : Type := INFO | WARNING | ERROR.

(** Computations over a state [S] that may raise. *)
Definition M (S A : Type) : Type := S → Result A * S.

Global Instance M_ret {S} : MRet (M S) := λ A a s, (Ok a, s).

Global Instance M_bind {S} : MBind (M S) := λ A B f m s,
  match m s with
  | (Ok a, s') => f a s'
  | (Raise e, s') => (Raise e, s')
  end.

(** [raise Exception(msg)] *)
Definition raise {S A} (msg : string) : M S A := λ s, (Raise msg, s).

(** [try: m except Exception as e: handler e] *)
Definition try_except {S A} (m : M S A) (handler : string → M S A) : M S A :=
  λ s, match m s with
       | (Ok a, s') => (Ok a, s')
       | (Raise e, s') => handler e s'
       end.

(** A computation that returns, whatever the state it starts in. *)
Definition returns {S A} (m : M S A) : Prop :=
  ∀ s, ∃ a s', m s = (Ok a, s').

(** Every value that a computation returns satisfies [Q]. *)
Definition yields {S A} (m : M S A) (Q : A → Prop) : Prop :=
  ∀ s a s', m s = (Ok a, s') → Q a.

(** Every value that a computation returns satisfies [Q] together with
    the state it is returned in. *)
Definition ensures {S A} (m : M S A) (Q : A → S → Prop) : Prop :=
  ∀ s a s', m s = (Ok a, s') → Q a s'.

(** [for x in l: body x] *)
Fixpoint for_each {S A} (l : list A) (body : A → M S unit) : M S unit :=
  match l with
  | [] => mret tt
  | x :: l' => body x;; for_each l' body
  end.

Module Py.

(** Equality of floats is decidable. *)
Global Instance Qeq_decision (a b : Q) : Decision (a == b)%Q := Qeq_dec a b.

(** [a < b] on floats. *)
Definition Qltb (a b : Q) : bool := negb (Qle_bool b a).

(** [min(a, b)]: the first argument unless the second is strictly
    smaller. *)
Definition min (a b : Q) : Q := if Qltb b a then b else a.

(** [l[:n]] for a Python integer [n] (a negative [n] counts from the
    end). *)
Definition slice_to {A} (n : Z) (l : list A) : list A :=
  if 0 <=? n then take (Z.to_nat n) l
  else take (Z.to_nat (Z.of_nat (length l) + n)) l.

(** Insertion of [x] in front of the first element whose key is not
    smaller than the key of [x]; only [<] on keys is used, as in
    CPython's list sort. *)
Fixpoint insert_by {A} (key : A → Q) (x : A) (l : list A) : list A :=
  match l with
  | [] => [x]
  | y :: l' =>
      if Qltb (key y) (key x) then y :: insert_by key x l' else x :: l
  end.

(** A stable ascending sort.  The list sort of CPython is stable, and a
    stable sort of a list by a total preorder has a unique result, so
    this insertion sort computes the list that [list.sort] computes. *)
Definition stable_sort {A} (key : A → Q) (l : list A) : list A :=
  foldr (insert_by key) [] l.

(** [sorted(l, key=key, reverse=reverse)].  With [reverse=True] CPython
    reverses the list, sorts it stably in ascending order and reverses
    the result, which keeps equal keys in their original order. *)
Definition sorted {A} (key : A → Q) (reverse : bool) (l : list A) : list A :=
  if reverse then rev (stable_sort key (rev l)) else stable_sort key l.

(** Characters are code points below 256, one [ascii] each.
    [c.isspace()] on that range. *)
Definition isspace (c : ascii) : bool :=
  let n := nat_of_ascii c in
  ((9 <=? n) && (n <=? 13) || (28 <=? n) && (n <=? 32)
   || (n =? 133) || (n =? 160))%nat.

(** [s.lstrip()] *)
Fixpoint lstrip (s : string) : string :=
  match s with
  | EmptyString => EmptyString
  | String c s' => if isspace c then lstrip s' else s
  end.

(** [s.rstrip()] *)
Fixpoint rstrip (s : string) : string :=
  match s with
  | EmptyString => EmptyString
  | String c s' =>
      match rstrip s' with
      | EmptyString => if isspace c then EmptyString else String c EmptyString
      | r => String c r
      end
  end.

(** [s.strip()] *)
Definition strip (s : string) : string := lstrip (rstrip s).

(** [s.split('. ')]: the pieces between the non-overlapping occurrences
    of the separator, found from left to right. *)
Fixpoint split_dot_space (s : string) : list string :=
  match s with
  | EmptyString => [EmptyString]
  | String c s' =>
      match c, s' with
      | "."%char, String " "%char rest => EmptyString :: split_dot_space rest
      | _, _ =>
          match split_dot_space s' with
          | p :: ps => String c p :: ps
          | [] => [String c EmptyString]
          end
      end
  end.

(** [s.split(c)] for a separator of one character. *)
Fixpoint split_char (sep : ascii) (s : string) : list string :=
  match s with
  | EmptyString => [EmptyString]
  | String c s' =>
      if decide (c = sep) then EmptyString :: split_char sep s'
      else match split_char sep s' with
           | p :: ps => String c p :: ps
           | [] => [String c EmptyString]
           end
  end.

(** [sep.join(l)] *)
Definition join (sep : string) (l : list string) : string :=
  String.concat sep l.

(** [s * n] *)
Fixpoint repeat (s : string) (n : nat) : string :=
  match n with
  | O => EmptyString
  | S n' => s +:+ repeat s n'
  end.

(** Truth value of a string ([if s:]). *)
Definition nonempty (s : string) : bool :=
  match s with EmptyString => false | String _ _ => true end.

(** Truth value of an optional string ([None] and the empty string are
    false). *)
Definition truthy (o : option string) : bool :=
  match o with Some s => nonempty s | None => false end.

(** The line feed. *)
Definition nl : string := String "010"%char EmptyString.

(** [c.lower()] for a code point below 256: the ASCII capitals and the
    capitals of Latin-1 (all of 192..222 but the multiplication sign). *)
Definition lower_char (c : ascii) : ascii :=
  let n := nat_of_ascii c in
  if ((65 <=? n) && (n <=? 90)
      || (192 <=? n) && (n <=? 222) && negb (n =? 215))%nat
  then ascii_of_nat (n + 32)
  else c.

(** [s.lower()] *)
Fixpoint lower (s : string) : string :=
  match s with
  | EmptyString => EmptyString
  | String c s' => String (lower_char c) (lower s')
  end.

(** [needle in hay] on strings. *)
Fixpoint contains (needle hay : string) : bool :=
  if String.prefix needle hay then true
  else match hay with
       | EmptyString => false
       | String _ hay' => contains needle hay'
       end.

(** [s.split()]: the maximal runs of characters that are not white
    space, from left to right. *)
Fixpoint split_ws (s : string) : list string :=
  match s with
  | EmptyString => []
  | String c s' =>
      if isspace c then split_ws s'
      else match s' with
           | EmptyString => [String c EmptyString]
           | String c' _ =>
               if isspace c' then String c EmptyString :: split_ws s'
               else match split_ws s' with
                    | w :: ws => String c w :: ws
                    | [] => [String c EmptyString]
                    end
           end
  end.

(** [s.lstrip(c)] for a one-character argument. *)
Fixpoint lstrip_char (c : ascii) (s : string) : string :=
  match s with
  | EmptyString => EmptyString
  | String c' s' => if decide (c' = c) then lstrip_char c s' else s
  end.

(** [template.format(topic=value)] for a template whose only
    replacement field is [{topic}]: every occurrence of the field is
    replaced by [value], which is not scanned again.  [skip] counts the
    characters of a field that are still to be passed over. *)
Fixpoint format_topic_from (skip : nat) (template value : string) : string :=
  match template with
  | EmptyString => EmptyString
  | String c template' =>
      match skip with
      | S k => format_topic_from k template' value
      | O =>
          if String.prefix "{topic}" template
          then value +:+ format_topic_from 6 template' value
          else String c (format_topic_from 0 template' value)
      end
  end.

Definition format_topic (template value : string) : string :=
  format_topic_from 0 template value.

(** Whether a string is free of white space. *)
Fixpoint no_space (s : string) : bool :=
  match s with
  | EmptyString => true
  | String c s' => negb (isspace c) && no_space s'
  end.

(** A word as [s.split()] produces it: not empty and free of white
    space. *)
Definition is_word (w : string) : Prop :=
  nonempty w = true ∧ no_space w = true.

End Py.

(* ================================================================== *)
(** * Ranking engine: [TrendAnalyzer] *)
(* ================================================================== *)

Module Trend.

(** [@dataclass class TrendTopic]. *)
Record TrendTopic : Type := mkTrendTopic {
  title : string;
  category : string;
  search_volume : Z;
  growth_rate : Q;
  region : string;
  related_keywords : list string;
  content_suggestions : list string;
  source : string;  (* 'google_trends', 'youtube', 'reddit' *)
  confidence_score : Q
}.

(** Object identities and the store of [TrendTopic] objects. *)
Abbreviation loc := positive (only parsing).
Abbreviation heap := (gmap positive TrendTopic) (only parsing).

(** [category_bonus.get(trend.category, 1.0)] *)
Definition category_bonus (c : string) : Q :=
  if decide (c = "finance") then 1.3
  else if decide (c = "tech") then 1.2
  else if decide (c = "education") then 1.1
  else if decide (c = "lifestyle") then 0.9
  else if decide (c = "entertainment") then 0.8
  else 1.0.

(** [source_bonus.get(trend.source, 1.0)] *)
Definition source_bonus (s : string) : Q :=
  if decide (s = "youtube") then 1.2
  else if decide (s = "google_trends") then 1.1
  else if decide (s = "reddit") then 0.9
  else 1.0.

(** The value of [base_score] at the end of one iteration of the
    scoring loop. *)
Definition base_score (t : TrendTopic) : Q :=
  let b := confidence_score t in
  let b := (b * category_bonus (category t))%Q in
  let b := (b * source_bonus (source t))%Q in
  if 1000 <? search_volume t then (b * 1.2)%Q
  else if 500 <? search_volume t then (b * 1.1)%Q
  else b.

(** [trend.confidence_score = min(base_score, 1.0)]: the object is
    updated in place, every other attribute is left alone. *)
Definition score_trend (t : TrendTopic) : TrendTopic :=
  {| title := title t;
     category := category t;
     search_volume := search_volume t;
     growth_rate := growth_rate t;
     region := region t;
     related_keywords := related_keywords t;
     content_suggestions := content_suggestions t;
     source := source t;
     confidence_score := Py.min (base_score t) 1.0 |}.

(** The [for trend in trends] loop: one in-place update per list
    position (an object listed twice is updated twice). *)
Definition score_all (h : heap) (trends : list loc) : heap :=
  foldl (λ h r, alter score_trend r h) h trends.

(** [x.confidence_score] for the object at [r].  Every identity held by
    a Python list is live; the default only makes the function total. *)
Definition confidence_at (h : heap) (r : loc) : Q :=
  match h !! r with
  | Some t => confidence_score t
  | None => 0%Q
  end.

(** [_score_and_rank_trends]: the updated store and the returned
    list. *)
Definition _score_and_rank_trends (h : heap) (trends : list loc)
  : heap * list loc :=
  let h' := score_all h trends in
  (h', Py.sorted (confidence_at h') true trends).

(** The objects built by the source coroutines enter the store at fresh
    identities, in the order in which they were built. *)
Fixpoint alloc (next : loc) (ts : list TrendTopic) (h : heap)
  : heap * list loc :=
  match ts with
  | [] => (h, [])
  | t :: ts' =>
      let '(h', rs) := alloc (Pos.succ next) ts' (<[next := t]> h) in
      (h', next :: rs)
  end.

(** The [for result in results] loop of [get_trending_topics] over what
    [asyncio.gather] with [return_exceptions=True] returned: lists
    extend [all_trends], exceptions are only logged. *)
Definition all_trends (results : list (Result (list TrendTopic)))
  : list TrendTopic :=
  concat (map (λ r, match r with Ok l => l | Raise _ => [] end) results).

(** [get_trending_topics(count)], given the outcomes of the three source
    coroutines in the order of [tasks] (Google Trends, YouTube, Reddit).
    The returned objects are read off the store as it is on return.
    (Logging is left out of this module.) *)
Definition get_trending_topics (results : list (Result (list TrendTopic)))
    (count : Z) : list TrendTopic :=
  let '(h, trends) := alloc 1%positive (all_trends results) ∅ in
  let '(h', scored_trends) := _score_and_rank_trends h trends in
  omap (λ r, h' !! r) (Py.slice_to count scored_trends).

(** [x.source] for the object at [r]. *)
Definition source_at (h : heap) (r : loc) : string :=
  match h !! r with
  | Some t => source t
  | None => EmptyString
  end.

(** The order of the sources that the design document uses to break
    ties: video platform, then broad search, then forum. *)
Definition source_priority (s : string) : nat :=
  if decide (s = "youtube") then 3
  else if decide (s = "google_trends") then 2
  else if decide (s = "reddit") then 1
  else 0.

(** The order that the design document requires of a ranked list [out]
    of the candidates [trends], read in the store [h] in which scores
    are found: descending scores, then descending source priority, then
    the order of discovery. *)
Definition ranked_with_source_tie_break (h : heap) (trends out : list loc)
  : Prop :=
  StronglySorted (λ a b, (confidence_at h b <= confidence_at h a)%Q) out
  ∧ (∀ i j a b, (i < j)%nat → out !! i = Some a → out !! j = Some b →
       (confidence_at h a == confidence_at h b)%Q →
       (source_priority (source_at h b) ≤ source_priority (source_at h a))%nat)
  ∧ (∀ (s : Q) (src : string),
       filter (λ r, (confidence_at h r == s)%Q ∧ source_at h r = src) out
       = filter (λ r, (confidence_at h r == s)%Q ∧ source_at h r = src) trends).

(** Whether the object at [r] has a title. *)
Definition has_title (h : heap) (r : loc) : bool :=
  match h !! r with
  | Some t => Py.nonempty (title t)
  | None => false
  end.

(** The candidates of a list that are not malformed. *)
Definition well_formed (h : heap) (trends : list loc) : list loc :=
  filter (λ r, has_title h r = true) trends.

(** The design document's reading of ranking as a pure function: every
    candidate of the store [h] is found in the store [h'] after ranking
    with the five fields of a candidate as they were. *)
Definition candidates_untouched (h h' : heap) : Prop :=
  ∀ r t, h !! r = Some t →
    ∃ t', h' !! r = Some t'
      ∧ title t' = title t ∧ category t' = category t
      ∧ source t' = source t ∧ search_volume t' = search_volume t
      ∧ (confidence_score t' == confidence_score t)%Q.

(** The design document's reading of malformed input: the ranked list
    [out] has lost the candidates without a title. *)
Definition malformed_dropped (h : heap) (trends out : list loc) : Prop :=
  length out = length (well_formed h trends).

(** A topic as [_get_google_trends] builds it, in category finance. *)
Definition google_finance : TrendTopic :=
  {| title := "How to Master Money in 2024";
     category := "finance";
     search_volume := 1000;
     growth_rate := 0.8;
     region := "US";
     related_keywords := ["money"];
     content_suggestions := [];
     source := "google_trends";
     confidence_score := 0.7 |}.

(** A topic as [_get_youtube_trends] builds it, in category finance. *)
Definition youtube_finance : TrendTopic :=
  {| title := "5 Investing Tips That Changed My Life";
     category := "finance";
     search_volume := 250;
     growth_rate := 0.6;
     region := "US";
     related_keywords := ["investing"];
     content_suggestions := [];
     source := "youtube";
     confidence_score := 0.8 |}.

(** A topic whose title is missing. *)
Definition untitled : TrendTopic :=
  {| title := EmptyString;
     category := "general";
     search_volume := 150;
     growth_rate := 0.5;
     region := "Global";
     related_keywords := [];
     content_suggestions := [];
     source := "reddit";
     confidence_score := 0.6 |}.

(** A store with the two finance topics, in the order of discovery. *)
Definition two_finance : heap :=
  <[2%positive := youtube_finance]> (<[1%positive := google_finance]> ∅).

(** Ranking the two finance topics. *)
Definition ranked_two_finance : heap * list loc :=
  _score_and_rank_trends two_finance [1; 2]%positive.

(** A store with the untitled topic alone. *)
Definition one_untitled : heap := <[1%positive := untitled]> ∅.

(** ** Topic helpers of the source adapters *)

(** [self.target_categories], in the order of insertion. *)
Definition target_categories : list (string * list string) :=
  [("finance", ["money"; "investing"; "crypto"; "stocks"; "business"]);
   ("tech", ["ai"; "programming"; "technology"; "software"; "automation"]);
   ("education", ["learning"; "tips"; "tutorial"; "how to"; "guide"]);
   ("lifestyle", ["productivity"; "motivation"; "success"; "mindset"]);
   ("entertainment", ["funny"; "viral"; "trending"; "meme"; "story"])].

(** [self.video_formats], in the order of insertion. *)
Definition video_formats : list (string * list string) :=
  [("how_to", ["how to"; "tutorial"; "guide"; "step by step"]);
   ("tips", ["tips"; "tricks"; "hacks"; "secrets"]);
   ("list", ["best"; "top"; "worst"; "5 ways"; "10 things"]);
   ("story", ["story"; "experience"; "journey"; "case study"]);
   ("controversial", ["truth about"; "reality of"; "nobody tells you"])].

(** The nested loop
    [for key, keywords in table.items(): for keyword in keywords:
       if keyword in topic_lower: return key];
    [None] when both loops run to their end. *)
Fixpoint scan_table (table : list (string * list string))
    (topic_lower : string) : option string :=
  match table with
  | [] => None
  | (key, keywords) :: table' =>
      if existsb (λ keyword, Py.contains keyword topic_lower) keywords
      then Some key
      else scan_table table' topic_lower
  end.

(** [_categorize_topic(topic)] *)
Definition _categorize_topic (topic : string) : string :=
  match scan_table target_categories (Py.lower topic) with
  | Some category => category
  | None => "general"
  end.

(** [_suggest_video_format(topic, category)] *)
Definition _suggest_video_format (topic category : string) : string :=
  match scan_table video_formats (Py.lower topic) with
  | Some format_type => format_type
  | None =>
      if decide (category = "finance") then "tips"
      else if decide (category = "tech") then "how_to"
      else if decide (category = "education") then "list"
      else "story"
  end.

(** [stop_words] of [_clean_topic]. *)
Definition stop_words : list string :=
  ["the"; "a"; "an"; "and"; "or"; "but"; "in"; "on"; "at"; "to"; "for";
   "of"; "with"; "by"].

(** [_clean_topic(topic)] *)
Definition _clean_topic (topic : string) : string :=
  let words := Py.split_ws topic in
  let cleaned_words := filter (λ word, Py.lower word ∉ stop_words) words in
  Py.join " " (Py.slice_to 4 cleaned_words).

(** [format_templates] of [_format_topic_for_video]: three templates
    for each format. *)
Definition format_templates : list (string * (string * string * string)) :=
  [("how_to", ("How to {topic} in 2025",
               "Complete Guide to {topic}",
               "Step by Step {topic} Tutorial"));
   ("tips", ("5 {topic} Tips That Actually Work",
             "Secret {topic} Tricks Nobody Tells You",
             "{topic} Hacks That Will Change Your Life"));
   ("list", ("Top 5 {topic} Methods",
             "Best {topic} Strategies for Beginners",
             "5 Ways to Master {topic}"));
   ("story", ("My {topic} Journey: What I Learned",
              "The Truth About {topic}",
              "What Nobody Tells You About {topic}"));
   ("controversial", ("The Dark Side of {topic}",
                      "Why {topic} is Overrated",
                      "{topic}: Scam or Legit?"))].

(** [d.get(key)] on a dictionary given by its items. *)
Fixpoint items_get {V} (key : string) (d : list (string * V)) : option V :=
  match d with
  | [] => None
  | (k, v) :: d' => if decide (k = key) then Some v else items_get key d'
  end.

(** [format_templates['tips']] *)
Definition tips_templates : string * string * string :=
  ("5 {topic} Tips That Actually Work",
   "Secret {topic} Tricks Nobody Tells You",
   "{topic} Hacks That Will Change Your Life").

(** [_format_topic_for_video(original_topic, video_format)] *)
Definition _format_topic_for_video (original_topic video_format : string)
  : string :=
  let templates :=
    match items_get video_format format_templates with
    | Some templates => templates
    | None => tips_templates
    end in
  let template := templates.1.1 in
  let clean_topic := _clean_topic original_topic in
  Py.format_topic template clean_topic.

(** [_extract_keywords(text)] *)
Definition _extract_keywords (text : string) : list string :=
  let words := Py.split_ws (Py.lower text) in
  let keywords := filter (λ word, (3 < String.length word)%nat) words in
  Py.slice_to 5 keywords.

(** [_generate_content_suggestions(topic, category)] *)
Definition _generate_content_suggestions (topic category : string)
  : list string :=
  if decide (category = "finance") then
    ["Start with basic concepts"; "Include real examples";
     "Mention risks and benefits"; "Add actionable steps";
     "Include success stories"]
  else if decide (category = "tech") then
    ["Explain in simple terms"; "Show practical examples";
     "Include code snippets if relevant"; "Mention common mistakes";
     "Provide resources for learning"]
  else if decide (category = "education") then
    ["Break down into steps"; "Use visual examples";
     "Include practice exercises"; "Mention common pitfalls";
     "Provide additional resources"]
  else
    ["Keep it engaging"; "Use storytelling"; "Include personal examples";
     "Make it relatable"; "Add call to action"].

(** The [TrendTopic] that [_get_google_trends] appends for the search
    [topic_name]. *)
Definition google_topic (topic_name : string) : TrendTopic :=
  let category := _categorize_topic topic_name in
  let video_format := _suggest_video_format topic_name category in
  {| title := _format_topic_for_video topic_name video_format;
     category := category;
     search_volume := 1000;
     growth_rate := 0.8;
     region := "US";
     related_keywords := [topic_name];
     content_suggestions := _generate_content_suggestions topic_name category;
     source := "google_trends";
     confidence_score := 0.7 |}.

(** The [TrendTopic] that [_get_youtube_trends] appends for a video
    with the title [video_title] and [view_count] views. *)
Definition youtube_topic (video_title : string) (view_count : Z) : TrendTopic :=
  let category := _categorize_topic video_title in
  let video_format := _suggest_video_format video_title category in
  let new_title := _format_topic_for_video video_title video_format in
  {| title := new_title;
     category := category;
     search_volume := view_count `div` 1000;
     growth_rate := 0.6;
     region := "US";
     related_keywords := _extract_keywords video_title;
     content_suggestions := _generate_content_suggestions video_title category;
     source := "youtube";
     confidence_score := 0.8 |}.

(** The [for video in data.get('items', [])] loop of
    [_get_youtube_trends] over the titles and view counts of the videos:
    a topic for each video of more than 100000 views. *)
Definition youtube_topics (items : list (string * Z)) : list TrendTopic :=
  map (λ video, youtube_topic video.1 video.2)
    (filter (λ video, 100000 < video.2) items).

(** The [TrendTopic] that [_get_reddit_trends] appends for a post with
    the title [post_title] and the score [score]. *)
Definition reddit_topic (post_title : string) (score : Z) : TrendTopic :=
  let category := _categorize_topic post_title in
  let video_format := _suggest_video_format post_title category in
  let new_title := _format_topic_for_video post_title video_format in
  {| title := new_title;
     category := category;
     search_volume := score;
     growth_rate := 0.5;
     region := "Global";
     related_keywords := _extract_keywords post_title;
     content_suggestions := _generate_content_suggestions post_title category;
     source := "reddit";
     confidence_score := 0.6 |}.

(** The [for post in data['data']['children']] loop of
    [_get_reddit_trends] over the titles and scores of the posts of one
    subreddit: a topic for each post of a score above 100. *)
Definition reddit_topics (posts : list (string * Z)) : list TrendTopic :=
  map (λ post, reddit_topic post.1 post.2)
    (filter (λ post, 100 < post.2) posts).

(** [needle] occurs in [hay]. *)
Definition occurs_in (needle hay : string) : Prop :=
  ∃ a b, hay = a +:+ needle +:+ b.

(** The categories that a topic can have. *)
Definition categories : list string :=
  ["finance"; "tech"; "education"; "lifestyle"; "entertainment"; "general"].

End Trend.

(* ================================================================== *)
(** * Synthesis cascade: [VoiceoverGenerator] *)
(* ================================================================== *)

Module Voice.

(** Values held by the configuration dictionaries. *)
Inductive value : Type :=
| VStr (s : string)
| VNum (q : Q)
| VBool (b : bool).

(** The items of a dictionary of settings. *)
Abbreviation dict := (gmap string value) (only parsing).

(** The identity of a dictionary object. *)
Abbreviation ref := positive (only parsing).

(** The dictionary objects of the process, by identity.  A dictionary
    that is reachable under two names is one entry of the store: what
    is written through one name is read through the other. *)
Abbreviation store := (gmap positive (gmap string value)) (only parsing).

(** The attributes of a [VoiceoverGenerator] instance.  [api_key] is
    what [os.getenv] returned.  [voice_configs] and [style_presets]
    hold, per language and per style, the identity of a dictionary
    object, not a copy of its items. *)
Record VoiceoverGenerator : Type := mkVoiceoverGenerator {
  api_key : option string;
  api_base : string;
  voice_configs : gmap string positive;
  style_presets : gmap string positive;
  output_dir : string
}.

(** The items of one entry of [self.voice_configs] as [__init__] writes
    it. *)
Definition voice_entry (voice_id : string) (stability similarity_boost style : Q)
  : dict :=
  list_to_map
    [("voice_id", VStr voice_id);
     ("model_id", VStr "eleven_multilingual_v2");
     ("stability", VNum stability);
     ("similarity_boost", VNum similarity_boost);
     ("style", VNum style);
     ("use_speaker_boost", VBool true)].

(** The items of one entry of [self.style_presets]. *)
Definition preset (stability similarity_boost style : Q) : dict :=
  list_to_map
    [("stability", VNum stability);
     ("similarity_boost", VNum similarity_boost);
     ("style", VNum style)].

(** The nine dictionaries that the literals of [__init__] create, in
    the order of the source text: in a process that holds no other
    dictionary they are the objects 1 to 9. *)
Definition init_objects : store :=
  list_to_map
    [(1%positive, voice_entry "21m00Tcm4TlvDq8ikWAM" 0.5 0.8 0.0);
     (2%positive, voice_entry "pNInz6obpgDQGcFmaJgB" 0.6 0.7 0.1);
     (3%positive, voice_entry "Xb7hH8MSUJpSbSDYk0k2" 0.4 0.9 0.2);
     (4%positive, voice_entry "pMsXgVXv3BLzUgSXRplE" 0.5 0.8 0.1);
     (5%positive, preset 0.6 0.8 0.0);
     (6%positive, preset 0.4 0.9 0.3);
     (7%positive, preset 0.8 0.6 0.1);
     (8%positive, preset 0.5 0.7 0.2);
     (9%positive, preset 0.7 0.8 0.0)].

(** [__init__], given the value of the environment variable
    [ELEVENLABS_API_KEY]: the instance that names the objects of
    [init_objects]. *)
Definition init (key : option string) : VoiceoverGenerator :=
  {| api_key := key;
     api_base := "https://api.elevenlabs.io/v1";
     voice_configs :=
       list_to_map
         [("en", 1%positive); ("de", 2%positive);
          ("ko", 3%positive); ("zh", 4%positive)];
     style_presets :=
       list_to_map
         [("professional", 5%positive);
          ("energetic", 6%positive);
          ("calm", 7%positive);
          ("friendly", 8%positive);
          ("formal", 9%positive)];
     output_dir := "output/audio" |}.

(** The items that [d.update(other)] leaves in [d]. *)
Definition dict_update (other d : dict) : dict :=
  other ∪ d.

(** The items of the object [r] in the store [h]. *)
Definition items (h : store) (r : ref) : dict :=
  default ∅ (h !! r).

(** [_split_text_for_tts]: one iteration of [for sentence in sentences]
    on the pair ([chunks], [current_chunk]). *)
Definition split_step (max_chars : Z) (st : list string * string)
    (sentence : string) : list string * string :=
  let '(chunks, current_chunk) := st in
  if Z.of_nat (String.length (current_chunk +:+ sentence +:+ ". ")) <=? max_chars
  then (chunks, current_chunk +:+ sentence +:+ ". ")
  else ((if Py.nonempty current_chunk
         then chunks ++ [Py.strip current_chunk] else chunks),
        sentence +:+ ". ").

(** [_split_text_for_tts(text, max_chars)] *)
Definition _split_text_for_tts (text : string) (max_chars : Z) : list string :=
  if Z.of_nat (String.length text) <=? max_chars then [text]
  else
    let '(chunks, current_chunk) :=
      foldl (split_step max_chars) ([], EmptyString) (Py.split_dot_space text) in
    if Py.nonempty current_chunk then chunks ++ [Py.strip current_chunk]
    else chunks.

(** The body of the request sent to the voice service. *)
Record Payload : Type := mkPayload {
  p_text : string;
  p_model_id : value;
  p_stability : value;
  p_similarity_boost : value;
  p_style : value;
  p_use_speaker_boost : value
}.

(** What the voice service answered: [response.status] and the body. *)
Record Response : Type := mkResponse {
  status : Z;
  body : string
}.

(** The world outside the process, as far as this class touches it.
    - [now]: [datetime.now().strftime("%Y%m%d_%H%M%S")];
    - [str_float]: [str] of a float;
    - [http_post url headers payload]: the [aiohttp] request and the
      reading of the answer;
    - [write_file path data]: [open(path, ...)] and the writes;
    - [absolute]: [Path.absolute];
    - [subprocess_run cmd]: [subprocess.run], giving [returncode] and
      [stderr];
    - [unlink]: [Path.unlink];
    - [gtts_new text lang]: [from gtts import gTTS] and the constructor;
    - [gtts_save text lang path]: [tts.save]. *)
Record Ops (W : Type) : Type := mkOps {
  now : W → string;
  str_float : Q → string;
  http_post : string → list (string * string) → Payload → W → Result Response * W;
  write_file : string → string → W → Result unit * W;
  absolute : string → W → string;
  subprocess_run : list string → W → Result (Z * string) * W;
  unlink : string → W → Result unit * W;
  gtts_new : string → string → W → Result unit * W;
  gtts_save : string → string → string → W → Result unit * W
}.
Arguments now {W} _. Arguments str_float {W} _. Arguments http_post {W} _.
Arguments write_file {W} _. Arguments absolute {W} _.
Arguments subprocess_run {W} _. Arguments unlink {W} _.
Arguments gtts_new {W} _. Arguments gtts_save {W} _.

(** The state a call runs in: the instance, the dictionary objects, the
    log, the world. *)
Record state (W : Type) : Type := mkState {
  self : VoiceoverGenerator;
  objects : gmap positive (gmap string value);
  log : list (level * string);
  world : W
}.
Arguments mkState {W}. Arguments self {W}. Arguments objects {W}.
Arguments log {W}. Arguments world {W}.

Section Cascade.
Context {W : Type} (ops : Ops W).

Local Abbreviation M := (M (state W)).

(** [logger.info], [logger.warning], [logger.error] *)
Definition logger (lvl : level) (msg : string) : M unit :=
  λ s, (Ok tt, mkState (self s) (objects s) (log s ++ [(lvl, msg)]) (world s)).

(** A call into the world. *)
Definition call {A} (f : W → Result A * W) : M A :=
  λ s, let '(r, w) := f (world s) in (r, mkState (self s) (objects s) (log s) w).

(** Reading the world without changing it. *)
Definition ask {A} (f : W → A) : M A := λ s, (Ok (f (world s)), s).

(** Reading an attribute of [self]. *)
Definition attr {A} (f : VoiceoverGenerator → A) : M A :=
  λ s, (Ok (f (self s)), s).

(** [d[key] = v] on the dictionary object [d]: every name of the object
    sees the item. *)
Definition setitem (d : ref) (key : string) (v : value) : M unit :=
  λ s, (Ok tt,
        mkState (self s) (alter (<[key := v]>) d (objects s)) (log s) (world s)).

(** [d.update(other)] on the dictionary objects [d] and [other]: the
    items of [other] are read when the call is made, and written into
    the object [d]. *)
Definition update (d other : ref) : M unit :=
  λ s, (Ok tt,
        mkState (self s)
          (alter (dict_update (items (objects s) other)) d (objects s))
          (log s) (world s)).

(** [str(v)] *)
Definition str_value (v : value) : string :=
  match v with
  | VStr s => s
  | VNum q => str_float ops q
  | VBool true => "True"
  | VBool false => "False"
  end.

(** [repr(k)] of a string key, the message of a [KeyError]. *)
Definition key_error (k : string) : string := "'" +:+ k +:+ "'".

(** [voice_config[key]] on the dictionary object [voice_config]. *)
Definition getitem (voice_config : ref) (key : string) : M value :=
  λ s, match objects s !! voice_config ≫= (.!! key) with
       | Some v => (Ok v, s)
       | None => (Raise (key_error key), s)
       end.

(** [voice_config.get(key, default)] *)
Definition getdefault (voice_config : ref) (key : string) (default : value)
  : M value :=
  λ s, (Ok (match objects s !! voice_config ≫= (.!! key) with
            | Some v => v
            | None => default
            end), s).

(** [self.voice_configs.get(language, self.voice_configs['en'])]: the
    dictionary object itself, no copy of it.  The default is evaluated
    first. *)
Definition get_voice_config (language : string) : M ref :=
  cfgs ← attr voice_configs;
  match cfgs !! "en" with
  | None => raise (key_error "en")
  | Some en => mret (default en (cfgs !! language))
  end.

(** [update_voice_config(language, config)]: a configured language has
    the items of [config] written into its dictionary object; another
    language is bound to the object [config] itself. *)
Definition update_voice_config (language : string) (config : ref) : M unit :=
  cfgs ← attr voice_configs;
  match cfgs !! language with
  | Some d => update d config
  | None =>
      λ s, let g := self s in
           (Ok tt,
            mkState {| api_key := api_key g;
                       api_base := api_base g;
                       voice_configs := <[language := config]> (voice_configs g);
                       style_presets := style_presets g;
                       output_dir := output_dir g |}
                    (objects s) (log s) (world s))
  end.

(** [self.output_dir / filename] *)
Definition in_output_dir (filename : string) : M string :=
  d ← attr output_dir; mret (d +:+ "/" +:+ filename).

(** The command line of [_create_silent_audio]: thirty seconds of
    silence written to [filepath]. *)
Definition silent_cmd (filepath : string) : list string :=
  ["ffmpeg"; "-f"; "lavfi"; "-i";
   "anullsrc=channel_layout=stereo:sample_rate=44100";
   "-t"; "30"; "-c:a"; "mp3"; filepath; "-y"].

(** [_create_silent_audio(language)] *)
Definition _create_silent_audio (language : string) : M string :=
  try_except
    (timestamp ← ask (now ops);
     let filename := "voice_silent_" +:+ language +:+ "_" +:+ timestamp +:+ ".mp3" in
     filepath ← in_output_dir filename;
     call (subprocess_run ops (silent_cmd filepath));;
     logger WARNING ("Sessiz ses dosyası oluşturuldu: " +:+ filename);;
     mret filepath)
    (λ e, logger ERROR ("Sessiz ses oluşturma hatası: " +:+ e);;
          mret EmptyString).

(** [gtts_lang_map.get(language, 'en')] *)
Definition gtts_lang (language : string) : string :=
  if decide (language = "en") then "en"
  else if decide (language = "de") then "de"
  else if decide (language = "ko") then "ko"
  else if decide (language = "zh") then "zh"
  else "en".

(** The body of the [try] of [_create_fallback_audio]: synthesis by
    the secondary provider. *)
Definition gtts_attempt (text language : string) : M string :=
  call (gtts_new ops text (gtts_lang language));;
  timestamp ← ask (now ops);
  let filename := "voice_fallback_" +:+ language +:+ "_" +:+ timestamp +:+ ".mp3" in
  filepath ← in_output_dir filename;
  call (gtts_save ops text (gtts_lang language) filepath);;
  logger INFO ("Fallback ses oluşturuldu: " +:+ filename);;
  mret filepath.

(** [_create_fallback_audio(text, language)] *)
Definition _create_fallback_audio (text language : string) : M string :=
  try_except
    (gtts_attempt text language)
    (λ e, logger ERROR ("Fallback TTS hatası: " +:+ e);;
          _create_silent_audio language).

(** [_generate_audio_chunk(text, voice_config, language, chunk_index)] *)
Definition _generate_audio_chunk (text : string) (voice_config : ref)
    (language : string) (chunk_index : nat) : M (option string) :=
  try_except
    (voice_id ← getitem voice_config "voice_id";
     base ← attr api_base;
     let url := base +:+ "/text-to-speech/" +:+ str_value voice_id in
     key ← attr api_key;
     let headers :=
       [("Accept", "audio/mpeg");
        ("Content-Type", "application/json");
        ("xi-api-key", default EmptyString key)] in
     model_id ← getitem voice_config "model_id";
     stability ← getitem voice_config "stability";
     similarity_boost ← getitem voice_config "similarity_boost";
     style ← getdefault voice_config "style" (VNum 0.0);
     use_speaker_boost ← getdefault voice_config "use_speaker_boost" (VBool true);
     let payload :=
       mkPayload text model_id stability similarity_boost style
                 use_speaker_boost in
     response ← call (http_post ops url headers payload);
     if status response =? 200 then
       timestamp ← ask (now ops);
       let filename :=
         "voice_" +:+ language +:+ "_" +:+ timestamp +:+ "_chunk"
         +:+ pretty chunk_index +:+ ".mp3" in
       filepath ← in_output_dir filename;
       call (write_file ops filepath (body response));;
       logger INFO ("Ses parçası oluşturuldu: " +:+ filename);;
       mret (Some filepath)
     else
       logger ERROR ("ElevenLabs API hatası: " +:+ pretty (status response)
                     +:+ " - " +:+ body response);;
       mret None)
    (λ e, logger ERROR ("Ses chunk oluşturma hatası: " +:+ e);;
          mret None).

(** The lines written to the ffmpeg file list. *)
Definition file_list (w : W) (audio_files : list string) : string :=
  String.concat EmptyString
    (map (λ f, "file '" +:+ absolute ops f w +:+ "'" +:+ Py.nl) audio_files).

(** [_merge_audio_files(audio_files, language)] *)
Definition _merge_audio_files (audio_files : list string) (language : string)
  : M (option string) :=
  try_except
    (timestamp ← ask (now ops);
     let output_filename := "voice_" +:+ language +:+ "_" +:+ timestamp +:+ "_final.mp3" in
     output_path ← in_output_dir output_filename;
     file_list_path ← in_output_dir ("filelist_" +:+ timestamp +:+ ".txt");
     content ← ask (λ w, file_list w audio_files);
     call (write_file ops file_list_path content);;
     let cmd :=
       ["ffmpeg"; "-f"; "concat"; "-safe"; "0"; "-i"; file_list_path;
        "-c"; "copy"; output_path; "-y"] in
     result ← call (subprocess_run ops cmd);
     if result.1 =? 0 then
       call (unlink ops file_list_path);;
       for_each audio_files (λ f, call (unlink ops f));;
       logger INFO ("Ses dosyaları birleştirildi: " +:+ output_filename);;
       mret (Some output_path)
     else
       logger ERROR ("FFmpeg hatası: " +:+ result.2);;
       match audio_files with
       | f :: _ => mret (Some f)
       | [] => raise "list index out of range"
       end)
    (λ e, logger ERROR ("Ses birleştirme hatası: " +:+ e);;
          mret (head audio_files)).

(** The [for i, chunk in enumerate(text_chunks)] loop of
    [create_voiceover], from index [i] on, with [audio_files] as
    collected so far. *)
Fixpoint chunk_loop (voice_config : ref) (language : string) (i : nat)
    (text_chunks : list string) (audio_files : list string) : M (list string) :=
  match text_chunks with
  | [] => mret audio_files
  | chunk :: rest =>
      audio_file ← _generate_audio_chunk chunk voice_config language i;
      chunk_loop voice_config language (S i) rest
        (match audio_file with
         | Some f => audio_files ++ [f]
         | None => audio_files
         end)
  end.

(** [self.voice_configs.get(language, self.voice_configs['en'])] in
    [create_voiceover]: the dictionary object bound to [voice_config].
    The default is evaluated first, and no copy is made. *)
Definition resolve_config (language : string) : M ref :=
  cfgs ← attr voice_configs;
  match cfgs !! "en" with
  | None => raise (key_error "en")
  | Some en => mret (default en (cfgs !! language))
  end.

(** The first statements of the [try] of [create_voiceover]: the
    choice of [voice_config] and the overrides written into it. *)
Definition configure (language voice_style : string)
    (custom_voice_id : option string) : M ref :=
  voice_config ← resolve_config language;
  (if Py.truthy custom_voice_id
   then setitem voice_config "voice_id"
          (VStr (default EmptyString custom_voice_id))
   else mret tt);;
  presets ← attr style_presets;
  match presets !! voice_style with
  | Some style_settings => update voice_config style_settings
  | None => mret tt
  end;;
  mret voice_config.

(** [final_audio] as computed from [audio_files]. *)
Definition assemble (audio_files : list string) (language : string)
  : M (option string) :=
  if (1 <? length audio_files)%nat
  then _merge_audio_files audio_files language
  else mret (head audio_files).

(** The end of the [try] of [create_voiceover]: what is returned for a
    given [final_audio]. *)
Definition conclude (final_audio : option string) (text language : string)
  : M string :=
  match final_audio with
  | Some f =>
      logger INFO ("Seslendirme oluşturuldu: " +:+ f);;
      mret f
  | None =>
      logger ERROR "Ses oluşturulamadı";;
      _create_fallback_audio text language
  end.

(** The first statement of [create_voiceover]. *)
Definition announce (text language : string) : M unit :=
  logger INFO ("Seslendirme oluşturuluyor (" +:+ language +:+ "): "
               +:+ pretty (String.length text) +:+ " karakter").

(** [create_voiceover(text, language, voice_style, custom_voice_id)] *)
Definition create_voiceover (text language voice_style : string)
    (custom_voice_id : option string) : M string :=
  announce text language;;
  key ← attr api_key;
  if negb (Py.truthy key) then
    logger ERROR "ElevenLabs API key bulunamadı";;
    _create_fallback_audio text language
  else
    try_except
      (voice_config ← configure language voice_style custom_voice_id;
       let text_chunks := _split_text_for_tts text 2500 in
       audio_files ← chunk_loop voice_config language 0 text_chunks [];
       final_audio ← assemble audio_files language;
       conclude final_audio text language)
      (λ e, logger ERROR ("Seslendirme hatası: " +:+ e);;
            _create_fallback_audio text language).

End Cascade.

(** ** Statements and inputs used below *)

(** The text of a group of consecutive sentences as the splitting loop
    accumulates it in [current_chunk]: every sentence followed by the
    separator. *)
Fixpoint sentences_text (g : list string) : string :=
  match g with
  | [] => EmptyString
  | s :: g' => s +:+ ". " +:+ sentences_text g'
  end.

(** The design document's reading of the split, for a text and a limit:
    above the limit the chunks respect the limit and concatenate to the
    text; otherwise the text is returned alone. *)
Definition split_as_documented (text : string) (max_chars : Z) : Prop :=
  (max_chars < Z.of_nat (String.length text) →
     Forall (λ c, Z.of_nat (String.length c) ≤ max_chars)
       (_split_text_for_tts text max_chars)
     ∧ Py.join EmptyString (_split_text_for_tts text max_chars) = text)
  ∧ (Z.of_nat (String.length text) ≤ max_chars →
     _split_text_for_tts text max_chars = [text]).

(** Two sentences of 1300 characters each. *)
Definition two_sentences : string :=
  Py.repeat "a" 1300 +:+ ". " +:+ Py.repeat "b" 1300.

(** One sentence of 2600 characters. *)
Definition long_sentence : string := Py.repeat "a" 2600.

(** A short text. *)
Definition short_text : string := "Hello! This is a test. It is short.".

(** The design document's reading of the primary tier, for one call
    started in [s]: when the chunk loop yields fewer files than there
    are chunks, the call ends as it does when the tier yields nothing,
    with the secondary provider given the full text. *)
Definition partial_tier_rejected {W} (ops : Ops W)
    (text language voice_style : string) (custom_voice_id : option string)
    (s : state W) : Prop :=
  ∀ voice_config s1 audio_files s2,
    configure language voice_style custom_voice_id
      (announce text language s).2 = (Ok voice_config, s1) →
    chunk_loop ops voice_config language 0 (_split_text_for_tts text 2500) [] s1
      = (Ok audio_files, s2) →
    (length audio_files < length (_split_text_for_tts text 2500))%nat →
    create_voiceover ops text language voice_style custom_voice_id s
    = conclude ops None text language s2.

(** What the chunks of [text_chunks] produce, one outcome per chunk and
    in their order: the file of the chunk, or nothing.  The chunk at
    position [j] is given to [_generate_audio_chunk] with the index
    [i + j], in the state that the chunks before it left; the second
    component is the state after the last chunk. *)
Fixpoint chunk_outcomes {W} (ops : Ops W) (voice_config : ref)
    (language : string) (i : nat) (text_chunks : list string) (s : state W)
  : list (option string) * state W :=
  match text_chunks with
  | [] => ([], s)
  | chunk :: rest =>
      let '(r, s1) := _generate_audio_chunk ops chunk voice_config language i s in
      let '(outcomes, s2) :=
        chunk_outcomes ops voice_config language (S i) rest s1 in
      (match r with Ok audio_file => audio_file | Raise _ => None end :: outcomes,
       s2)
  end.

(** The design document's reading of the result of a call started in
    [s]: a path that can be used. *)
Definition usable_artifact {W} (ops : Ops W)
    (text language voice_style : string) (custom_voice_id : option string)
    (s : state W) : Prop :=
  ∃ path s',
    create_voiceover ops text language voice_style custom_voice_id s
      = (Ok path, s')
    ∧ Py.nonempty path = true.

(** The states in which a call started in [s] hands over to
    [_create_fallback_audio]: after the message about the missing API
    key, after the message about an exception raised in the primary
    tier, or after the message about a primary tier that gave no
    file. *)
Definition fallback_entry {W} (ops : Ops W)
    (text language voice_style : string) (custom_voice_id : option string)
    (s s1 : state W) : Prop :=
  (Py.truthy (api_key (self s)) = false
   ∧ s1 = (logger ERROR "ElevenLabs API key bulunamadı"
             (announce text language s).2).2)
  ∨ (Py.truthy (api_key (self s)) = true
     ∧ ∃ e s0,
         configure language voice_style custom_voice_id
           (announce text language s).2 = (Raise e, s0)
         ∧ s1 = (logger ERROR ("Seslendirme hatası: " +:+ e) s0).2)
  ∨ (Py.truthy (api_key (self s)) = true
     ∧ ∃ voice_config s0 audio_files s2 s3,
         configure language voice_style custom_voice_id
           (announce text language s).2 = (Ok voice_config, s0)
         ∧ chunk_loop ops voice_config language 0
             (_split_text_for_tts text 2500) [] s0 = (Ok audio_files, s2)
         ∧ assemble ops audio_files language s2 = (Ok None, s3)
         ∧ s1 = (logger ERROR "Ses oluşturulamadı" s3).2).

(** The voice configurations as a reader finds them in the state [s]:
    for every configured language, the items of its dictionary. *)
Definition observed_configs {W} (s : state W) : gmap string (gmap string value) :=
  items (objects s) <$> voice_configs (self s).

(** The design document's reading of the configuration, for one call
    started in [s]: the instance is as it was, and so is what a reader
    finds configured for every language. *)
Definition configuration_read_only {W} (ops : Ops W)
    (text language voice_style : string) (custom_voice_id : option string)
    (s : state W) : Prop :=
  self (create_voiceover ops text language voice_style custom_voice_id s).2
  = self s
  ∧ observed_configs
      (create_voiceover ops text language voice_style custom_voice_id s).2
    = observed_configs s.

(** A computation that leaves the instance and the dictionary objects
    as they were. *)
Definition keeps_config {W A} (m : M (state W) A) : Prop :=
  ∀ s, self (m s).2 = self s ∧ objects (m s).2 = objects s.

(** The path of the silent file for a call started in [s]. *)
Definition silent_path {W} (ops : Ops W) (language : string) (s : state W)
  : string :=
  output_dir (self s) +:+ "/" +:+ "voice_silent_" +:+ language +:+ "_"
  +:+ now ops (world s) +:+ ".mp3".

(** The dictionary object that [create_voiceover] binds to
    [voice_config] on the instance [g]: that of the language, or that of
    English; none when English has no configuration. *)
Definition resolved (g : VoiceoverGenerator) (language : string) : option ref :=
  match voice_configs g !! "en" with
  | Some en => Some (default en (voice_configs g !! language))
  | None => None
  end.

(** A world that records the calls made into it.  The voice service
    accepts the texts that [post_ok] accepts; gTTS and ffmpeg are
    present or not. *)
Definition recording_ops (post_ok : string → bool) (gtts_ok ffmpeg_ok : bool)
  : Ops (list string) :=
  {| now := λ _, "20240101_120000";
     str_float := λ _, "0.5";
     http_post := λ url headers payload w,
       (Ok (if post_ok (p_text payload) then mkResponse 200 "ID3"
            else mkResponse 500 "Internal Server Error"),
        w ++ ["post"]);
     write_file := λ path data w, (Ok tt, w ++ ["write"]);
     absolute := λ path _, "/srv/" +:+ path;
     subprocess_run := λ cmd w,
       (if ffmpeg_ok then Ok (0, EmptyString)
        else Raise "[Errno 2] No such file or directory: 'ffmpeg'",
        w ++ ["ffmpeg"]);
     unlink := λ path w, (Ok tt, w ++ ["unlink"]);
     gtts_new := λ text lang w,
       (if gtts_ok then Ok tt else Raise "No module named 'gtts'",
        w ++ ["gtts"]);
     gtts_save := λ text lang path w, (Ok tt, w ++ ["save"]) |}.

(** Texts that begin with the letter a. *)
Definition starts_with_a (text : string) : bool :=
  match text with
  | String "a"%char _ => true
  | _ => false
  end.

(** A fresh instance with an API key, an empty log and no call made. *)
Definition fresh : state (list string) :=
  mkState (init (Some "sk_test")) init_objects [] [].

(** A fresh instance without API key. *)
Definition fresh_no_key : state (list string) :=
  mkState (init None) init_objects [] [].

(** The keys that [_generate_audio_chunk] reads by subscript. *)
Definition required_keys : list string :=
  ["voice_id"; "model_id"; "stability"; "similarity_boost"].

(** What the overrides of [create_voiceover] make of the store [h] when
    [voice_config] is the object [d]: the custom voice is written into
    [d] first; the settings of the style preset, read after that write,
    are written into [d] next.  No other object is written. *)
Definition overridden (g : VoiceoverGenerator) (voice_style : string)
    (custom_voice_id : option string) (d : ref) (h : store) : store :=
  let h1 :=
    if Py.truthy custom_voice_id
    then alter (<["voice_id" := VStr (default EmptyString custom_voice_id)]>) d h
    else h in
  match style_presets g !! voice_style with
  | Some style_settings => alter (dict_update (items h1 style_settings)) d h1
  | None => h1
  end.

(** The state of a caller that holds a dictionary of its own: a fresh
    instance and, as object 10, a dictionary with the items [config]. *)
Definition fresh_with (config : gmap string value) : state (list string) :=
  mkState (init (Some "sk_test")) (<[10%positive := config]> init_objects) [] [].

End Voice.

(* ================================================================== *)
(** * Orchestration: [SEALVideoAutomation] and [main] *)
(* ================================================================== *)

Module Main.

(** A script as [generate_script] returns it: a dictionary. *)
Abbreviation script_data := (gmap string string) (only parsing).

(** An element of the list that [get_trending_topics] returns: an
    instance of the [TrendTopic] dataclass, or a dictionary. *)
Inductive topic : Type :=
| TopicObj (t : Trend.TrendTopic)
| TopicDict (d : gmap string string).

(** [topic[key]] *)
Definition subscript (t : topic) (key : string) : Result string :=
  match t with
  | TopicObj _ => Raise "'TrendTopic' object is not subscriptable"
  | TopicDict d =>
      match d !! key with
      | Some v => Ok v
      | None => Raise ("'" +:+ key +:+ "'")
      end
  end.

(** [topic.get(key, default)] *)
Definition topic_get (t : topic) (key default : string) : Result string :=
  match t with
  | TopicObj _ => Raise "'TrendTopic' object has no attribute 'get'"
  | TopicDict d => Ok (match d !! key with Some v => v | None => default end)
  end.

(** The value stored under one language in the dictionary that
    [create_video_content] returns: the five artifacts, or
    [{'error': str(e)}]. *)
Inductive entry (U : Type) : Type :=
| Artifacts (script : script_data) (audio_path video_path : string)
    (upload_results : U) (created_at : string)
| Error (msg : string).
Arguments Artifacts {U}. Arguments Error {U}.

(** A dictionary keyed by language, in insertion order. *)
Abbreviation result U := (list (string * entry U)) (only parsing).

(** [d[k] = v] on an insertion-ordered dictionary. *)
Fixpoint dict_set {V} (k : string) (v : V) (d : list (string * V))
  : list (string * V) :=
  match d with
  | [] => [(k, v)]
  | (k', v') :: d' =>
      if decide (k' = k) then (k, v) :: d' else (k', v') :: dict_set k v d'
  end.

(** [d.get(k)] on an insertion-ordered dictionary. *)
Fixpoint dict_get {V} (k : string) (d : list (string * V)) : option V :=
  match d with
  | [] => None
  | (k', v') :: d' => if decide (k' = k) then Some v' else dict_get k d'
  end.

(** What is observable of a run, in order. *)
Inductive event (U : Type) : Type :=
| Log (lvl : level) (msg : string)
| Print (msg : string)
| Sleep (seconds : Z)
| Collect (upload_results : U) (script : script_data).
Arguments Log {U}. Arguments Print {U}. Arguments Sleep {U}. Arguments Collect {U}.

(** The collaborators and the environment of the orchestrator.
    - [get_trending_topics count]: [TrendAnalyzer.get_trending_topics];
    - [generate_script topic language category trend_data];
    - [add_affiliate_content script_data category];
    - [create_voiceover text language voice_style];
    - [create_video script_data audio_path language category];
    - [upload_video video_path script_data language];
    - [collect_video_metrics upload_results script];
    - [now_iso]: [datetime.now().isoformat()];
    - [daily_video_count]: [int(os.getenv('DAILY_VIDEO_COUNT', 3))];
    - [elapse seconds]: what the passing of time does to the world;
    - [set_test_mode]: [os.environ['TEST_MODE'] = 'true'];
    - [repr_result]: [str] of a result dictionary. *)
Record Ops (W U : Type) : Type := mkOps {
  get_trending_topics : Z → W → Result (list topic) * W;
  generate_script :
    string → string → string → option topic → W → Result script_data * W;
  add_affiliate_content : script_data → string → W → Result script_data * W;
  create_voiceover : string → string → string → W → Result string * W;
  create_video : script_data → string → string → string → W → Result string * W;
  upload_video : string → script_data → string → W → Result U * W;
  collect_video_metrics : U → script_data → W → Result unit * W;
  now_iso : W → string;
  daily_video_count : W → Result Z;
  elapse : Z → W → W;
  set_test_mode : W → W;
  repr_result : result U → string
}.
Arguments get_trending_topics {W U} _. Arguments generate_script {W U} _.
Arguments add_affiliate_content {W U} _. Arguments create_voiceover {W U} _.
Arguments create_video {W U} _. Arguments upload_video {W U} _.
Arguments collect_video_metrics {W U} _. Arguments now_iso {W U} _.
Arguments daily_video_count {W U} _. Arguments elapse {W U} _.
Arguments set_test_mode {W U} _. Arguments repr_result {W U} _.

(** The state of a run: the events so far, the batches handed to
    [asyncio.create_task] that have not run yet, and the world. *)
Record state (W U : Type) : Type := mkState {
  trace : list (event U);
  tasks : list (list (result U));
  world : W
}.
Arguments mkState {W U}. Arguments trace {W U}. Arguments tasks {W U}.
Arguments world {W U}.

(** How the process ends: with an exit status, or not within the cycles
    that are observed. *)
Inductive ending : Type :=
| Exited (code : Z)
| Running.

(** The command line after [parse_args]. *)
Record args : Type := mkArgs {
  arg_topic : option string;
  arg_languages : string;
  arg_count : Z;
  arg_include_affiliates : bool;
  arg_test_mode : bool;
  arg_auto_mode : bool
}.

Section Orchestrator.
Context {W U : Type} (ops : Ops W U).

Local Abbreviation M := (M (state W U)).

(** Appending an event to the trace. *)
Definition emit (e : event U) : M unit :=
  λ s, (Ok tt, mkState (trace s ++ [e]) (tasks s) (world s)).

(** [logger.info], [logger.error] *)
Definition logger (lvl : level) (msg : string) : M unit := emit (Log lvl msg).

(** A call to a collaborator. *)
Definition call {A} (f : W → Result A * W) : M A :=
  λ s, let '(r, w) := f (world s) in (r, mkState (trace s) (tasks s) w).

(** Reading the world without changing it. *)
Definition ask {A} (f : W → A) : M A := λ s, (Ok (f (world s)), s).

(** The outcome of evaluating an expression. *)
Definition eval {A} (r : Result A) : M A := λ s, (r, s).

(** Time passing. *)
Definition wait (seconds : Z) : M unit :=
  λ s, (Ok tt, mkState (trace s) (tasks s) (elapse ops seconds (world s))).

(** [await asyncio.sleep(seconds)] in a coroutine that is alone in
    running. *)
Definition sleep (seconds : Z) : M unit :=
  emit (Sleep seconds);; wait seconds.

(** [script_data['content']] *)
Definition content_of (script : script_data) : Result string :=
  match script !! "content" with
  | Some v => Ok v
  | None => Raise "'content'"
  end.

(** The body of the [try] of [create_video_content] for one language:
    the five stages and the entry they produce. *)
Definition stages (topic language category : string) (include_affiliates : bool)
    (trend_data : option Main.topic) : M (entry U) :=
  logger INFO ("Script oluşturuluyor (" +:+ language +:+ "): " +:+ topic);;
  script ← call (generate_script ops topic language category trend_data);
  script ←
    (if include_affiliates
     then call (add_affiliate_content ops script category)
     else mret script);
  logger INFO ("Seslendirme oluşturuluyor (" +:+ language +:+ ")");;
  text ← eval (content_of script);
  audio_path ←
    call (create_voiceover ops text language
            (default "professional" (script !! "voice_style")));
  logger INFO ("Video oluşturuluyor (" +:+ language +:+ ")");;
  video_path ← call (create_video ops script audio_path language category);
  logger INFO ("Video yükleniyor (" +:+ language +:+ ")");;
  upload_results ← call (upload_video ops video_path script language);
  created_at ← ask (now_iso ops);
  mret (Artifacts script audio_path video_path upload_results created_at).

(** One iteration of [for lang in languages] on [results]. *)
Definition language_step (topic category : string) (include_affiliates : bool)
    (trend_data : option Main.topic) (results : result U) (lang : string)
  : M (result U) :=
  try_except
    (e ← stages topic lang category include_affiliates trend_data;
     logger INFO ("Video başarıyla oluşturuldu ve yüklendi (" +:+ lang
                  +:+ "): " +:+ topic);;
     mret (dict_set lang e results))
    (λ e, logger ERROR ("Hata (" +:+ lang +:+ "): " +:+ topic +:+ " - " +:+ e);;
          mret (dict_set lang (Error e) results)).

(** The [for lang in languages] loop. *)
Fixpoint language_loop (topic category : string) (include_affiliates : bool)
    (trend_data : option Main.topic) (languages : list string)
    (results : result U) : M (result U) :=
  match languages with
  | [] => mret results
  | lang :: rest =>
      results ← language_step topic category include_affiliates trend_data
                  results lang;
      language_loop topic category include_affiliates trend_data rest results
  end.

(** [create_video_content(topic, category, languages, include_affiliates,
    trend_data)] *)
Definition create_video_content (topic category : string)
    (languages : option (list string)) (include_affiliates : bool)
    (trend_data : option Main.topic) : M (result U) :=
  let languages := default ["en"] languages in
  logger INFO ("Video içeriği oluşturuluyor: " +:+ topic);;
  language_loop topic category include_affiliates trend_data languages [].

(** The [for topic in trending_topics] loop of
    [generate_trending_content].  An exception raised by the handler
    itself leaves the loop. *)
Fixpoint topic_loop (trending_topics : list topic) (results : list (result U))
  : M (list (result U)) :=
  match trending_topics with
  | [] => mret results
  | t :: rest =>
      results ←
        try_except
          (title ← eval (subscript t "title");
           category ← eval (topic_get t "category" "general");
           r ← create_video_content title category None true (Some t);
           mret (results ++ [r]))
          (λ e, title ← eval (subscript t "title");
                logger ERROR ("Video oluşturma hatası (" +:+ title +:+ "): " +:+ e);;
                mret results);
      topic_loop rest results
  end.

(** [generate_trending_content(count)] *)
Definition generate_trending_content (count : Z) : M (list (result U)) :=
  logger INFO ("Trend analizi başlatılıyor - " +:+ pretty count +:+ " video için");;
  trending_topics ← call (get_trending_topics ops count);
  topic_loop trending_topics [].

(** [asyncio.create_task(self.collect_feedback_for_videos(results))]:
    the coroutine is only scheduled. *)
Definition create_task (results : list (result U)) : M unit :=
  λ s, (Ok tt, mkState (trace s) (tasks s ++ [results]) (world s)).

(** [run_automation_cycle()] *)
Definition run_automation_cycle : M (list (result U)) :=
  logger INFO "Otomasyon döngüsü başlatılıyor";;
  try_except
    (count ← ask (daily_video_count ops);
     daily_video_count ← eval count;
     results ← generate_trending_content daily_video_count;
     logger INFO ("Otomasyon döngüsü tamamlandı: " +:+ pretty (length results)
                  +:+ " video işlendi");;
     create_task results;;
     mret results)
    (λ e, logger ERROR ("Otomasyon döngüsü hatası: " +:+ e);;
          raise e).

(** The [for lang, data in result.items()] loop of
    [collect_feedback_for_videos]. *)
Definition collect_result (r : result U) : M unit :=
  for_each r (λ '(lang, data),
    match data with
    | Artifacts script _ _ upload_results _ =>
        emit (Collect upload_results script);;
        call (collect_video_metrics ops upload_results script)
    | Error _ => mret tt
    end).

(** [collect_feedback_for_videos(results)] *)
Definition collect_feedback_for_videos (results : list (result U)) : M unit :=
  logger INFO "Feedback toplama başlatılıyor";;
  sleep 7200;;
  for_each results (λ r,
    try_except (collect_result r)
      (λ e, logger ERROR ("Feedback toplama hatası: " +:+ e))).

(** [await asyncio.sleep(86400)] in [main]: while [main] is suspended
    the event loop runs the coroutines scheduled by [create_task], and
    [main] resumes when its day is over.  An exception that ends a task
    is kept in the task object and never retrieved.  (A cycle schedules
    one task; were several pending, their two hours would overlap, which
    the sequential account of time below ignores.) *)
Definition sleep_a_day : M unit :=
  emit (Sleep 86400);;
  pending ← (λ s, (Ok (tasks s), mkState (trace s) [] (world s))) : M _;
  for_each pending
    (λ b, try_except (collect_feedback_for_videos b) (λ _, mret tt));;
  wait (match pending with [] => 86400 | _ => 86400 - 7200 end).

(** [while True: await run_automation_cycle(); await asyncio.sleep(86400)],
    observed for [cycles] iterations. *)
Fixpoint auto_loop (cycles : nat) : M unit :=
  match cycles with
  | O => mret tt
  | S n =>
      run_automation_cycle;;
      sleep_a_day;;
      auto_loop n
  end.

(** The statements of [main] between the construction of
    [SEALVideoAutomation] and the [try]: the test mode is set in the
    environment. *)
Definition after_test_mode (a : args) (s : state W U) : state W U :=
  if arg_test_mode a
  then (logger INFO "TEST MODU - Videolar yüklenmeyecek"
          (mkState (trace s) (tasks s) (set_test_mode ops (world s)))).2
  else s.

(** The body of the [try] of [main]; the loop of the automatic mode is
    observed for at most [cycles] iterations. *)
Definition main_body (a : args) (cycles : nat) : M ending :=
  if arg_auto_mode a then
    logger INFO "Otomatik mod başlatıldı - CTRL+C ile durdurun";;
    auto_loop cycles;;
    mret Running
  else
    match arg_topic a with
    | Some (String _ _ as topic) =>
        let languages := Py.split_char ","%char (arg_languages a) in
        r ← create_video_content topic "general" (Some languages)
              (arg_include_affiliates a) None;
        emit (Print ("Video oluşturuldu: " +:+ repr_result ops r));;
        mret (Exited 0)
    | _ =>
        results ← generate_trending_content (arg_count a);
        emit (Print (pretty (length results)
                     +:+ " trend tabanlı video oluşturuldu"));;
        mret (Exited 0)
    end.

(** [main()] after the construction of [SEALVideoAutomation]: an
    exception that leaves the [try] is logged and the process exits with
    status 1. *)
Definition main (a : args) (cycles : nat) (s : state W U) : ending * state W U :=
  match main_body a cycles (after_test_mode a s) with
  | (Ok e, s') => (e, s')
  | (Raise e, s') =>
      (Exited 1, (logger ERROR ("Kritik hata: " +:+ e) s').2)
  end.

End Orchestrator.

(** ** Statements and inputs used below *)

(** The entry that [create_video_content] stores for a language, given
    the outcome of the stages for that language. *)
Definition entry_of {U} (r : Result (entry U)) : entry U :=
  match r with
  | Ok e => e
  | Raise msg => Error msg
  end.

(** The state in which the turn of a language starts, when the
    languages [before] had their turn before it, from the state [s]
    on. *)
Definition turn_state {W U} (ops : Ops W U) (topic category : string)
    (include_affiliates : bool) (trend_data : option Main.topic)
    (before : list string) (s : state W U) : state W U :=
  foldl (λ s lang,
           (language_step ops topic category include_affiliates trend_data
              [] lang s).2)
        s before.

(** The entries of a result that record a failure. *)
Definition errors {U} (r : result U) : list string :=
  omap (λ '(_, e), match e with Error msg => Some msg | _ => None end) r.

(** The uploads of a result for which metrics are to be collected, in
    the order of [result.items()]. *)
Definition eligible {U} (r : result U) : list (U * script_data) :=
  omap (λ '(_, e),
          match e with
          | Artifacts script _ _ upload_results _ => Some (upload_results, script)
          | Error _ => None
          end) r.

(** The calls of the metrics collector that a trace records. *)
Definition collects {U} (tr : list (event U)) : list (U * script_data) :=
  omap (λ ev, match ev with Collect u script => Some (u, script) | _ => None end) tr.

(** The events of the calls of the metrics collector for the uploads
    [part]. *)
Definition collect_events {U} (part : list (U * script_data)) : list (event U) :=
  map (λ '(u, script), Collect u script) part.

(** The state in which the loop of the automatic mode starts. *)
Definition loop_start {W U} (ops : Ops W U) (a : args) (s : state W U)
  : state W U :=
  (logger INFO "Otomatik mod başlatıldı - CTRL+C ile durdurun"
     (after_test_mode ops a s)).2.

(** The design document's reading of the automatic mode, over the
    cycles observed: the process is still running. *)
Definition survives_cycle_failures {W U} (ops : Ops W U) (a : args)
    (cycles : nat) (s : state W U) : Prop :=
  (main ops a cycles s).1 = Running.

(** The events of the collection for the uploads [uploads], from the
    world [w] on: for every upload, in order, the call of the collector
    and, when the collector raised, the message that reports it.  The
    second component is the world after the last call. *)
Fixpoint upload_events {W U} (ops : Ops W U) (uploads : list (U * script_data))
    (w : W) : list (event U) * W :=
  match uploads with
  | [] => ([], w)
  | (u, script) :: rest =>
      let '(r, w1) := collect_video_metrics ops u script w in
      let '(events, w2) := upload_events ops rest w1 in
      (Collect u script
       :: match r with
          | Ok _ => events
          | Raise e => Log ERROR ("Feedback toplama hatası: " +:+ e) :: events
          end,
       w2)
  end.

(** Collaborators that always succeed, except that the trend analysis
    gives [topics], the voice stage fails for the languages in
    [voice_fails] and the metrics collector fails for the uploads in
    [metrics_fail].  The world records the calls. *)
Definition scripted_ops (topics : Result (list topic))
    (voice_fails metrics_fail : list string) : Ops (list string) string :=
  {| get_trending_topics := λ count w, (topics, w ++ ["get_trending_topics"]);
     generate_script := λ topic language category trend_data w,
       (Ok {[ "content" := "All about " +:+ topic ]},
        w ++ ["generate_script " +:+ language]);
     add_affiliate_content := λ script category w,
       (Ok script, w ++ ["add_affiliate_content"]);
     create_voiceover := λ text language voice_style w,
       (if bool_decide (language ∈ voice_fails)
        then Raise "voice synthesis failed"
        else Ok ("output/audio/voice_" +:+ language +:+ ".mp3"),
        w ++ ["create_voiceover " +:+ language]);
     create_video := λ script audio_path language category w,
       (Ok ("output/videos/video_" +:+ language +:+ ".mp4"),
        w ++ ["create_video " +:+ language]);
     upload_video := λ video_path script language w,
       (Ok ("upload_" +:+ language), w ++ ["upload_video " +:+ language]);
     collect_video_metrics := λ upload_results script w,
       (if bool_decide (upload_results ∈ metrics_fail)
        then Raise "quota exceeded"
        else Ok tt,
        w ++ ["collect_video_metrics " +:+ upload_results]);
     now_iso := λ _, "2024-01-01T12:00:00";
     daily_video_count := λ _, Ok 3;
     elapse := λ _ w, w;
     set_test_mode := λ w, w;
     repr_result := λ _, "{...}" |}.

(** Collaborators as in [scripted_ops (Ok topics) [] []], except that
    the trend analysis raises from its second call on and the metrics
    collector raises at the first call for an upload. *)
Definition faltering_ops (topics : list topic) : Ops (list string) string :=
  let o := scripted_ops (Ok topics) [] [] in
  {| get_trending_topics := λ count w,
       (if bool_decide ("get_trending_topics" ∈ w)
        then Raise "ranking engine crashed"
        else Ok topics,
        w ++ ["get_trending_topics"]);
     generate_script := generate_script o;
     add_affiliate_content := add_affiliate_content o;
     create_voiceover := create_voiceover o;
     create_video := create_video o;
     upload_video := upload_video o;
     collect_video_metrics := λ upload_results script w,
       (if bool_decide ("collect_video_metrics " +:+ upload_results ∈ w)
        then Ok tt
        else Raise "quota exceeded",
        w ++ ["collect_video_metrics " +:+ upload_results]);
     now_iso := now_iso o;
     daily_video_count := daily_video_count o;
     elapse := elapse o;
     set_test_mode := set_test_mode o;
     repr_result := repr_result o |}.

(** Two topics with a title. *)
Definition two_topics : list topic :=
  [TopicDict {[ "title" := "AI money" ]};
   TopicDict {[ "title" := "Passive income" ]}].

(** The state of a process that has done nothing yet. *)
Definition idle : state (list string) string := mkState [] [] [].

(** The command line [--auto-mode]. *)
Definition auto_args : args :=
  {| arg_topic := None;
     arg_languages := "en";
     arg_count := 1;
     arg_include_affiliates := false;
     arg_test_mode := false;
     arg_auto_mode := true |}.

(** A result with uploads for English and German. *)
Definition en_de_uploaded : result string :=
  [("en", Artifacts {[ "content" := "All about AI money" ]}
            "output/audio/voice_en.mp3" "output/videos/video_en.mp4"
            "upload_en" "2024-01-01T12:00:00");
   ("de", Artifacts {[ "content" := "All about AI money" ]}
            "output/audio/voice_de.mp3" "output/videos/video_de.mp4"
            "upload_de" "2024-01-01T12:00:00")].

End Main.

(* ================================================================== *)
(** * Rendering helpers: [VideoCreator] *)
(* ================================================================== *)

Module Video.

(** The white space that [int] strips from a string: the ASCII white
    space and the white space beyond ASCII. *)
Definition int_space (c : ascii) : bool :=
  let n := nat_of_ascii c in
  ((9 <=? n) && (n <=? 13) || (n =? 32) || (n =? 133) || (n =? 160))%nat.

(** The value of a hexadecimal digit. *)
Definition hex_digit (c : ascii) : option Z :=
  let n := nat_of_ascii c in
  if ((48 <=? n) && (n <=? 57))%nat then Some (Z.of_nat n - 48)
  else if ((65 <=? n) && (n <=? 70))%nat then Some (Z.of_nat n - 55)
  else if ((97 <=? n) && (n <=? 102))%nat then Some (Z.of_nat n - 87)
  else None.

(** Whether a string is white space only. *)
Fixpoint all_int_space (s : string) : bool :=
  match s with
  | EmptyString => true
  | String c s' => int_space c && all_int_space s'
  end.

(** Leading white space removed. *)
Fixpoint skip_int_space (s : string) : string :=
  match s with
  | EmptyString => EmptyString
  | String c s' => if int_space c then skip_int_space s' else s
  end.

(** The digits of a literal of base 16: single underscores are allowed
    between digits, white space after the last digit.  [acc] is the
    value of the digits read, [after_digit] tells whether the previous
    character was a digit. *)
Fixpoint int16_digits (acc : Z) (after_digit : bool) (s : string) : option Z :=
  match s with
  | EmptyString => if after_digit then Some acc else None
  | String c s' =>
      match hex_digit c with
      | Some d => int16_digits (16 * acc + d) true s'
      | None =>
          if after_digit then
            if decide (c = "_"%char) then int16_digits acc false s'
            else if all_int_space s then Some acc else None
          else None
      end
  end.

(** [int(s, 16)]: white space, a sign, the prefix [0x] with one
    underscore after it, the digits.  (The message shows [s] as [repr]
    shows a string of printable characters without quotes.) *)
Definition int16 (s : string) : Result Z :=
  let s1 := skip_int_space s in
  let '(negative, s2) :=
    match s1 with
    | String "+" r => (false, r)
    | String "-" r => (true, r)
    | _ => (false, s1)
    end in
  let s3 :=
    match s2 with
    | String "0" (String x r) =>
        if decide (x = "x"%char ∨ x = "X"%char)
        then match r with String "_" r' => r' | _ => r end
        else s2
    | _ => s2
    end in
  match int16_digits 0 false s3 with
  | Some v => Ok (if negative then - v else v)
  | None => Raise ("invalid literal for int() with base 16: '" +:+ s +:+ "'")
  end.

(** [_hex_to_rgb(hex_color)]: the generator is consumed from left to
    right, the first failure ends it. *)
Definition _hex_to_rgb (hex_color : string) : Result (Z * Z * Z) :=
  let hex_color := Py.lstrip_char "#" hex_color in
  match int16 (String.substring 0 2 hex_color) with
  | Raise e => Raise e
  | Ok r =>
      match int16 (String.substring 2 2 hex_color) with
      | Raise e => Raise e
      | Ok g =>
          match int16 (String.substring 4 2 hex_color) with
          | Raise e => Raise e
          | Ok b => Ok (r, g, b)
          end
      end
  end.

(** [_split_text_for_subtitles]: one iteration of [for word in words]
    on the pair ([lines], [current_line]). *)
Definition subtitle_step (max_chars_per_line : Z) (st : list string * string)
    (word : string) : list string * string :=
  let '(lines, current_line) := st in
  if Z.of_nat (String.length ((current_line +:+ " ") +:+ word))
     <=? max_chars_per_line
  then (lines,
        if Py.nonempty current_line then (current_line +:+ " ") +:+ word
        else word)
  else ((if Py.nonempty current_line then lines ++ [current_line] else lines),
        word).

(** [_split_text_for_subtitles(text, max_chars_per_line)] *)
Definition _split_text_for_subtitles (text : string) (max_chars_per_line : Z)
  : list string :=
  let words := Py.split_ws text in
  let '(lines, current_line) :=
    foldl (subtitle_step max_chars_per_line) ([], EmptyString) words in
  if Py.nonempty current_line then lines ++ [current_line] else lines.

(** [self.subtitle_settings.get(language, self.subtitle_settings['en'])
    ['max_chars_per_line']] *)
Definition max_chars_per_line (language : string) : Z :=
  if decide (language = "en") then 25
  else if decide (language = "de") then 22
  else if decide (language = "ko") then 20
  else if decide (language = "zh") then 18
  else 25.

(** The lines that [_create_subtitle_file(content, language, duration)]
    numbers and writes. *)
Definition subtitle_lines (content language : string) : list string :=
  _split_text_for_subtitles content (max_chars_per_line language).

(** The world outside the process, as far as these helpers touch it:
    [now] is [datetime.now().strftime("%Y%m%d_%H%M%S")] and
    [subprocess_run cmd] is [subprocess.run], giving [returncode] and
    [stderr]. *)
Record Ops (W : Type) : Type := mkOps {
  now : W → string;
  subprocess_run : list string → W → Result (Z * string) * W
}.
Arguments now {W} _. Arguments subprocess_run {W} _.

(** The state a call runs in: the log and the world. *)
Record state (W : Type) : Type := mkState {
  log : list (level * string);
  world : W
}.
Arguments mkState {W}. Arguments log {W}. Arguments world {W}.

Section Helpers.
Context {W : Type} (ops : Ops W).

Local Abbreviation M := (M (state W)).

(** [logger.info], [logger.error] *)
Definition logger (lvl : level) (msg : string) : M unit :=
  λ s, (Ok tt, mkState (log s ++ [(lvl, msg)]) (world s)).

(** A call into the world. *)
Definition call {A} (f : W → Result A * W) : M A :=
  λ s, let '(r, w) := f (world s) in (r, mkState (log s) w).

(** Reading the world without changing it. *)
Definition ask {A} (f : W → A) : M A := λ s, (Ok (f (world s)), s).

(** [self.output_dir / filename] *)
Definition in_output_dir (filename : string) : string :=
  "output/videos/" +:+ filename.

(** The command line of [create_thumbnail]. *)
Definition thumbnail_cmd (video_path thumbnail_path : string) : list string :=
  ["ffmpeg"; "-i"; video_path; "-ss"; "00:00:02"; "-vframes"; "1"; "-y";
   thumbnail_path].

(** [create_thumbnail(script_data, video_path, category)]; neither the
    script nor the category is read. *)
Definition create_thumbnail (video_path : string) : M string :=
  try_except
    (timestamp ← ask (now ops);
     let thumbnail_filename := "thumbnail_" +:+ timestamp +:+ ".jpg" in
     let thumbnail_path := in_output_dir thumbnail_filename in
     result ← call (subprocess_run ops (thumbnail_cmd video_path thumbnail_path));
     if result.1 =? 0 then
       logger INFO ("Thumbnail oluşturuldu: " +:+ thumbnail_filename);;
       mret thumbnail_path
     else
       logger ERROR ("Thumbnail oluşturma hatası: " +:+ result.2);;
       mret EmptyString)
    (λ e, logger ERROR ("Thumbnail hatası: " +:+ e);;
          mret EmptyString).

(** [watermark_filter] of [add_watermark]. *)
Definition watermark_filter (watermark_text : string) : string :=
  "drawtext=text='" +:+ watermark_text +:+ "'"
  +:+ ":fontcolor=white@0.5" +:+ ":fontsize=24" +:+ ":x=w-tw-10"
  +:+ ":y=h-th-10".

(** The command line of [add_watermark]. *)
Definition watermark_cmd (video_path watermark_text output_path : string)
  : list string :=
  ["ffmpeg"; "-i"; video_path; "-vf"; watermark_filter watermark_text;
   "-c:a"; "copy"; "-y"; output_path].

(** [add_watermark(video_path, watermark_text)] *)
Definition add_watermark (video_path : string) (watermark_text : option string)
  : M string :=
  try_except
    (let watermark_text :=
       if negb (Py.truthy watermark_text) then "AI Generated"
       else default EmptyString watermark_text in
     timestamp ← ask (now ops);
     let output_filename := "watermarked_" +:+ timestamp +:+ ".mp4" in
     let output_path := in_output_dir output_filename in
     result ← call (subprocess_run ops
                      (watermark_cmd video_path watermark_text output_path));
     if result.1 =? 0 then
       logger INFO ("Watermark eklendi: " +:+ output_filename);;
       mret output_path
     else
       logger ERROR ("Watermark hatası: " +:+ result.2);;
       mret video_path)
    (λ e, logger ERROR ("Watermark ekleme hatası: " +:+ e);;
          mret video_path).

End Helpers.

(** ** Statements used below *)

(** A wrapped text is filled greedily when the first word of every line
    but the first would not have fitted at the end of the line before
    it. *)
Fixpoint greedy (max_chars_per_line : Z) (lines : list string) : Prop :=
  match lines with
  | [] => True
  | l1 :: rest =>
      match rest with
      | [] => True
      | l2 :: _ =>
          (∀ w ws, Py.split_ws l2 = w :: ws →
             max_chars_per_line < Z.of_nat (String.length ((l1 +:+ " ") +:+ w)))
          ∧ greedy max_chars_per_line rest
      end
  end.

(** A group of words fits a line when joined by single spaces it is
    within the limit, or when it is a single word. *)
Definition fits (max_chars_per_line : Z) (g : list string) : Prop :=
  Z.of_nat (String.length (Py.join " " g)) ≤ max_chars_per_line
  ∨ length g = 1%nat.

(** The pair ([lines], [current_line]) of the wrapping loop once the
    words [processed] have been read: the lines and the current line
    are groups of consecutive words, each joined by single spaces. *)
Definition wrapped (max_chars_per_line : Z) (processed : list string)
    (st : list string * string) : Prop :=
  ∃ (groups : list (list string)) (g : list string),
    st = (map (Py.join " ") groups, Py.join " " g)
    ∧ concat groups ++ g = processed
    ∧ Forall (λ g, g ≠ []) groups
    ∧ (groups ≠ [] → g ≠ [])
    ∧ Forall (fits max_chars_per_line) groups
    ∧ (g ≠ [] → fits max_chars_per_line g)
    ∧ greedy max_chars_per_line (map (Py.join " ") groups ++ [Py.join " " g]).

End Video.

(* ================================================================== *)
(** * Properties of computations *)
(* ================================================================== *)

Module MonadFacts.

Section Computations.
Context {S : Type}.

Local Abbreviation M := (M S).

(** ** Computations that return *)

Lemma returns_ret {A} (a : A) : returns (mret a : M A).
Proof. intros s. by eexists _, _. Qed.

Lemma returns_bind {A B} (m : M A) (f : A → M B) :
  returns m → (∀ a, returns (f a)) → returns (m ≫= f).
Proof.
  intros Hm Hf s. destruct (Hm s) as (a & s' & E).
  destruct (Hf a s') as (b & s'' & E'). exists b, s''.
  unfold mbind, M_bind. by rewrite E.
Qed.

(** A [try] whose handler returns, returns. *)
Lemma returns_try_except {A} (m : M A) (handler : string → M A) :
  (∀ e, returns (handler e)) → returns (try_except m handler).
Proof.
  intros Hh s. unfold try_except.
  destruct (m s) as [[a|e] s']; [by eexists _, _|apply Hh].
Qed.

(** ** Exceptions *)

Lemma bind_raise {A B} (m : M A) (f : A → M B) (s s1 : S) (e : string) :
  m s = (Raise e, s1) → (m ≫= f) s = (Raise e, s1).
Proof. intros E. unfold mbind, M_bind. by rewrite E. Qed.

Lemma bind_ok {A B} (m : M A) (f : A → M B) (s s1 : S) (a : A) :
  m s = (Ok a, s1) → (m ≫= f) s = f a s1.
Proof. intros E. unfold mbind, M_bind. by rewrite E. Qed.

Lemma try_except_raise {A} (m : M A) (handler : string → M A)
    (s s1 : S) (e : string) :
  m s = (Raise e, s1) → try_except m handler s = handler e s1.
Proof. intros E. unfold try_except. by rewrite E. Qed.

Lemma try_except_ok {A} (m : M A) (handler : string → M A)
    (s s1 : S) (a : A) :
  m s = (Ok a, s1) → try_except m handler s = (Ok a, s1).
Proof. intros E. unfold try_except. by rewrite E. Qed.

(** ** What a computation yields *)

Lemma yields_bind {A B} (m : M A) (f : A → M B) (Q : B → Prop) :
  (∀ a, yields (f a) Q) → yields (m ≫= f) Q.
Proof.
  intros Hf s b s'. unfold mbind, M_bind.
  destruct (m s) as [[a|e] s1]; [apply Hf|done].
Qed.

Lemma yields_ret {A} (a : A) (Q : A → Prop) : Q a → yields (mret a : M A) Q.
Proof. intros HQ s b s' [= <- _]. exact HQ. Qed.

Lemma yields_raise {A} (e : string) (Q : A → Prop) : yields (raise e : M A) Q.
Proof. by intros s b s'. Qed.

Lemma ensures_bind {A B} (m : M A) (f : A → M B) (P : A → Prop)
    (Q : B → S → Prop) :
  yields m P → (∀ a, P a → ensures (f a) Q) → ensures (m ≫= f) Q.
Proof.
  intros Hm Hf s b s'. unfold mbind, M_bind.
  destruct (m s) as [[a|e] s1] eqn:E; [|done].
  apply Hf. by apply (Hm _ _ _ E).
Qed.

Lemma ensures_try_except {A} (m : M A) (handler : string → M A)
    (Q : A → S → Prop) :
  ensures m Q → (∀ e, ensures (handler e) Q) → ensures (try_except m handler) Q.
Proof.
  intros Hm Hh s a s'. unfold try_except.
  destruct (m s) as [[a'|e] s1] eqn:E.
  - intros [= <- <-]. by apply (Hm _ _ _ E).
  - apply Hh.
Qed.

Lemma yields_true {A} (m : M A) : yields m (λ _, True).
Proof. by intros s a s' _. Qed.

Lemma yields_try_except {A} (m : M A) (handler : string → M A) (Q : A → Prop) :
  yields m Q → (∀ e, yields (handler e) Q) → yields (try_except m handler) Q.
Proof.
  intros Hm Hh s a s'. unfold try_except.
  destruct (m s) as [[a'|e] s1] eqn:E.
  - intros [= <- <-]. by apply (Hm _ _ _ E).
  - apply Hh.
Qed.

Lemma returns_for_each {A} (l : list A) (body : A → M unit) :
  (∀ a, returns (body a)) → returns (for_each l body).
Proof.
  intros Hb. induction l as [|a l IH]; simpl.
  - apply returns_ret.
  - apply returns_bind; [apply Hb|]. by intros _.
Qed.

End Computations.

End MonadFacts.

(* ================================================================== *)
(** * Properties of the built-ins *)
(* ================================================================== *)

Module PyFacts.

Lemma Qltb_lt (a b : Q) : Py.Qltb a b = true ↔ (a < b)%Q.
Proof.
  unfold Py.Qltb. rewrite negb_true_iff, <- not_true_iff_false, Qle_bool_iff.
  split; [apply Qnot_le_lt | apply Qlt_not_le].
Qed.

Lemma Qltb_ge (a b : Q) : Py.Qltb a b = false ↔ (b <= a)%Q.
Proof.
  unfold Py.Qltb. rewrite negb_false_iff. apply Qle_bool_iff.
Qed.

Lemma min_le_r (a b : Q) : (Py.min a b <= b)%Q.
Proof.
  unfold Py.min. destruct (Py.Qltb b a) eqn:E.
  - apply Qle_refl.
  - apply Qltb_ge in E. exact E.
Qed.

Section Sorting.
Context {A : Type} (key : A → Q).

Local Abbreviation asc := (λ a b : A, (key a <= key b)%Q).
Local Abbreviation desc := (λ a b : A, (key b <= key a)%Q).

Lemma insert_by_perm (x : A) (l : list A) :
  Permutation (Py.insert_by key x l) (x :: l).
Proof.
  induction l as [|y l IH]; simpl; [reflexivity|].
  destruct (Py.Qltb (key y) (key x)); [|reflexivity].
  rewrite IH. apply perm_swap.
Qed.

Lemma stable_sort_perm (l : list A) : Permutation (Py.stable_sort key l) l.
Proof.
  induction l as [|x l IH]; simpl; [reflexivity|].
  rewrite insert_by_perm. by constructor.
Qed.

Lemma sorted_perm (reverse : bool) (l : list A) :
  Permutation (Py.sorted key reverse l) l.
Proof.
  unfold Py.sorted. destruct reverse.
  - rewrite <- Permutation_rev, stable_sort_perm. symmetry. apply Permutation_rev.
  - apply stable_sort_perm.
Qed.

Lemma insert_by_sorted (x : A) (l : list A) :
  StronglySorted asc l → StronglySorted asc (Py.insert_by key x l).
Proof.
  induction 1 as [|y l Hl IH Hy]; simpl.
  - repeat constructor.
  - destruct (Py.Qltb (key y) (key x)) eqn:E.
    + constructor; [exact IH|].
      rewrite insert_by_perm. constructor; [|exact Hy].
      apply Qltb_lt in E. by apply Qlt_le_weak.
    + apply Qltb_ge in E. constructor; [by constructor|].
      constructor; [exact E|].
      eapply Forall_impl; [exact Hy|]. simpl. intros z Hz.
      eapply Qle_trans; eassumption.
Qed.

Lemma stable_sort_sorted (l : list A) : StronglySorted asc (Py.stable_sort key l).
Proof.
  induction l as [|x l IH]; simpl; [constructor|].
  by apply insert_by_sorted.
Qed.

Lemma StronglySorted_app (R : A → A → Prop) (l1 l2 : list A) :
  StronglySorted R l1 → StronglySorted R l2 →
  (∀ a b, a ∈ l1 → b ∈ l2 → R a b) →
  StronglySorted R (l1 ++ l2).
Proof.
  induction 1 as [|x l1 H1 IH Hx]; simpl; intros H2 H12; [done|].
  constructor.
  - apply IH; [done|]. intros a b Ha Hb. apply H12; [by right|done].
  - apply Forall_app. split; [done|].
    apply Forall_forall. intros b Hb. apply H12; [by left|done].
Qed.

Lemma StronglySorted_rev (R : A → A → Prop) (l : list A) :
  StronglySorted R l → StronglySorted (flip R) (rev l).
Proof.
  induction 1 as [|x l Hl IH Hx]; simpl; [constructor|].
  apply StronglySorted_app; [done|repeat constructor|].
  intros a b Ha Hb. apply list_elem_of_singleton in Hb as ->.
  rewrite Forall_forall in Hx. apply Hx.
  apply list_elem_of_In, in_rev. by apply list_elem_of_In.
Qed.

(** [sorted] with [reverse=True] yields keys in descending order. *)
Lemma sorted_reverse_desc (l : list A) :
  StronglySorted desc (Py.sorted key true l).
Proof.
  unfold Py.sorted.
  apply (StronglySorted_rev asc). apply stable_sort_sorted.
Qed.

(** Elements of equal key keep their relative order through an
    insertion. *)
Lemma insert_by_filter (P : A → Prop) `{!∀ a, Decision (P a)} (s : Q)
    (x : A) (l : list A) :
  (∀ a, P a → (key a == s)%Q) →
  filter P (Py.insert_by key x l) = filter P (x :: l).
Proof.
  intros HP. induction l as [|y l IH]; simpl; [done|].
  destruct (Py.Qltb (key y) (key x)) eqn:E; [|done].
  rewrite filter_cons. rewrite IH. rewrite !filter_cons.
  destruct (decide (P y)) as [Hy|Hy]; [|done].
  destruct (decide (P x)) as [Hx|Hx]; [|done].
  exfalso. apply Qltb_lt in E.
  rewrite (HP _ Hx), (HP _ Hy) in E. by apply Qlt_irrefl in E.
Qed.

Lemma stable_sort_filter (P : A → Prop) `{!∀ a, Decision (P a)} (s : Q)
    (l : list A) :
  (∀ a, P a → (key a == s)%Q) →
  filter P (Py.stable_sort key l) = filter P l.
Proof.
  intros HP. induction l as [|x l IH]; simpl; [done|].
  rewrite (insert_by_filter P s) by done.
  by rewrite !filter_cons, IH.
Qed.

Lemma filter_rev (P : A → Prop) `{!∀ a, Decision (P a)} (l : list A) :
  filter P (rev l) = rev (filter P l).
Proof.
  induction l as [|x l IH]; simpl; [done|].
  rewrite filter_app, IH, filter_cons.
  destruct (decide (P x)); simpl.
  - by rewrite filter_cons_True, filter_nil by done.
  - by rewrite filter_cons_False, filter_nil, app_nil_r by done.
Qed.

(** [sorted] is stable, also with [reverse=True]: among the elements
    whose keys are equal, the order of the input is kept. *)
Lemma sorted_stable (P : A → Prop) `{!∀ a, Decision (P a)} (s : Q)
    (reverse : bool) (l : list A) :
  (∀ a, P a → (key a == s)%Q) →
  filter P (Py.sorted key reverse l) = filter P l.
Proof.
  intros HP. unfold Py.sorted. destruct reverse.
  - rewrite filter_rev, (stable_sort_filter P s), filter_rev by done.
    apply rev_involutive.
  - by apply (stable_sort_filter P s).
Qed.

End Sorting.

Section Related.
Context {A B : Type} (key1 : A → Q) (key2 : B → Q) (R : A → B → Prop).
Context (HR : ∀ a b, R a b → key1 a = key2 b).

Lemma insert_by_related (x : A) (y : B) (l : list A) (k : list B) :
  R x y → Forall2 R l k →
  Forall2 R (Py.insert_by key1 x l) (Py.insert_by key2 y k).
Proof using HR.
  intros Hxy. induction 1 as [|a b l k Hab Hlk IH]; simpl.
  - by repeat constructor.
  - rewrite <- (HR _ _ Hab), <- (HR _ _ Hxy).
    destruct (Py.Qltb (key1 a) (key1 x)); by repeat constructor.
Qed.

Lemma stable_sort_related (l : list A) (k : list B) :
  Forall2 R l k → Forall2 R (Py.stable_sort key1 l) (Py.stable_sort key2 k).
Proof using HR.
  induction 1 as [|a b l k Hab Hlk IH]; simpl; [constructor|].
  by apply insert_by_related.
Qed.

Lemma rev_related (l : list A) (k : list B) :
  Forall2 R l k → Forall2 R (rev l) (rev k).
Proof.
  induction 1 as [|a b l k Hab Hlk IH]; simpl; [constructor|].
  apply Forall2_app; [done|]. by repeat constructor.
Qed.

(** Sorting two lists whose elements are related, and have the same
    keys, position by position, gives lists that are related position by
    position. *)
Lemma sorted_related (reverse : bool) (l : list A) (k : list B) :
  Forall2 R l k → Forall2 R (Py.sorted key1 reverse l) (Py.sorted key2 reverse k).
Proof using HR.
  intros H. unfold Py.sorted. destruct reverse.
  - by apply rev_related, stable_sort_related, rev_related.
  - by apply stable_sort_related.
Qed.

Lemma slice_to_related (n : Z) (l : list A) (k : list B) :
  Forall2 R l k → Forall2 R (Py.slice_to n l) (Py.slice_to n k).
Proof.
  intros H. unfold Py.slice_to. rewrite (Forall2_length _ _ _ H).
  destruct (0 <=? n); by apply Forall2_take.
Qed.

End Related.

Lemma StronglySorted_take {A} (R : A → A → Prop) (n : nat) (l : list A) :
  StronglySorted R l → StronglySorted R (take n l).
Proof.
  intros H. revert n. induction H as [|x l Hl IH Hx]; intros [|n]; simpl;
    try constructor; [apply IH|].
  by apply Forall_take.
Qed.

Lemma slice_to_sorted {A} (R : A → A → Prop) (n : Z) (l : list A) :
  StronglySorted R l → StronglySorted R (Py.slice_to n l).
Proof.
  intros H. unfold Py.slice_to. destruct (0 <=? n); by apply StronglySorted_take.
Qed.

End PyFacts.

(* ================================================================== *)
(** * Properties of the ranking engine *)
(* ================================================================== *)

Module TrendFacts.
Import Trend.

(** Scoring touches [confidence_score] only. *)
Lemma score_trend_iter_fields (n : nat) (t : TrendTopic) :
  let t' := Nat.iter n score_trend t in
  title t' = title t ∧ category t' = category t ∧ source t' = source t
  ∧ search_volume t' = search_volume t ∧ growth_rate t' = growth_rate t
  ∧ region t' = region t ∧ related_keywords t' = related_keywords t
  ∧ content_suggestions t' = content_suggestions t.
Proof.
  induction n as [|n IH]; simpl; [done|].
  destruct IH as (?&?&?&?&?&?&?&?). by repeat split.
Qed.

(** The scoring loop updates an object once per occurrence in the
    list. *)
Lemma score_all_lookup (h : heap) (trends : list loc) (r : loc) :
  score_all h trends !! r
  = Nat.iter (count_occ Pos.eq_dec trends r) score_trend <$> h !! r.
Proof.
  unfold score_all. revert h.
  induction trends as [|x l IH]; intros h; simpl.
  - by destruct (h !! r).
  - rewrite IH, lookup_alter.
    destruct (Pos.eq_dec x r) as [->|Hne].
    + rewrite decide_True by done. destruct (h !! r); simpl; [|done].
      f_equal. symmetry.
      exact (Nat.iter_succ_r (count_occ Pos.eq_dec l r) score_trend t).
    + by rewrite decide_False by done.
Qed.

Lemma score_all_dom (h : heap) (trends : list loc) :
  dom (score_all h trends) = dom h.
Proof.
  apply set_eq. intros r. rewrite !elem_of_dom, score_all_lookup.
  by rewrite fmap_is_Some.
Qed.

(** A score never exceeds [1.0]. *)
Lemma score_trend_le_1 (t : TrendTopic) : (confidence_score (score_trend t) <= 1.0)%Q.
Proof. simpl. apply PyFacts.min_le_r. Qed.

(** Evaluation on the two concrete finance topics: both are clamped to
    [1.0]. *)
Example score_google_finance :
  (base_score google_finance == 1.1011)%Q
  ∧ confidence_score (score_trend google_finance) = 1.0%Q.
Proof. split; [by vm_compute | reflexivity]. Qed.

Example score_youtube_finance :
  (base_score youtube_finance == 1.248)%Q
  ∧ confidence_score (score_trend youtube_finance) = 1.0%Q.
Proof. split; [by vm_compute | reflexivity]. Qed.

(** ** The trend analysis as a whole *)

(** The objects enter the store at distinct identities, in order. *)
Lemma alloc_spec (ts : list TrendTopic) :
  ∀ (next : loc) (h : heap),
    Forall2 (λ r t, (alloc next ts h).1 !! r = Some t) (alloc next ts h).2 ts
    ∧ NoDup (alloc next ts h).2
    ∧ Forall (λ r, (next ≤ r)%positive) (alloc next ts h).2
    ∧ ∀ r, (r < next)%positive → (alloc next ts h).1 !! r = h !! r.
Proof.
  induction ts as [|t ts IH]; intros next h; cbn [alloc].
  - repeat split; constructor.
  - specialize (IH (Pos.succ next) (<[next := t]> h)).
    destruct (alloc (Pos.succ next) ts (<[next := t]> h)) as [h' rs].
    cbn [fst snd] in *. destruct IH as (HF & HN & HG & Hfr).
    repeat split.
    + constructor; [|done].
      rewrite Hfr by lia. apply lookup_insert_eq.
    + constructor; [|done]. intros Hin.
      rewrite Forall_forall in HG. specialize (HG _ Hin). lia.
    + constructor; [lia|]. eapply Forall_impl; [done|]. simpl. lia.
    + intros r Hr. rewrite Hfr by lia. apply lookup_insert_ne. lia.
Qed.

(** [get_trending_topics] returns the scored topics of all sources,
    sorted and cut to [count]. *)
Lemma get_trending_topics_values (results : list (Result (list TrendTopic)))
    (count : Z) :
  get_trending_topics results count
  = Py.slice_to count
      (Py.sorted confidence_score true (map score_trend (all_trends results))).
Proof.
  unfold get_trending_topics.
  destruct (alloc_spec (all_trends results) 1%positive ∅) as (HF & HN & _ & _).
  destruct (alloc 1%positive (all_trends results) ∅) as [h rs].
  cbn [fst snd] in *. unfold _score_and_rank_trends.
  set (h' := score_all h rs).
  assert (HF' : Forall2 (λ r t, h' !! r = Some t) rs
                  (map score_trend (all_trends results))).
  { apply Forall2_fmap_r. apply Forall2_same_length_lookup.
    split; [by eapply Forall2_length|].
    intros i r t Hr Ht. unfold h'. rewrite score_all_lookup.
    rewrite (Forall2_lookup_lr _ _ _ _ _ _ HF Hr Ht). simpl. f_equal.
    assert (Hc : count_occ Pos.eq_dec rs r = 1%nat).
    { apply NoDup_count_occ'; [by apply NoDup_ListNoDup|].
      apply list_elem_of_In. by eapply list_elem_of_lookup_2. }
    by rewrite Hc. }
  assert (HS : Forall2 (λ r t, h' !! r = Some t)
                 (Py.slice_to count (Py.sorted (confidence_at h') true rs))
                 (Py.slice_to count
                    (Py.sorted confidence_score true
                       (map score_trend (all_trends results))))).
  { apply PyFacts.slice_to_related, PyFacts.sorted_related; [|done].
    intros r t Hrt. unfold confidence_at. by rewrite Hrt. }
  clear HF'. induction HS as [|r t l k Hrt _ IH]; [done|].
  cbn. rewrite Hrt. cbn. by rewrite IH.
Qed.

(** The list that [get_trending_topics] returns is in descending order
    of [confidence_score]. *)
Lemma get_trending_topics_sorted (results : list (Result (list TrendTopic)))
    (count : Z) :
  StronglySorted (λ a b, (confidence_score b <= confidence_score a)%Q)
    (get_trending_topics results count).
Proof.
  rewrite get_trending_topics_values.
  apply PyFacts.slice_to_sorted, PyFacts.sorted_reverse_desc.
Qed.

(** The two finance topics, discovered by Google Trends and by YouTube,
    come back in the order of discovery. *)
Example get_trending_topics_two_finance :
  get_trending_topics [Ok [google_finance]; Ok [youtube_finance]; Raise "timeout"] 5
  = [score_trend google_finance; score_trend youtube_finance].
Proof. by vm_compute. Qed.

(** ** The ranked list *)

(** C1 (as amended).  The list returned by [_score_and_rank_trends] is
    sorted by descending score, where the score of a candidate is its
    [confidence_score] after the scoring loop; it is a rearrangement of
    the input; and candidates of equal score stay in their order of
    discovery, whatever their sources.  The list returned by
    [get_trending_topics] is sorted by descending score as well. *)
Theorem rank_sorted_desc_stable (h : heap) (trends : list loc)
    (results : list (Result (list TrendTopic))) (count : Z) :
  StronglySorted
    (λ a b, (confidence_at (_score_and_rank_trends h trends).1 b
             <= confidence_at (_score_and_rank_trends h trends).1 a)%Q)
    (_score_and_rank_trends h trends).2
  ∧ Permutation (_score_and_rank_trends h trends).2 trends
  ∧ (∀ s : Q,
      filter (λ r, (confidence_at (_score_and_rank_trends h trends).1 r == s)%Q)
        (_score_and_rank_trends h trends).2
      = filter (λ r, (confidence_at (_score_and_rank_trends h trends).1 r == s)%Q)
          trends)
  ∧ StronglySorted (λ a b, (confidence_score b <= confidence_score a)%Q)
      (get_trending_topics results count).
Proof.
  unfold _score_and_rank_trends. cbn [fst snd]. split; [|split; [|split]].
  - apply PyFacts.sorted_reverse_desc.
  - apply PyFacts.sorted_perm.
  - intros s. by apply (PyFacts.sorted_stable _ _ s).
  - apply get_trending_topics_sorted.
Qed.

(** C1, counterexample.  A Google Trends topic and a YouTube topic, both
    in category finance, are discovered in this order and both score
    [1.0]; the ranked list keeps the Google Trends topic first although
    the video platform has the higher priority. *)
Lemma rank_no_source_tie_break :
  ranked_two_finance.2 = [1; 2]%positive
  ∧ (confidence_at ranked_two_finance.1 1 == confidence_at ranked_two_finance.1 2)%Q
  ∧ source_at ranked_two_finance.1 1 = "google_trends"
  ∧ source_at ranked_two_finance.1 2 = "youtube"
  ∧ ¬ ranked_with_source_tie_break ranked_two_finance.1 [1; 2]%positive
        ranked_two_finance.2.
Proof.
  repeat split; try by vm_compute.
  intros (_ & H & _).
  specialize (H 0%nat 1%nat 1%positive 2%positive).
  assert (Hc : ¬ (3 ≤ 2)%nat) by lia. apply Hc.
  apply H; [lia|by vm_compute..].
Qed.

(** ** The store after ranking *)

(** C5 (as amended).  Ranking writes the score into [confidence_score]
    of the candidates it is given, once per occurrence in the list, and
    leaves every other field of every object as it was; it neither
    creates nor deletes objects. *)
Theorem rank_overwrites_confidence_only (h : heap) (trends : list loc) (r : loc) :
  (_score_and_rank_trends h trends).1 !! r
  = Nat.iter (count_occ Pos.eq_dec trends r) score_trend <$> h !! r
  ∧ title <$> (_score_and_rank_trends h trends).1 !! r = title <$> h !! r
  ∧ category <$> (_score_and_rank_trends h trends).1 !! r = category <$> h !! r
  ∧ source <$> (_score_and_rank_trends h trends).1 !! r = source <$> h !! r
  ∧ search_volume <$> (_score_and_rank_trends h trends).1 !! r
    = search_volume <$> h !! r
  ∧ growth_rate <$> (_score_and_rank_trends h trends).1 !! r
    = growth_rate <$> h !! r
  ∧ region <$> (_score_and_rank_trends h trends).1 !! r = region <$> h !! r
  ∧ related_keywords <$> (_score_and_rank_trends h trends).1 !! r
    = related_keywords <$> h !! r
  ∧ content_suggestions <$> (_score_and_rank_trends h trends).1 !! r
    = content_suggestions <$> h !! r.
Proof.
  unfold _score_and_rank_trends. cbn [fst snd]. rewrite score_all_lookup.
  split; [done|].
  destruct (h !! r) as [t|]; simpl; [|done].
  destruct (score_trend_iter_fields (count_occ Pos.eq_dec trends r) t)
    as (-> & -> & -> & -> & -> & -> & -> & ->).
  done.
Qed.

(** C5, counterexample.  The Google Trends topic enters ranking with
    confidence [0.7] and leaves it with confidence [1.0]. *)
Lemma rank_mutates_confidence :
  confidence_score <$> two_finance !! 1%positive = Some 0.7%Q
  ∧ confidence_score <$> ranked_two_finance.1 !! 1%positive = Some 1.0%Q
  ∧ ¬ candidates_untouched two_finance ranked_two_finance.1.
Proof.
  repeat split; try by vm_compute.
  intros H. destruct (H 1%positive google_finance) as (t' & Ht' & _ & _ & _ & _ & Hc);
    [by vm_compute|].
  vm_compute in Ht'. injection Ht' as <-. by vm_compute in Hc.
Qed.

(** ** Candidates without a title *)

(** C7 (as amended).  Ranking is total and drops nothing: the returned
    list is a rearrangement of the given one, of the same length,
    whether or not its candidates have titles. *)
Theorem rank_keeps_every_candidate (h : heap) (trends : list loc) :
  Permutation (_score_and_rank_trends h trends).2 trends
  ∧ length (_score_and_rank_trends h trends).2 = length trends.
Proof.
  unfold _score_and_rank_trends. cbn [fst snd].
  pose proof (PyFacts.sorted_perm (confidence_at (score_all h trends)) true trends) as HP.
  split; [exact HP|]. by apply Permutation_length.
Qed.

(** C7, counterexample.  A list with one candidate whose title is
    missing is returned with that candidate in it. *)
Lemma rank_keeps_untitled :
  has_title one_untitled 1%positive = false
  ∧ (_score_and_rank_trends one_untitled [1%positive]).2 = [1%positive]
  ∧ ¬ malformed_dropped one_untitled [1%positive]
        (_score_and_rank_trends one_untitled [1%positive]).2.
Proof. repeat split; by vm_compute. Qed.

End TrendFacts.

(* ================================================================== *)
(** * Properties of the synthesis cascade *)
(* ================================================================== *)

Module SplitFacts.
Import Voice.

(** ** Strings *)

Lemma append_cons (c : ascii) (a b : string) :
  String c a +:+ b = String c (a +:+ b).
Proof. reflexivity. Qed.

Lemma append_nil_l (a : string) : EmptyString +:+ a = a.
Proof. reflexivity. Qed.

Lemma length_append (a b : string) :
  String.length (a +:+ b) = (String.length a + String.length b)%nat.
Proof.
  induction a as [|c a IH]; [done|].
  rewrite append_cons. simpl. by rewrite IH.
Qed.

Lemma append_assoc (a b c : string) : (a +:+ b) +:+ c = a +:+ (b +:+ c).
Proof.
  induction a as [|x a IH]; [done|].
  rewrite !append_cons. by rewrite IH.
Qed.

Lemma append_nil_r (a : string) : a +:+ EmptyString = a.
Proof.
  induction a as [|x a IH]; [done|].
  rewrite append_cons. by rewrite IH.
Qed.

Lemma lstrip_length (s : string) :
  (String.length (Py.lstrip s) ≤ String.length s)%nat.
Proof.
  induction s as [|c s IH]; simpl; [done|].
  destruct (Py.isspace c); simpl; lia.
Qed.

Lemma rstrip_length (s : string) :
  (String.length (Py.rstrip s) ≤ String.length s)%nat.
Proof.
  induction s as [|c s IH]; simpl; [done|].
  destruct (Py.rstrip s); [destruct (Py.isspace c)|]; simpl in *; lia.
Qed.

Lemma strip_length (s : string) :
  (String.length (Py.strip s) ≤ String.length s)%nat.
Proof.
  unfold Py.strip. etrans; [apply lstrip_length|apply rstrip_length].
Qed.

(** A trailing blank is stripped. *)
Lemma rstrip_blank (s : string) : Py.rstrip (s +:+ " ") = Py.rstrip s.
Proof.
  induction s as [|c s IH]; [done|].
  rewrite append_cons. simpl. by rewrite IH.
Qed.

Lemma strip_blank_length (s : string) :
  (String.length (Py.strip (s +:+ " ")) ≤ String.length s)%nat.
Proof.
  unfold Py.strip. rewrite rstrip_blank. apply strip_length.
Qed.

(** ** [split] and [join] *)

Lemma split_dot_space_cons (c : ascii) (s : string) :
  (c = "."%char ∧ ∃ rest, s = String " "%char rest
     ∧ Py.split_dot_space (String c s) = EmptyString :: Py.split_dot_space rest)
  ∨ (∃ p ps, Py.split_dot_space s = p :: ps
       ∧ Py.split_dot_space (String c s) = String c p :: ps)
  ∨ (Py.split_dot_space s = []).
Proof.
  destruct (decide (c = "."%char)) as [->|Hc].
  - destruct s as [|c' rest].
    + right. left. by exists EmptyString, [].
    + destruct (decide (c' = " "%char)) as [->|Hc'].
      * left. split; [done|]. by exists rest.
      * right. destruct (Py.split_dot_space (String c' rest)) as [|p ps] eqn:E.
        { by right. }
        left. exists p, ps. split; [done|].
        change (Py.split_dot_space (String "." (String c' rest)))
          with (match c' with
                | " "%char => EmptyString :: Py.split_dot_space rest
                | _ => match Py.split_dot_space (String c' rest) with
                       | p :: ps => String "." p :: ps
                       | [] => [String "." EmptyString]
                       end
                end).
        rewrite E.
        destruct c' as [[] [] [] [] [] [] [] []]; try done.
  - right. destruct (Py.split_dot_space s) as [|p ps] eqn:E.
    { by right. }
    left. exists p, ps. split; [done|].
    destruct c as [[] [] [] [] [] [] [] []]; try done; simpl; by rewrite E.
Qed.

Lemma join_cons (sep x : string) (l : list string) :
  l ≠ [] → Py.join sep (x :: l) = x +:+ sep +:+ Py.join sep l.
Proof. by destruct l. Qed.

Lemma split_dot_space_join_aux (s : string) :
  (Py.split_dot_space s ≠ [] ∧ Py.join ". " (Py.split_dot_space s) = s)
  ∧ ∀ c, Py.split_dot_space (String c s) ≠ []
         ∧ Py.join ". " (Py.split_dot_space (String c s)) = String c s.
Proof.
  assert (Hstep : ∀ c s,
    (Py.split_dot_space s ≠ [] ∧ Py.join ". " (Py.split_dot_space s) = s) →
    (∀ c' rest, s = String c' rest →
       Py.split_dot_space rest ≠ []
       ∧ Py.join ". " (Py.split_dot_space rest) = rest) →
    Py.split_dot_space (String c s) ≠ []
    ∧ Py.join ". " (Py.split_dot_space (String c s)) = String c s).
  { intros c t [Hne Hj] Hrest.
    destruct (split_dot_space_cons c t) as [(-> & rest & -> & ->)|[(p & ps & E & ->)|E]].
    - destruct (Hrest _ _ eq_refl) as [Hne' Hj']. split; [done|].
      by rewrite join_cons, Hj' by done.
    - split; [done|]. rewrite E in Hj.
      destruct ps as [|q qs]; [by rewrite <- Hj|].
      rewrite join_cons in Hj |- * by done.
      by rewrite append_cons, Hj.
    - done. }
  induction s as [|c' s IH].
  - split; [by split|]. intros c. apply Hstep; [by split|]. intros ?? [=].
  - destruct IH as [IH1 IH2]. split; [apply IH2|].
    intros c. apply Hstep; [apply IH2|]. intros ?? [= <- <-]. exact IH1.
Qed.

(** Joining the sentences with the separator gives the text back. *)
Lemma split_dot_space_join (s : string) :
  Py.join ". " (Py.split_dot_space s) = s.
Proof. apply split_dot_space_join_aux. Qed.

Lemma split_dot_space_nonempty (s : string) : Py.split_dot_space s ≠ [].
Proof. apply split_dot_space_join_aux. Qed.

(** The sentences, each followed by the separator, make up the text
    followed by one separator. *)
Lemma sentences_text_join (g : list string) :
  g ≠ [] → sentences_text g = Py.join ". " g +:+ ". ".
Proof.
  induction g as [|s g IH]; [done|]. intros _.
  destruct g as [|s' g]; [reflexivity|].
  rewrite join_cons by done. cbn [sentences_text] in *.
  rewrite IH by done. by rewrite !append_assoc.
Qed.

Lemma sentences_text_split (text : string) :
  sentences_text (Py.split_dot_space text) = text +:+ ". ".
Proof.
  rewrite sentences_text_join by apply split_dot_space_nonempty.
  by rewrite split_dot_space_join.
Qed.

Lemma sentences_text_app (g1 g2 : list string) :
  sentences_text (g1 ++ g2) = sentences_text g1 +:+ sentences_text g2.
Proof.
  induction g1 as [|s g1 IH]; [done|]. cbn [sentences_text app].
  by rewrite IH, !append_assoc.
Qed.

Lemma sentences_text_empty (g : list string) :
  Py.nonempty (sentences_text g) = false → g = [].
Proof. destruct g as [|s g]; [done|]. simpl. by destruct s. Qed.

(** Evaluation on small inputs. *)
Example split_dot_space_small :
  Py.split_dot_space "a.. b" = ["a."; "b"]
  ∧ Py.split_dot_space "A. B. " = ["A"; "B"; EmptyString]
  ∧ Py.split_dot_space EmptyString = [EmptyString]
  ∧ Py.strip "  a b. " = "a b."
  ∧ _split_text_for_tts "A. B" 3 = ["A."; "B."]
  ∧ _split_text_for_tts "A. B" 4 = ["A. B"].
Proof. repeat split; by vm_compute. Qed.

(** ** The splitting loop *)

(** The loop groups consecutive sentences: the flushed chunks are the
    stripped texts of non-empty groups and [current_chunk] is the text
    of the group being filled. *)
Lemma split_loop_groups (max_chars : Z) (sentences : list string) :
  ∀ (groups : list (list string)) (g : list string),
    Forall (λ g, g ≠ []) groups →
    ∃ (groups' : list (list string)) (g' : list string),
      foldl (split_step max_chars)
        (map (λ g, Py.strip (sentences_text g)) groups, sentences_text g)
        sentences
      = (map (λ g, Py.strip (sentences_text g)) groups', sentences_text g')
      ∧ concat groups' ++ g' = concat groups ++ g ++ sentences
      ∧ Forall (λ g, g ≠ []) groups'.
Proof.
  induction sentences as [|s l IH]; intros groups g Hne.
  - exists groups, g. by rewrite app_nil_r.
  - cbn [foldl split_step].
    destruct (Z.of_nat (String.length (sentences_text g +:+ s +:+ ". ")) <=? max_chars).
    + destruct (IH groups (g ++ [s]) Hne) as (groups' & g' & E & Hc & Hne').
      exists groups', g'. split; [|split; [|done]].
      * rewrite <- E, sentences_text_app. cbn [sentences_text].
        by rewrite append_nil_r.
      * rewrite Hc. by rewrite <- !app_assoc.
    + destruct (Py.nonempty (sentences_text g)) eqn:Eg.
      * assert (Hg : g ≠ []) by (intros ->; done).
        destruct (IH (groups ++ [g]) [s]) as (groups' & g' & E & Hc & Hne').
        { apply Forall_app. split; [done|]. by constructor. }
        exists groups', g'. split; [|split; [|done]].
        -- rewrite <- E, map_app. cbn [sentences_text map].
           by rewrite append_nil_r.
        -- rewrite Hc, concat_app. simpl. by rewrite app_nil_r, <- !app_assoc.
      * apply sentences_text_empty in Eg as ->.
        destruct (IH groups [s] Hne) as (groups' & g' & E & Hc & Hne').
        exists groups', g'. split; [|split; [|done]].
        -- rewrite <- E. cbn [sentences_text]. by rewrite append_nil_r.
        -- by rewrite Hc.
Qed.

(** Above the limit, the chunks are the stripped texts of groups of
    consecutive sentences that together are all the sentences. *)
Lemma split_groups (text : string) (max_chars : Z) :
  max_chars < Z.of_nat (String.length text) →
  ∃ groups : list (list string),
    concat groups = Py.split_dot_space text
    ∧ Forall (λ g, g ≠ []) groups
    ∧ _split_text_for_tts text max_chars
      = map (λ g, Py.strip (sentences_text g)) groups.
Proof.
  intros Hlong. unfold _split_text_for_tts.
  rewrite (proj2 (Z.leb_gt _ _) Hlong).
  destruct (split_loop_groups max_chars (Py.split_dot_space text) [] [])
    as (groups & g & E & Hc & Hne); [done|].
  cbn [map sentences_text] in E. rewrite E. simpl in Hc.
  destruct (Py.nonempty (sentences_text g)) eqn:Eg.
  - exists (groups ++ [g]). split; [|split].
    + by rewrite concat_app, <- Hc; simpl; rewrite app_nil_r.
    + apply Forall_app. split; [done|]. constructor; [|done]. by intros ->.
    + by rewrite map_app.
  - apply sentences_text_empty in Eg as ->. rewrite app_nil_r in Hc.
    by exists groups.
Qed.

(** When every sentence is shorter than the limit the loop keeps every
    chunk within the limit. *)
Lemma split_loop_bound (max_chars : Z) (sentences : list string) :
  Forall (λ s, Z.of_nat (String.length s) < max_chars) sentences →
  ∀ (chunks : list string) (current_chunk : string),
    Forall (λ c, Z.of_nat (String.length c) ≤ max_chars) chunks →
    Z.of_nat (String.length (Py.strip current_chunk)) ≤ max_chars →
    Forall (λ c, Z.of_nat (String.length c) ≤ max_chars)
      (foldl (split_step max_chars) (chunks, current_chunk) sentences).1
    ∧ Z.of_nat (String.length (Py.strip
        (foldl (split_step max_chars) (chunks, current_chunk) sentences).2))
      ≤ max_chars.
Proof.
  induction 1 as [|s l Hs Hl IH]; intros chunks cur Hch Hcur; [done|].
  cbn [foldl split_step].
  destruct (Z.of_nat (String.length (cur +:+ s +:+ ". ")) <=? max_chars) eqn:E.
  - apply IH; [done|]. apply Z.leb_le in E.
    pose proof (strip_length (cur +:+ s +:+ ". ")). lia.
  - assert (Hnew : Z.of_nat (String.length (Py.strip (s +:+ ". "))) ≤ max_chars).
    { change (s +:+ ". ") with (s +:+ ("." +:+ " ")).
      rewrite <- append_assoc.
      pose proof (strip_blank_length (s +:+ ".")) as Hb.
      rewrite length_append in Hb. simpl in Hb. lia. }
    destruct (Py.nonempty cur); apply IH; try done.
    apply Forall_app. split; [done|]. by constructor.
Qed.

Lemma split_bound (text : string) (max_chars : Z) :
  max_chars < Z.of_nat (String.length text) →
  Forall (λ s, Z.of_nat (String.length s) < max_chars) (Py.split_dot_space text) →
  Forall (λ c, Z.of_nat (String.length c) ≤ max_chars)
    (_split_text_for_tts text max_chars).
Proof.
  intros Hlong Hshort. unfold _split_text_for_tts.
  rewrite (proj2 (Z.leb_gt _ _) Hlong).
  assert (0 ≤ max_chars) as Hpos.
  { pose proof (split_dot_space_nonempty text) as Hne.
    destruct Hshort as [|s l Hs _]; [done|]. lia. }
  destruct (split_loop_bound max_chars _ Hshort [] EmptyString) as [H1 H2];
    [done|simpl; lia|].
  destruct (foldl _ _ _) as [chunks cur]. simpl in *.
  destruct (Py.nonempty cur); [|done].
  apply Forall_app. split; [done|]. by constructor.
Qed.

(** C8 (as amended).  A text within the limit is returned alone and
    unmodified.  A longer text is cut at every occurrence of the
    separator (a full stop and a blank) into sentences; the chunks are,
    in order, the texts of groups of consecutive sentences that together
    are all the sentences of the text, every sentence followed by the
    separator and every chunk stripped of surrounding blanks; and when
    every sentence is shorter than the limit, every chunk is within the
    limit. *)
Theorem split_text_for_tts_chunks (text : string) (max_chars : Z) :
  (Z.of_nat (String.length text) ≤ max_chars →
     _split_text_for_tts text max_chars = [text])
  ∧ (max_chars < Z.of_nat (String.length text) →
     (∃ groups : list (list string),
        concat groups = Py.split_dot_space text
        ∧ Forall (λ g, g ≠ []) groups
        ∧ _split_text_for_tts text max_chars
          = map (λ g, Py.strip (sentences_text g)) groups)
     ∧ (Forall (λ s, Z.of_nat (String.length s) < max_chars)
          (Py.split_dot_space text) →
        Forall (λ c, Z.of_nat (String.length c) ≤ max_chars)
          (_split_text_for_tts text max_chars))).
Proof.
  split.
  - intros Hshort. unfold _split_text_for_tts.
    by rewrite (proj2 (Z.leb_le _ _) Hshort).
  - intros Hlong. split; [by apply split_groups|by apply split_bound].
Qed.

(** The antecedents of C8 are met by the short text and by the two long
    sentences. *)
Lemma split_text_for_tts_chunks_witness :
  _split_text_for_tts short_text 2500 = [short_text]
  ∧ Forall (λ c, Z.of_nat (String.length c) ≤ 2500)
      (_split_text_for_tts two_sentences 2500).
Proof.
  split.
  - apply (proj1 (split_text_for_tts_chunks short_text 2500)).
    by vm_compute.
  - apply (proj2 (split_text_for_tts_chunks two_sentences 2500)).
    + by vm_compute.
    + vm_compute Py.split_dot_space. repeat constructor; by vm_compute.
Defined.

(** C8, counterexample.  Two sentences of 1300 characters exceed the
    limit together; they are returned as two chunks, each with the full
    stop that the loop appends and without the blank that separated them,
    so the chunks do not concatenate to the text. *)
Lemma split_does_not_reconstitute :
  _split_text_for_tts two_sentences 2500
  = [Py.repeat "a" 1300 +:+ "."; Py.repeat "b" 1300 +:+ "."]
  ∧ ¬ split_as_documented two_sentences 2500.
Proof.
  split; [by vm_compute|].
  intros [H _]. destruct H as [_ H]; [by vm_compute|].
  vm_compute in H. discriminate H.
Qed.

(** A sentence longer than the limit is returned as one chunk longer
    than the limit. *)
Example split_long_sentence :
  _split_text_for_tts long_sentence 2500 = [Py.repeat "a" 2600 +:+ "."]
  ∧ String.length (Py.repeat "a" 2600 +:+ ".") = 2601%nat.
Proof. split; by vm_compute. Qed.

End SplitFacts.

Module CascadeFacts.
Import Voice MonadFacts.

Section Cascade.
Context {W : Type} (ops : Ops W).

Local Abbreviation M := (M (state W)).

Lemma returns_logger (lvl : level) (msg : string) : returns (logger lvl msg : M unit).
Proof. intros s. by eexists _, _. Qed.

Lemma returns_attr {A} (f : VoiceoverGenerator → A) : returns (attr f : M A).
Proof. intros s. by eexists _, _. Qed.

Lemma returns_silent (language : string) :
  returns (_create_silent_audio ops language).
Proof.
  apply returns_try_except. intros e.
  apply returns_bind; [apply returns_logger|]. intros _. apply returns_ret.
Qed.

Lemma returns_fallback (text language : string) :
  returns (_create_fallback_audio ops text language).
Proof.
  apply returns_try_except. intros e.
  apply returns_bind; [apply returns_logger|]. intros _. apply returns_silent.
Qed.

(** A failed chunk is reported by [None], never by an exception. *)
Lemma returns_chunk (text : string) (voice_config : positive) (language : string)
    (i : nat) :
  returns (_generate_audio_chunk ops text voice_config language i).
Proof.
  apply returns_try_except. intros e.
  apply returns_bind; [apply returns_logger|]. intros _. apply returns_ret.
Qed.

Lemma returns_chunk_loop (voice_config : positive) (language : string)
    (chunks : list string) :
  ∀ i audio_files,
    returns (chunk_loop ops voice_config language i chunks audio_files).
Proof.
  induction chunks as [|c l IH]; intros i files; simpl.
  - apply returns_ret.
  - apply returns_bind; [apply returns_chunk|]. intros a. apply IH.
Qed.

Lemma returns_merge (audio_files : list string) (language : string) :
  returns (_merge_audio_files ops audio_files language).
Proof.
  apply returns_try_except. intros e.
  apply returns_bind; [apply returns_logger|]. intros _. apply returns_ret.
Qed.

Lemma returns_assemble (audio_files : list string) (language : string) :
  returns (assemble ops audio_files language).
Proof.
  unfold assemble. destruct (1 <? length audio_files)%nat.
  - apply returns_merge.
  - apply returns_ret.
Qed.

Lemma returns_conclude (final_audio : option string) (text language : string) :
  returns (conclude ops final_audio text language).
Proof.
  destruct final_audio as [f|]; simpl.
  - apply returns_bind; [apply returns_logger|]. intros _. apply returns_ret.
  - apply returns_bind; [apply returns_logger|]. intros _. apply returns_fallback.
Qed.

Lemma returns_create_voiceover (text language voice_style : string)
    (custom_voice_id : option string) :
  returns (create_voiceover ops text language voice_style custom_voice_id).
Proof.
  unfold create_voiceover.
  apply returns_bind; [apply returns_logger|]. intros _.
  apply returns_bind; [apply returns_attr|]. intros key.
  destruct (negb (Py.truthy key)).
  - apply returns_bind; [apply returns_logger|]. intros _. apply returns_fallback.
  - apply returns_try_except. intros e.
    apply returns_bind; [apply returns_logger|]. intros _. apply returns_fallback.
Qed.

(** Merging a non-empty list of files gives a file: the merged one, or
    the first of the list when merging fails. *)
Lemma merge_some (f : string) (l : list string) (language : string) (s : state W) :
  ∃ f' s', _merge_audio_files ops (f :: l) language s = (Ok (Some f'), s').
Proof.
  unfold _merge_audio_files, try_except.
  match goal with |- context [(let (_, _) := ?m s in _)] =>
    assert (Hy : yields m is_Some); [|destruct (m s) as [[r|e] s1] eqn:E]
  end.
  - do 6 (apply yields_bind; intros ?).
    destruct (_ =? 0).
    + do 3 (apply yields_bind; intros ?). by apply yields_ret.
    + apply yields_bind; intros ?. by apply yields_ret.
  - destruct (Hy _ _ _ E) as [f' ->]. by eexists _, _.
  - by eexists _, _.
Qed.

(** ** Computations that leave the configuration alone *)

Lemma keeps_ret {A} (a : A) : keeps_config (mret a : M A).
Proof. by intros s. Qed.

Lemma keeps_raise {A} (e : string) : keeps_config (raise e : M A).
Proof. by intros s. Qed.

Lemma keeps_bind {A B} (m : M A) (f : A → M B) :
  keeps_config m → (∀ a, keeps_config (f a)) → keeps_config (m ≫= f).
Proof.
  intros Hm Hf s. unfold mbind, M_bind. specialize (Hm s).
  destruct (m s) as [[a|e] s']; simpl in *; [|done].
  destruct (Hf a s') as [-> ->]. done.
Qed.

Lemma keeps_try_except {A} (m : M A) (handler : string → M A) :
  keeps_config m → (∀ e, keeps_config (handler e)) →
  keeps_config (try_except m handler).
Proof.
  intros Hm Hh s. unfold try_except. specialize (Hm s).
  destruct (m s) as [[a|e] s']; simpl in *; [done|].
  destruct (Hh e s') as [-> ->]. done.
Qed.

Lemma keeps_logger (lvl : level) (msg : string) :
  keeps_config (logger lvl msg : M unit).
Proof. by intros s. Qed.

Lemma keeps_call {A} (f : W → Result A * W) : keeps_config (call f).
Proof. intros s. unfold call. by destruct (f (world s)). Qed.

Lemma keeps_ask {A} (f : W → A) : keeps_config (ask f).
Proof. by intros s. Qed.

Lemma keeps_attr {A} (f : VoiceoverGenerator → A) : keeps_config (attr f : M A).
Proof. by intros s. Qed.

Lemma keeps_for_each {A} (l : list A) (body : A → M unit) :
  (∀ a, keeps_config (body a)) → keeps_config (for_each l body).
Proof.
  intros Hb. induction l as [|a l IH]; simpl.
  - apply keeps_ret.
  - apply keeps_bind; [apply Hb|]. by intros _.
Qed.

Lemma keeps_getitem (voice_config : positive) (key : string) :
  keeps_config (getitem (W:=W) voice_config key).
Proof. intros s. unfold getitem. by destruct (_ ≫= _). Qed.

Lemma keeps_getdefault (voice_config : positive) (key : string) (d : value) :
  keeps_config (getdefault (W:=W) voice_config key d).
Proof. by intros s. Qed.

End Cascade.

(** One step of a proof that a computation leaves the configuration
    alone. *)
Ltac keeps_step :=
  first
    [ apply keeps_ret | apply keeps_raise | apply keeps_logger
    | apply keeps_call | apply keeps_ask | apply keeps_attr
    | apply keeps_getitem | apply keeps_getdefault
    | apply keeps_bind; [|intros ?]
    | apply keeps_try_except; [|intros ?]
    | apply keeps_for_each; intros ?
    | match goal with
      | |- keeps_config (if ?b then _ else _) => destruct b
      | |- keeps_config (match ?x with _ => _ end) => destruct x
      end ].

Section Frame.
Context {W : Type} (ops : Ops W).

Lemma keeps_silent (language : string) :
  keeps_config (_create_silent_audio ops language).
Proof. unfold _create_silent_audio, in_output_dir. repeat keeps_step. Qed.

Lemma keeps_fallback (text language : string) :
  keeps_config (_create_fallback_audio ops text language).
Proof.
  unfold _create_fallback_audio, gtts_attempt, in_output_dir.
  repeat first [apply keeps_silent | keeps_step].
Qed.

Lemma keeps_chunk (text : string) (voice_config : positive) (language : string)
    (i : nat) :
  keeps_config (_generate_audio_chunk ops text voice_config language i).
Proof. unfold _generate_audio_chunk, in_output_dir. repeat keeps_step. Qed.

Lemma keeps_chunk_loop (voice_config : positive) (language : string)
    (chunks : list string) :
  ∀ i audio_files,
    keeps_config (chunk_loop ops voice_config language i chunks audio_files).
Proof.
  induction chunks as [|c l IH]; intros i files; simpl.
  - apply keeps_ret.
  - apply keeps_bind; [apply keeps_chunk|]. intros a. apply IH.
Qed.

Lemma keeps_merge (audio_files : list string) (language : string) :
  keeps_config (_merge_audio_files ops audio_files language).
Proof.
  unfold _merge_audio_files, in_output_dir. repeat keeps_step.
Qed.

Lemma keeps_assemble (audio_files : list string) (language : string) :
  keeps_config (assemble ops audio_files language).
Proof.
  unfold assemble. destruct (1 <? length audio_files)%nat.
  - apply keeps_merge.
  - apply keeps_ret.
Qed.

Lemma keeps_conclude (final_audio : option string) (text language : string) :
  keeps_config (conclude ops final_audio text language).
Proof.
  unfold conclude. repeat first [apply keeps_fallback | keeps_step].
Qed.

Lemma keeps_handler (text language e : string) :
  keeps_config (logger ERROR ("Seslendirme hatası: " +:+ e);;
                _create_fallback_audio ops text language).
Proof. apply keeps_bind; [apply keeps_logger|]. intros _. apply keeps_fallback. Qed.

Lemma keeps_rest (text language : string) (voice_config : positive) :
  keeps_config
    (audio_files ← chunk_loop ops voice_config language 0
                     (_split_text_for_tts text 2500) [];
     final_audio ← assemble ops audio_files language;
     conclude ops final_audio text language).
Proof.
  apply keeps_bind; [apply keeps_chunk_loop|]. intros files.
  apply keeps_bind; [apply keeps_assemble|]. intros final.
  apply keeps_conclude.
Qed.

(** ** The primary tier *)

(** The loop collects the files of the chunks that produced one, in the
    order of the chunks, and goes on after a chunk that produced
    none. *)
Lemma chunk_loop_outcomes (voice_config : positive) (language : string)
    (chunks : list string) :
  ∀ i acc s,
    chunk_loop ops voice_config language i chunks acc s
    = (Ok (acc ++ omap id (chunk_outcomes ops voice_config language i chunks s).1),
       (chunk_outcomes ops voice_config language i chunks s).2).
Proof.
  induction chunks as [|c l IH]; intros i acc s; cbn [chunk_loop chunk_outcomes].
  - cbn. by rewrite app_nil_r.
  - destruct (returns_chunk ops c voice_config language i s) as (r & s1 & E).
    rewrite (bind_ok _ _ _ _ _ E), E, IH.
    destruct (chunk_outcomes ops voice_config language (S i) l s1) as [outs s2].
    cbn [fst snd]. destruct r as [f|]; cbn [omap list_omap id].
    + by rewrite <- app_assoc.
    + done.
Qed.

(** Every chunk has its outcome. *)
Lemma chunk_outcomes_length (voice_config : positive) (language : string)
    (chunks : list string) :
  ∀ i s,
    length (chunk_outcomes ops voice_config language i chunks s).1
    = length chunks.
Proof.
  induction chunks as [|c l IH]; intros i s; cbn [chunk_outcomes]; [done|].
  destruct (_generate_audio_chunk ops c voice_config language i s) as [r s1].
  specialize (IH (S i) s1).
  destruct (chunk_outcomes ops voice_config language (S i) l s1) as [outs s2].
  cbn in *. by rewrite IH.
Qed.

(** With an API key, and once the configuration is chosen, the call
    ends as [conclude] does on what [assemble] made of the files of the
    chunk loop. *)
Lemma create_voiceover_primary (text language voice_style : string)
    (custom_voice_id : option string) (s : state W) voice_config s1
    audio_files s2 final_audio s3 :
  Py.truthy (api_key (self s)) = true →
  configure language voice_style custom_voice_id (announce text language s).2
    = (Ok voice_config, s1) →
  chunk_loop ops voice_config language 0 (_split_text_for_tts text 2500) [] s1
    = (Ok audio_files, s2) →
  assemble ops audio_files language s2 = (Ok final_audio, s3) →
  create_voiceover ops text language voice_style custom_voice_id s
  = conclude ops final_audio text language s3.
Proof.
  intros Hkey Hconf Hloop Hasm.
  destruct (returns_conclude ops final_audio text language s3) as (p & s4 & Hend).
  unfold create_voiceover.
  rewrite (bind_ok _ _ s (announce text language s).2 tt) by reflexivity.
  rewrite (bind_ok _ _ _ (announce text language s).2 (api_key (self s)))
    by reflexivity.
  rewrite Hkey. cbn [negb].
  unfold try_except, mbind, M_bind.
  by rewrite Hconf, Hloop, Hasm, Hend.
Qed.

(** Without API key the call is the fallback, after two messages. *)
Lemma create_voiceover_no_key (text language voice_style : string)
    (custom_voice_id : option string) (s : state W) :
  Py.truthy (api_key (self s)) = false →
  create_voiceover ops text language voice_style custom_voice_id s
  = _create_fallback_audio ops text language
      (logger ERROR "ElevenLabs API key bulunamadı"
         (announce text language s).2).2.
Proof.
  intros Hkey. unfold create_voiceover.
  rewrite (bind_ok _ _ s (announce text language s).2 tt) by reflexivity.
  rewrite (bind_ok _ _ _ (announce text language s).2 (api_key (self s)))
    by reflexivity.
  rewrite Hkey. cbn [negb].
  by rewrite (bind_ok _ _ _
                (logger ERROR "ElevenLabs API key bulunamadı"
                   (announce text language s).2).2 tt) by reflexivity.
Qed.

(** An exception in the choice of the configuration hands the call over
    to the fallback. *)
Lemma create_voiceover_handler (text language voice_style : string)
    (custom_voice_id : option string) (s : state W) e s0 :
  Py.truthy (api_key (self s)) = true →
  configure language voice_style custom_voice_id (announce text language s).2
    = (Raise e, s0) →
  create_voiceover ops text language voice_style custom_voice_id s
  = _create_fallback_audio ops text language
      (logger ERROR ("Seslendirme hatası: " +:+ e) s0).2.
Proof.
  intros Hkey Hconf. unfold create_voiceover.
  rewrite (bind_ok _ _ s (announce text language s).2 tt) by reflexivity.
  rewrite (bind_ok _ _ _ (announce text language s).2 (api_key (self s)))
    by reflexivity.
  rewrite Hkey. cbn [negb].
  erewrite try_except_raise; [|by apply bind_raise].
  by rewrite (bind_ok _ _ _ (logger ERROR ("Seslendirme hatası: " +:+ e) s0).2 tt)
    by reflexivity.
Qed.

(** C3 (as amended).  With an API key, and once the configuration is
    chosen, every chunk is attempted, whatever became of the chunks
    before it, and the loop comes back with the files of the chunks that
    produced one, in the order of the chunks.  The primary tier fails,
    and the secondary provider is given the full text, only when no
    chunk produced a file.  One file is the artifact as it is; several
    are merged, and the artifact is the file that the merge gives. *)
Theorem primary_tier_outcome (text language voice_style : string)
    (custom_voice_id : option string) (s : state W) (voice_config : positive)
    (s1 : state W) :
  Py.truthy (api_key (self s)) = true →
  configure language voice_style custom_voice_id (announce text language s).2
    = (Ok voice_config, s1) →
  ∃ outcomes s2,
    chunk_outcomes ops voice_config language 0 (_split_text_for_tts text 2500) s1
      = (outcomes, s2)
    ∧ length outcomes = length (_split_text_for_tts text 2500)
    ∧ chunk_loop ops voice_config language 0 (_split_text_for_tts text 2500) [] s1
      = (Ok (omap id outcomes), s2)
    ∧ match omap id outcomes with
      | [] =>
          create_voiceover ops text language voice_style custom_voice_id s
          = (logger ERROR "Ses oluşturulamadı";;
             _create_fallback_audio ops text language) s2
      | [f] =>
          create_voiceover ops text language voice_style custom_voice_id s
          = (Ok f, (logger INFO ("Seslendirme oluşturuldu: " +:+ f) s2).2)
      | audio_files =>
          ∃ f s3,
            _merge_audio_files ops audio_files language s2 = (Ok (Some f), s3)
            ∧ create_voiceover ops text language voice_style custom_voice_id s
              = (Ok f, (logger INFO ("Seslendirme oluşturuldu: " +:+ f) s3).2)
      end.
Proof.
  intros Hkey Hconf.
  pose proof (chunk_loop_outcomes voice_config language
                (_split_text_for_tts text 2500) 0%nat [] s1) as Hloop.
  pose proof (chunk_outcomes_length voice_config language
                (_split_text_for_tts text 2500) 0%nat s1) as Hlen.
  destruct (chunk_outcomes ops voice_config language 0
              (_split_text_for_tts text 2500) s1) as [outcomes s2].
  cbn [fst snd app] in Hloop, Hlen.
  exists outcomes, s2. split; [done|]. split; [done|]. split; [done|].
  destruct (omap id outcomes) as [|f [|f' l]] eqn:Ef.
  - by rewrite (create_voiceover_primary _ _ _ _ _ _ _ _ _ None s2
                  Hkey Hconf Hloop eq_refl).
  - by rewrite (create_voiceover_primary _ _ _ _ _ _ _ _ _ (Some f) s2
                  Hkey Hconf Hloop eq_refl).
  - destruct (merge_some ops f (f' :: l) language s2) as (m & s3 & Hm).
    exists m, s3. split; [done|].
    by rewrite (create_voiceover_primary _ _ _ _ _ _ _ _ _ (Some m) s3
                  Hkey Hconf Hloop Hm).
Qed.

(** ** The call as a whole *)

Lemma silent_closed_form (language : string) (s : state W) :
  _create_silent_audio ops language s
  = match subprocess_run ops (silent_cmd (silent_path ops language s)) (world s) with
    | (Ok _, w) =>
        (Ok (silent_path ops language s),
         mkState (self s) (objects s)
           (log s ++ [(WARNING, "Sessiz ses dosyası oluşturuldu: "
                                +:+ "voice_silent_" +:+ language +:+ "_"
                                +:+ now ops (world s) +:+ ".mp3")])
           w)
    | (Raise e, w) =>
        (Ok EmptyString,
         mkState (self s) (objects s)
           (log s ++ [(ERROR, "Sessiz ses oluşturma hatası: " +:+ e)]) w)
    end.
Proof.
  cbv beta iota zeta delta
    [_create_silent_audio try_except mbind M_bind mret M_ret ask
     in_output_dir attr call logger silent_path].
  by destruct (subprocess_run ops _ (world s)) as [[r|e] w].
Qed.

(** The fallback is the secondary provider and, when that provider
    raises, the silent file. *)
Lemma fallback_closed_form (text language : string) (s : state W) :
  _create_fallback_audio ops text language s
  = match gtts_attempt ops text language s with
    | (Ok path, s1) => (Ok path, s1)
    | (Raise e, s1) =>
        _create_silent_audio ops language
          (logger ERROR ("Fallback TTS hatası: " +:+ e) s1).2
    end.
Proof.
  unfold _create_fallback_audio, try_except.
  destruct (gtts_attempt ops text language s) as [[path|e] s1]; [done|].
  by rewrite (bind_ok _ _ s1 (logger ERROR ("Fallback TTS hatası: " +:+ e) s1).2 tt)
    by reflexivity.
Qed.

(** How a call ends: with the file of the primary tier, or in the
    fallback. *)
Lemma create_voiceover_ends (text language voice_style : string)
    (custom_voice_id : option string) (s : state W) :
  (∃ voice_config s0 audio_files s2 s3 f,
     Py.truthy (api_key (self s)) = true
     ∧ configure language voice_style custom_voice_id
         (announce text language s).2 = (Ok voice_config, s0)
     ∧ chunk_loop ops voice_config language 0
         (_split_text_for_tts text 2500) [] s0 = (Ok audio_files, s2)
     ∧ assemble ops audio_files language s2 = (Ok (Some f), s3)
     ∧ create_voiceover ops text language voice_style custom_voice_id s
       = (Ok f, (logger INFO ("Seslendirme oluşturuldu: " +:+ f) s3).2))
  ∨ (∃ s1,
       fallback_entry ops text language voice_style custom_voice_id s s1
       ∧ create_voiceover ops text language voice_style custom_voice_id s
         = _create_fallback_audio ops text language s1).
Proof.
  destruct (Py.truthy (api_key (self s))) eqn:Hkey.
  2: { right. eexists. split; [by left|]. by apply create_voiceover_no_key. }
  destruct (configure language voice_style custom_voice_id
              (announce text language s).2) as [[voice_config|e] s0] eqn:Hconf.
  2: { right. eexists. split.
       - right. left. split; [done|]. by eexists _, _.
       - by apply create_voiceover_handler. }
  destruct (returns_chunk_loop ops voice_config language
              (_split_text_for_tts text 2500) 0%nat [] s0)
    as (audio_files & s2 & Hloop).
  destruct (returns_assemble ops audio_files language s2)
    as (final_audio & s3 & Hasm).
  pose proof (create_voiceover_primary _ _ _ _ _ _ _ _ _ _ _
                Hkey Hconf Hloop Hasm) as Hcv.
  destruct final_audio as [f|].
  - left. by eexists _, _, _, _, _, _.
  - right. exists (logger ERROR "Ses oluşturulamadı" s3).2. split.
    + right. right. split; [done|]. by eexists _, _, _, _, _.
    + rewrite Hcv. unfold conclude.
      by rewrite (bind_ok _ _ s3 (logger ERROR "Ses oluşturulamadı" s3).2 tt)
        by reflexivity.
Qed.

(** C4 (as amended).  [create_voiceover] never raises: it returns a
    string, and nothing else.  The string is the file of the primary
    tier or, when the call hands over to the fallback, what the fallback
    returns there: the path written by the secondary provider when that
    provider succeeds; when it raises, the path of a file that ffmpeg
    was asked to fill with thirty seconds of silence or, when running
    ffmpeg raised, the empty string. *)
Theorem create_voiceover_always_returns (text language voice_style : string)
    (custom_voice_id : option string) (s : state W) :
  ∃ path s',
    create_voiceover ops text language voice_style custom_voice_id s
    = (Ok path, s')
    ∧ ((∃ voice_config s0 audio_files s2 s3,
          Py.truthy (api_key (self s)) = true
          ∧ configure language voice_style custom_voice_id
              (announce text language s).2 = (Ok voice_config, s0)
          ∧ chunk_loop ops voice_config language 0
              (_split_text_for_tts text 2500) [] s0 = (Ok audio_files, s2)
          ∧ assemble ops audio_files language s2 = (Ok (Some path), s3)
          ∧ s' = (logger INFO ("Seslendirme oluşturuldu: " +:+ path) s3).2)
       ∨ (∃ s1,
            fallback_entry ops text language voice_style custom_voice_id s s1
            ∧ match gtts_attempt ops text language s1 with
              | (Ok gtts_path, s2) => path = gtts_path ∧ s' = s2
              | (Raise e, s2) =>
                  let s3 := (logger ERROR ("Fallback TTS hatası: " +:+ e) s2).2 in
                  match subprocess_run ops
                          (silent_cmd (silent_path ops language s3)) (world s3)
                  with
                  | (Ok _, w) =>
                      path = silent_path ops language s3
                      ∧ s' = mkState (self s3) (objects s3)
                               (log s3
                                ++ [(WARNING, "Sessiz ses dosyası oluşturuldu: "
                                              +:+ "voice_silent_" +:+ language
                                              +:+ "_" +:+ now ops (world s3)
                                              +:+ ".mp3")])
                               w
                  | (Raise e', w) =>
                      path = EmptyString
                      ∧ s' = mkState (self s3) (objects s3)
                               (log s3
                                ++ [(ERROR, "Sessiz ses oluşturma hatası: "
                                            +:+ e')])
                               w
                  end
              end)).
Proof.
  destruct (create_voiceover_ends text language voice_style custom_voice_id s)
    as [(voice_config & s0 & audio_files & s2 & s3 & f & Hkey & Hc & Hl & Ha & E)
       |(s1 & Hentry & E)].
  - exists f, (logger INFO ("Seslendirme oluşturuldu: " +:+ f) s3).2.
    split; [done|]. left. by eexists _, _, _, _, _.
  - rewrite E, fallback_closed_form.
    destruct (gtts_attempt ops text language s1) as [[gtts_path|e] s2] eqn:Eg.
    + exists gtts_path, s2. split; [done|]. right. exists s1.
      split; [done|]. by rewrite Eg.
    + rewrite silent_closed_form.
      set (s3 := (logger ERROR ("Fallback TTS hatası: " +:+ e) s2).2).
      destruct (subprocess_run ops (silent_cmd (silent_path ops language s3))
                  (world s3)) as [[r|e'] w] eqn:Es.
      * eexists _, _. split; [done|]. right. exists s1. split; [done|].
        rewrite Eg. cbv zeta. fold s3. by rewrite Es.
      * eexists _, _. split; [done|]. right. exists s1. split; [done|].
        rewrite Eg. cbv zeta. fold s3. by rewrite Es.
Qed.

End Frame.

(** ** Concrete runs *)

(** C3, witness.  The key is set and the configuration of English is
    found, for the two long sentences of which the voice service accepts
    the first only: the first chunk has its file, the second has none,
    and the call returns the file of the first. *)
Lemma primary_tier_outcome_witness :
  ∃ outcomes s2,
    chunk_outcomes (recording_ops starts_with_a true true) 1%positive "en" 0
      (_split_text_for_tts two_sentences 2500)
      (configure "en" "professional" None (announce two_sentences "en" fresh).2).2
      = (outcomes, s2)
    ∧ length outcomes = length (_split_text_for_tts two_sentences 2500)
    ∧ chunk_loop (recording_ops starts_with_a true true) 1%positive "en" 0
        (_split_text_for_tts two_sentences 2500) []
        (configure "en" "professional" None
           (announce two_sentences "en" fresh).2).2
      = (Ok (omap id outcomes), s2)
    ∧ match omap id outcomes with
      | [] =>
          create_voiceover (recording_ops starts_with_a true true)
            two_sentences "en" "professional" None fresh
          = (logger ERROR "Ses oluşturulamadı";;
             _create_fallback_audio (recording_ops starts_with_a true true)
               two_sentences "en") s2
      | [f] =>
          create_voiceover (recording_ops starts_with_a true true)
            two_sentences "en" "professional" None fresh
          = (Ok f, (logger INFO ("Seslendirme oluşturuldu: " +:+ f) s2).2)
      | audio_files =>
          ∃ f s3,
            _merge_audio_files (recording_ops starts_with_a true true)
              audio_files "en" s2 = (Ok (Some f), s3)
            ∧ create_voiceover (recording_ops starts_with_a true true)
                two_sentences "en" "professional" None fresh
              = (Ok f, (logger INFO ("Seslendirme oluşturuldu: " +:+ f) s3).2)
      end.
Proof.
  apply (primary_tier_outcome (recording_ops starts_with_a true true)
           two_sentences "en" "professional" None fresh 1%positive).
  - reflexivity.
  - reflexivity.
Defined.

(** The outcomes of the two chunks in that run. *)
Example second_chunk_refused :
  (chunk_outcomes (recording_ops starts_with_a true true) 1%positive "en" 0
     (_split_text_for_tts two_sentences 2500)
     (configure "en" "professional" None (announce two_sentences "en" fresh).2).2).1
  = [Some "output/audio/voice_en_20240101_120000_chunk0.mp3"; None].
Proof. by vm_compute. Qed.

(** When the voice service refuses the first chunk and accepts the
    second, the call returns the file of the second. *)
Example first_chunk_refused :
  (create_voiceover (recording_ops (λ t, negb (starts_with_a t)) true true)
     two_sentences "en" "professional" None fresh).1
  = Ok "output/audio/voice_en_20240101_120000_chunk1.mp3"
  ∧ world (create_voiceover (recording_ops (λ t, negb (starts_with_a t)) true true)
             two_sentences "en" "professional" None fresh).2
    = ["post"; "post"; "write"].
Proof. split; by vm_compute. Qed.

(** C3, counterexample.  Of the two chunks the voice service accepts the
    first and refuses the second; the call returns the file of the first
    chunk and the secondary provider is never called. *)
Lemma partial_tier_accepted :
  (create_voiceover (recording_ops starts_with_a true true)
     two_sentences "en" "professional" None fresh).1
  = Ok "output/audio/voice_en_20240101_120000_chunk0.mp3"
  ∧ world (create_voiceover (recording_ops starts_with_a true true)
             two_sentences "en" "professional" None fresh).2
    = ["post"; "write"; "post"]
  ∧ ¬ partial_tier_rejected (recording_ops starts_with_a true true)
        two_sentences "en" "professional" None fresh.
Proof.
  split; [by vm_compute|]. split; [by vm_compute|].
  intros H.
  destruct (returns_chunk_loop (recording_ops starts_with_a true true)
              1%positive "en"
              (_split_text_for_tts two_sentences 2500) 0%nat []
              (configure "en" "professional" None
                 (announce two_sentences "en" fresh).2).2)
    as (files & s2 & Hloop).
  specialize (H 1%positive _ files s2 eq_refl Hloop).
  vm_compute in Hloop. injection Hloop as <- <-.
  assert (Hlt : (1 < 2)%nat) by lia.
  specialize (H Hlt). vm_compute in H. discriminate H.
Qed.

(** With a voice service that refuses every text and without gTTS, the
    call returns the silent file, after all three tiers were tried. *)
Example both_providers_fail :
  (create_voiceover (recording_ops (λ _, false) false true)
     short_text "en" "professional" None fresh).1
  = Ok "output/audio/voice_silent_en_20240101_120000.mp3"
  ∧ world (create_voiceover (recording_ops (λ _, false) false true)
             short_text "en" "professional" None fresh).2
    = ["post"; "gtts"; "ffmpeg"].
Proof. split; by vm_compute. Qed.

(** C4, counterexample.  The voice service refuses the text, gTTS is
    not installed and neither is ffmpeg: all three tiers are tried and
    the call returns the empty string. *)
Lemma create_voiceover_empty_path :
  (create_voiceover (recording_ops (λ _, false) false false)
     short_text "en" "professional" None fresh).1
  = Ok EmptyString
  ∧ world (create_voiceover (recording_ops (λ _, false) false false)
             short_text "en" "professional" None fresh).2
    = ["post"; "gtts"; "ffmpeg"]
  ∧ ¬ usable_artifact (recording_ops (λ _, false) false false)
        short_text "en" "professional" None fresh.
Proof.
  split; [by vm_compute|]. split; [by vm_compute|].
  intros (path & s' & E & Hne). vm_compute in E.
  injection E as <- _. discriminate Hne.
Qed.

(** Without API key the primary provider is not tried. *)
Example no_key_uses_secondary :
  (create_voiceover (recording_ops (λ _, true) true true)
     short_text "en" "professional" None fresh_no_key).1
  = Ok "output/audio/voice_fallback_en_20240101_120000.mp3"
  ∧ world (create_voiceover (recording_ops (λ _, true) true true)
             short_text "en" "professional" None fresh_no_key).2
    = ["gtts"; "save"].
Proof. split; by vm_compute. Qed.

(** ** The configuration *)

(** A custom voice given for a language without configuration stays in
    the configuration of English. *)
Example custom_voice_stays :
  observed_configs
    (create_voiceover (recording_ops (λ _, true) true true)
       short_text "fr" "none" (Some "custom") fresh).2
    !! "en" ≫= (.!! "voice_id")
  = Some (VStr "custom").
Proof. by vm_compute. Qed.

(** C6, at the failing input.  On a fresh instance a call for English
    in the energetic style finds the stability of the English voice at
    0.5 and leaves it at the value of the preset, 0.4, where the next
    call finds it: the configuration is not what it was. *)
Lemma create_voiceover_rewrites_config :
  observed_configs fresh !! "en" ≫= (.!! "stability") = Some (VNum 0.5)
  ∧ observed_configs
      (create_voiceover (recording_ops starts_with_a true true)
         short_text "en" "energetic" None fresh).2
      !! "en" ≫= (.!! "stability")
    = Some (VNum 0.4)
  ∧ ¬ configuration_read_only (recording_ops starts_with_a true true)
        short_text "en" "energetic" None fresh.
Proof.
  split; [by vm_compute|]. split; [by vm_compute|].
  unfold configuration_read_only. intros [_ H].
  apply (f_equal (λ c, c !! "en" ≫= (.!! "stability"))) in H.
  vm_compute in H. discriminate H.
Qed.

End CascadeFacts.

(* ================================================================== *)
(** * Properties of the orchestration *)
(* ================================================================== *)

Module OrchestratorFacts.
Import Main MonadFacts.

(** ** Insertion-ordered dictionaries *)

Lemma dict_get_set_eq {V} (k : string) (v : V) (d : list (string * V)) :
  dict_get k (dict_set k v d) = Some v.
Proof.
  induction d as [|[k' v'] d IH]; simpl.
  - by rewrite decide_True.
  - destruct (decide (k' = k)) as [->|Hne]; simpl.
    + by rewrite decide_True.
    + by rewrite decide_False.
Qed.

Lemma dict_get_set_ne {V} (k k' : string) (v : V) (d : list (string * V)) :
  k' ≠ k → dict_get k' (dict_set k v d) = dict_get k' d.
Proof.
  intros Hne. induction d as [|[k0 v0] d IH]; simpl.
  - by rewrite decide_False.
  - destruct (decide (k0 = k)) as [->|Hne0]; simpl.
    + by rewrite !decide_False.
    + by rewrite IH.
Qed.

Section Orchestrator.
Context {W U : Type} (ops : Ops W U).

Local Abbreviation M := (M (state W U)).

(** ** One language after the other *)

(** Whatever the stages do, the step for a language returns, with the
    entry of that language set to the outcome of its own stages. *)
Lemma language_step_entry (topic category : string) (include_affiliates : bool)
    (trend_data : option Main.topic) (results : result U) (lang : string)
    (s : state W U) :
  language_step ops topic category include_affiliates trend_data results lang s
  = (Ok (dict_set lang
           (entry_of (stages ops topic lang category include_affiliates
                        trend_data s).1)
           results),
     (language_step ops topic category include_affiliates trend_data results
        lang s).2).
Proof.
  unfold language_step.
  destruct (stages ops topic lang category include_affiliates trend_data s)
    as [[e|msg] s1] eqn:E.
  - by rewrite (try_except_ok _ _ s _ (dict_set lang e results))
      by (by rewrite (bind_ok _ _ _ _ _ E)).
  - by rewrite (try_except_raise _ _ s s1 msg) by (by apply bind_raise).
Qed.

(** A failure of the stages is logged with its message. *)
Lemma language_step_failure (topic category : string) (include_affiliates : bool)
    (trend_data : option Main.topic) (results : result U) (lang : string)
    (s s1 : state W U) (e : string) :
  stages ops topic lang category include_affiliates trend_data s = (Raise e, s1) →
  language_step ops topic category include_affiliates trend_data results lang s
  = (Ok (dict_set lang (Error e) results),
     mkState
       (trace s1 ++ [Log ERROR ("Hata (" +:+ lang +:+ "): " +:+ topic
                                +:+ " - " +:+ e)])
       (tasks s1) (world s1)).
Proof.
  intros E. unfold language_step.
  by rewrite (try_except_raise _ _ s s1 e) by (by apply bind_raise).
Qed.

(** The loop goes on to the next language whatever happened to the
    current one. *)
Lemma language_loop_cons (topic category : string) (include_affiliates : bool)
    (trend_data : option Main.topic) (lang : string) (rest : list string)
    (results : result U) (s : state W U) :
  language_loop ops topic category include_affiliates trend_data
    (lang :: rest) results s
  = language_loop ops topic category include_affiliates trend_data rest
      (dict_set lang
         (entry_of (stages ops topic lang category include_affiliates
                      trend_data s).1)
         results)
      (language_step ops topic category include_affiliates trend_data results
         lang s).2.
Proof.
  cbn [language_loop].
  by rewrite (bind_ok _ _ _ _ _ (language_step_entry _ _ _ _ _ _ _)).
Qed.

Lemma language_loop_keys (topic category : string) (include_affiliates : bool)
    (trend_data : option Main.topic) (languages : list string) :
  ∀ (results : result U) (s : state W U),
    ∃ results' s',
      language_loop ops topic category include_affiliates trend_data
        languages results s = (Ok results', s')
      ∧ ∀ l, is_Some (dict_get l results')
             ↔ l ∈ languages ∨ is_Some (dict_get l results).
Proof.
  induction languages as [|lang rest IH]; intros results s.
  - exists results, s. split; [done|]. intros l. split; [by right|].
    by intros [?%elem_of_nil|?].
  - rewrite language_loop_cons.
    destruct (IH (dict_set lang
                    (entry_of (stages ops topic lang category
                                 include_affiliates trend_data s).1) results)
                 (language_step ops topic category include_affiliates
                    trend_data results lang s).2)
      as (results' & s' & E & Hk).
    exists results', s'. split; [done|]. intros l. rewrite Hk.
    destruct (decide (l = lang)) as [->|Hne].
    + rewrite dict_get_set_eq. split; [intros _; left; by left|by right].
    + rewrite dict_get_set_ne by done. rewrite elem_of_cons.
      split; [intros [?|?]; [left; by right|by right]|].
      intros [[?|?]|?]; [done|by left|by right].
Qed.

(** The state that a step leaves does not depend on the entries
    collected so far. *)
Lemma language_step_state (topic category : string) (include_affiliates : bool)
    (trend_data : option Main.topic) (results results' : result U)
    (lang : string) (s : state W U) :
  (language_step ops topic category include_affiliates trend_data results
     lang s).2
  = (language_step ops topic category include_affiliates trend_data results'
       lang s).2.
Proof.
  unfold language_step.
  destruct (stages ops topic lang category include_affiliates trend_data s)
    as [[e|msg] s1] eqn:E.
  - rewrite (try_except_ok _ _ s _ (dict_set lang e results))
      by (by rewrite (bind_ok _ _ _ _ _ E)).
    by rewrite (try_except_ok _ _ s _ (dict_set lang e results'))
      by (by rewrite (bind_ok _ _ _ _ _ E)).
  - rewrite (try_except_raise _ _ s s1 msg) by (by apply bind_raise).
    by rewrite (try_except_raise _ _ s s1 msg) by (by apply bind_raise).
Qed.

(** The languages that come first leave the loop in the state in which
    the turn of the next language starts. *)
Lemma language_loop_app (topic category : string) (include_affiliates : bool)
    (trend_data : option Main.topic) (before after : list string) :
  ∀ (results : result U) (s : state W U),
    ∃ results_mid,
      language_loop ops topic category include_affiliates trend_data
        (before ++ after) results s
      = language_loop ops topic category include_affiliates trend_data after
          results_mid
          (turn_state ops topic category include_affiliates trend_data before s).
Proof.
  induction before as [|lang before IH]; intros results s.
  - by exists results.
  - cbn [app]. rewrite language_loop_cons.
    destruct (IH (dict_set lang
                    (entry_of (stages ops topic lang category
                                 include_affiliates trend_data s).1) results)
                 (language_step ops topic category include_affiliates
                    trend_data results lang s).2) as (mid & E).
    exists mid. rewrite E. cbn [turn_state foldl].
    by rewrite (language_step_state _ _ _ _ results []).
Qed.

(** The loop leaves alone the entries of the languages it is not given. *)
Lemma language_loop_frame (topic category : string) (include_affiliates : bool)
    (trend_data : option Main.topic) (languages : list string) (l : string) :
  l ∉ languages →
  ∀ (results results' : result U) (s s' : state W U),
    language_loop ops topic category include_affiliates trend_data languages
      results s = (Ok results', s') →
    dict_get l results' = dict_get l results.
Proof.
  induction languages as [|lang rest IH]; intros Hl results results' s s'.
  - by intros [= <- _].
  - rewrite language_loop_cons. intros E.
    apply not_elem_of_cons in Hl as [Hne Hl].
    rewrite (IH Hl _ _ _ _ E). by apply dict_get_set_ne.
Qed.

(** C9.  [create_video_content] never raises; its result has an entry
    for exactly the requested languages, and the entry of a language is
    the outcome of its own stages, run in the state in which its (last)
    turn started: the artifacts, or the message of the failure.  The
    loop over the languages goes on to the next language whatever
    happened to the current one.  A failure is logged, and setting the
    entry of one language leaves the entries of the other languages as
    they are. *)
Theorem language_failure_isolated (topic category : string)
    (include_affiliates : bool) (trend_data : option Main.topic)
    (languages : list string) (s : state W U) :
  (∃ results s',
     create_video_content ops topic category (Some languages)
       include_affiliates trend_data s = (Ok results, s')
     ∧ (∀ l, l ∈ languages ↔ is_Some (dict_get l results))
     ∧ (∀ before l after,
          languages = before ++ l :: after → l ∉ after →
          dict_get l results
          = Some (entry_of
                    (stages ops topic l category include_affiliates trend_data
                       (turn_state ops topic category include_affiliates
                          trend_data before
                          (logger (U:=U) INFO
                             ("Video içeriği oluşturuluyor: " +:+ topic) s).2)).1)))
  ∧ (∀ lang rest results s0,
       language_loop ops topic category include_affiliates trend_data
         (lang :: rest) results s0
       = language_loop ops topic category include_affiliates trend_data rest
           (dict_set lang
              (entry_of (stages ops topic lang category include_affiliates
                           trend_data s0).1)
              results)
           (language_step ops topic category include_affiliates trend_data
              results lang s0).2)
  ∧ (∀ lang results s0 s1 e,
       stages ops topic lang category include_affiliates trend_data s0
         = (Raise e, s1) →
       language_step ops topic category include_affiliates trend_data
         results lang s0
       = (Ok (dict_set lang (Error e) results),
          mkState
            (trace s1 ++ [Log ERROR ("Hata (" +:+ lang +:+ "): " +:+ topic
                                     +:+ " - " +:+ e)])
            (tasks s1) (world s1)))
  ∧ (∀ lang sibling (e : entry U) results,
       sibling ≠ lang →
       dict_get sibling (dict_set lang e results) = dict_get sibling results).
Proof.
  split; [|split; [|split]].
  - unfold create_video_content. cbn [default].
    pose (s0 := (logger (U:=U) INFO ("Video içeriği oluşturuluyor: " +:+ topic) s).2).
    destruct (language_loop_keys topic category include_affiliates trend_data
                languages [] s0) as (results & s' & E & Hk).
    exists results, s'. split; [|split].
    + by rewrite (bind_ok _ _ s s0 tt) by reflexivity.
    + intros l. rewrite Hk. cbn. split; [by left|].
      intros [?|[? [=]]]; done.
    + intros before l after -> Hl.
      destruct (language_loop_app topic category include_affiliates trend_data
                  before (l :: after) [] s0) as (mid & Em).
      rewrite Em, language_loop_cons in E.
      rewrite (language_loop_frame _ _ _ _ _ _ Hl _ _ _ _ E).
      apply dict_get_set_eq.
  - intros. apply language_loop_cons.
  - intros. by apply language_step_failure.
  - intros. by apply dict_get_set_ne.
Qed.

(** ** The batches of a cycle *)

(** Called without languages, [create_video_content] gives a result
    with the one entry of English. *)
Lemma default_language_single (topic category : string)
    (include_affiliates : bool) (trend_data : option Main.topic) :
  yields (create_video_content ops topic category None include_affiliates
            trend_data)
    (λ r, (length (eligible r) ≤ 1)%nat).
Proof.
  intros s r s'. unfold create_video_content. cbn [default].
  rewrite (bind_ok _ _ s _ tt) by reflexivity.
  rewrite language_loop_cons. cbn [language_loop].
  intros [= <- _]. cbn. destruct (entry_of _); cbn; lia.
Qed.

Lemma topic_loop_single (trending_topics : list Main.topic) :
  ∀ results,
    Forall (λ r, (length (eligible r) ≤ 1)%nat) results →
    yields (topic_loop ops trending_topics results)
      (Forall (λ r, (length (eligible r) ≤ 1)%nat)).
Proof.
  induction trending_topics as [|t rest IH]; intros results Hres; cbn [topic_loop].
  - by apply yields_ret.
  - intros s r s'. unfold mbind at 1. unfold M_bind at 1.
    match goal with |- context [try_except ?m ?h s] =>
      assert (Hy : yields (try_except m h)
                     (Forall (λ r, (length (eligible r) ≤ 1)%nat)));
      [|destruct (try_except m h s) as [[results'|e] s1] eqn:E; [|done]]
    end.
    + apply yields_try_except.
      * apply yields_bind. intros title. apply yields_bind. intros cat.
        intros s0 a s0'. unfold mbind at 1. unfold M_bind at 1.
        destruct (create_video_content ops title cat None true (Some t) s0)
          as [[x|e] s2] eqn:Ex; [|done].
        intros [= <- _]. apply Forall_app. split; [done|].
        constructor; [|done]. by apply (default_language_single _ _ _ _ _ _ _ Ex).
      * intros e. apply yields_bind. intros title.
        apply yields_bind. intros _. by apply yields_ret.
    + apply IH. by apply (Hy _ _ _ E).
Qed.

(** The batch that a cycle hands to [create_task] is the list that the
    cycle returns, and none of its results holds more than one upload. *)
Lemma cycle_batch (s : state W U) (results : list (result U)) (s' : state W U) :
  run_automation_cycle ops s = (Ok results, s') →
  last (tasks s') = Some results
  ∧ Forall (λ r, (length (eligible r) ≤ 1)%nat) results.
Proof.
  revert s results s'.
  change (ensures (run_automation_cycle ops)
            (λ results s', last (tasks s') = Some results
               ∧ Forall (λ r, (length (eligible r) ≤ 1)%nat) results)).
  unfold run_automation_cycle.
  apply (ensures_bind _ _ (λ _, True)); [apply yields_true|]. intros _ _.
  apply ensures_try_except.
  - apply (ensures_bind _ _ (λ _, True)); [apply yields_true|]. intros count _.
    apply (ensures_bind _ _ (λ _, True)); [apply yields_true|]. intros n _.
    apply (ensures_bind _ _ (Forall (λ r, (length (eligible r) ≤ 1)%nat))).
    { unfold generate_trending_content.
      apply yields_bind. intros _. apply yields_bind. intros topics.
      by apply topic_loop_single. }
    intros results Hres s a s'. cbn.
    intros [= <- <-]. cbn. split; [|done]. apply last_snoc.
  - intros e. apply (ensures_bind _ _ (λ _, True)); [apply yields_true|].
    intros _ _ s a s'. done.
Qed.

(** ** Deferred collection of feedback *)

Lemma collects_app (a b : list (event U)) :
  collects (a ++ b) = collects a ++ collects b.
Proof. apply omap_app. Qed.

(** The events of a collection record one call of the collector for
    every upload, in order. *)
Lemma collects_upload_events (uploads : list (U * script_data)) :
  ∀ w, collects (upload_events ops uploads w).1 = uploads.
Proof.
  induction uploads as [|[u script] rest IH]; intros w; cbn [upload_events];
    [done|].
  destruct (collect_video_metrics ops u script w) as [r w1].
  specialize (IH w1). destruct (upload_events ops rest w1) as [events w2].
  cbn [fst] in *. destruct r as [a|e].
  - change (collects (Collect u script :: events))
      with ((u, script) :: collects events). by rewrite IH.
  - change (collects (Collect u script :: Log ERROR _ :: events))
      with ((u, script) :: collects events). by rewrite IH.
Qed.

(** A result without upload is passed over. *)
Lemma collect_result_none (r : result U) (s : state W U) :
  eligible r = [] → collect_result ops r s = (Ok tt, s).
Proof.
  unfold collect_result. induction r as [|[lang data] r IH]; [done|].
  destruct data as [script a v u c|msg]; [done|].
  intros Hr. cbn [for_each]. rewrite (bind_ok _ _ s s tt) by reflexivity.
  by apply IH.
Qed.

(** In a result with one upload the collector is called for it, and
    what the collector raises leaves the result. *)
Lemma collect_result_single (r : result U) (u : U) (script : script_data)
    (s : state W U) :
  eligible r = [(u, script)] →
  collect_result ops r s
  = (let '(outcome, w) := collect_video_metrics ops u script (world s) in
     (outcome, mkState (trace s ++ [Collect u script]) (tasks s) w)).
Proof.
  induction r as [|[lang data] r IH]; [done|].
  destruct data as [script' a v u' c|msg].
  - intros [= -> -> Hr]. unfold collect_result. cbn [for_each].
    pose (s1 := mkState (trace s ++ [Collect u script]) (tasks s) (world s)).
    destruct (collect_video_metrics ops u script (world s)) as [[[]|e] w] eqn:E.
    + pose (s2 := mkState (trace s1) (tasks s1) w).
      assert (Hb : (emit (Collect u script);;
                    call (collect_video_metrics ops u script)) s = (Ok tt, s2)).
      { rewrite (bind_ok _ _ s s1 tt) by reflexivity.
        unfold call. cbn. by rewrite E. }
      rewrite (bind_ok _ _ _ _ _ Hb).
      by apply (collect_result_none r s2).
    + apply bind_raise. rewrite (bind_ok _ _ s s1 tt) by reflexivity.
      unfold call. cbn. by rewrite E.
  - intros Hr. unfold collect_result. cbn [for_each].
    rewrite (bind_ok _ _ s s tt) by reflexivity. by apply IH.
Qed.

(** Over a batch whose results hold one upload at most, the loop calls
    the collector for every upload of the batch, whatever happened to
    the uploads before it. *)
Lemma feedback_loop (results : list (result U)) :
  Forall (λ r, (length (eligible r) ≤ 1)%nat) results →
  ∀ s : state W U,
    for_each results
      (λ r, try_except (collect_result ops r)
              (λ e, logger ERROR ("Feedback toplama hatası: " +:+ e))) s
    = (Ok tt,
       mkState
         (trace s
          ++ (upload_events ops (concat (map eligible results)) (world s)).1)
         (tasks s)
         (upload_events ops (concat (map eligible results)) (world s)).2).
Proof.
  induction 1 as [|r results Hr _ IH]; intros s.
  - cbn. rewrite app_nil_r. by destruct s.
  - cbn [for_each map concat].
    destruct (eligible r) as [|[u script] [|y l]] eqn:El; [| |simpl in Hr; lia].
    + rewrite (bind_ok _ _ s s tt); [by rewrite IH|].
      apply try_except_ok. by apply collect_result_none.
    + cbn [app upload_events].
      pose proof (collect_result_single r u script s El) as Hc.
      destruct (collect_video_metrics ops u script (world s)) as [[[]|e] w].
      * rewrite (bind_ok _ _ s _ tt (try_except_ok _ _ _ _ _ Hc)), IH.
        cbn [trace tasks world].
        destruct (upload_events ops (concat (map eligible results)) w)
          as [events w2].
        cbn [fst snd]. by rewrite <- app_assoc.
      * rewrite (bind_ok _ _ s
                   (mkState
                      ((trace s ++ [Collect u script])
                       ++ [Log ERROR ("Feedback toplama hatası: " +:+ e)])
                      (tasks s) w) tt)
          by (by rewrite (try_except_raise _ _ _ _ _ Hc)).
        rewrite IH. cbn [trace tasks world].
        destruct (upload_events ops (concat (map eligible results)) w)
          as [events w2].
        cbn [fst snd]. by rewrite <- !app_assoc.
Qed.

(** C10.  The batch that a cycle hands to the deferred task is the
    list of results that the cycle returns.  For such a batch the task
    never raises.  It logs its start and sleeps for two hours before
    anything else; then the metrics collector is called once for every
    eligible upload of the batch, in order, and when it raises for an
    upload the error is logged and the uploads that follow are
    collected all the same. *)
Theorem feedback_collection (s0 s1 s : state W U) (results : list (result U)) :
  run_automation_cycle ops s0 = (Ok results, s1) →
  last (tasks s1) = Some results
  ∧ ∃ s',
      collect_feedback_for_videos ops results s = (Ok tt, s')
      ∧ trace s'
        = trace s
          ++ [Log INFO "Feedback toplama başlatılıyor"; Sleep 7200]
          ++ (upload_events ops (concat (map eligible results))
                (elapse ops 7200 (world s))).1
      ∧ tasks s' = tasks s
      ∧ world s'
        = (upload_events ops (concat (map eligible results))
             (elapse ops 7200 (world s))).2
      ∧ collects (trace s')
        = collects (trace s) ++ concat (map eligible results).
Proof.
  intros Hcycle. destruct (cycle_batch _ _ _ Hcycle) as [Hlast Hone].
  split; [done|].
  unfold collect_feedback_for_videos, sleep.
  pose (s2 := mkState (trace s ++ [Log INFO "Feedback toplama başlatılıyor"])
                (tasks s) (world s)).
  pose (s3 := mkState (trace s2 ++ [Sleep 7200]) (tasks s2) (world s2)).
  pose (s4 := mkState (trace s3) (tasks s3) (elapse ops 7200 (world s3))).
  eexists. split.
  { rewrite (bind_ok _ _ s s2 tt) by reflexivity.
    rewrite (bind_ok _ _ s2 s4 tt)
      by (by rewrite (bind_ok _ _ s2 s3 tt) by reflexivity).
    apply (feedback_loop results Hone s4). }
  cbn [trace tasks world s4 s3 s2].
  split; [|split; [|split]].
  - by rewrite <- !app_assoc.
  - reflexivity.
  - reflexivity.
  - rewrite !collects_app, collects_upload_events. cbn. by rewrite !app_nil_r.
Qed.

(** ** The automatic mode *)

(** What a cycle does when the number of videos cannot be read. *)
Lemma cycle_count_raises (s : state W U) (e : string) :
  daily_video_count ops (world s) = Raise e →
  run_automation_cycle ops s
  = (Raise e,
     mkState
       (trace s ++ [Log INFO "Otomasyon döngüsü başlatılıyor";
                    Log ERROR ("Otomasyon döngüsü hatası: " +:+ e)])
       (tasks s) (world s)).
Proof.
  intros Hc. unfold run_automation_cycle.
  rewrite (bind_ok _ _ s (logger INFO "Otomasyon döngüsü başlatılıyor" s).2 tt)
    by reflexivity.
  erewrite try_except_raise.
  2: { rewrite (bind_ok _ _ _ _ (daily_video_count ops (world s)))
         by reflexivity.
       apply bind_raise. unfold eval. by rewrite Hc. }
  unfold mbind, M_bind, logger, emit, raise. cbn. by rewrite <- app_assoc.
Qed.

(** What a cycle does when the production of the content raises: the
    exception is logged and raised again. *)
Lemma cycle_content_raises (s s1 : state W U) (count : Z) (e : string) :
  daily_video_count ops (world s) = Ok count →
  generate_trending_content ops count
    (logger INFO "Otomasyon döngüsü başlatılıyor" s).2 = (Raise e, s1) →
  run_automation_cycle ops s
  = (Raise e,
     mkState (trace s1 ++ [Log ERROR ("Otomasyon döngüsü hatası: " +:+ e)])
       (tasks s1) (world s1)).
Proof.
  intros Hc Hg. unfold run_automation_cycle.
  rewrite (bind_ok _ _ s (logger INFO "Otomasyon döngüsü başlatılıyor" s).2 tt)
    by reflexivity.
  erewrite try_except_raise.
  2: { rewrite (bind_ok _ _ _ _ (daily_video_count ops (world s)))
         by reflexivity.
       rewrite (bind_ok _ _ _ _ count) by (unfold eval; by rewrite Hc).
       apply bind_raise. exact Hg. }
  reflexivity.
Qed.

(** What a cycle does when the content is produced: the batch is handed
    to the deferred task and returned. *)
Lemma cycle_returns (s s1 : state W U) (count : Z) (results : list (result U)) :
  daily_video_count ops (world s) = Ok count →
  generate_trending_content ops count
    (logger INFO "Otomasyon döngüsü başlatılıyor" s).2 = (Ok results, s1) →
  run_automation_cycle ops s
  = (Ok results,
     mkState
       (trace s1 ++ [Log INFO ("Otomasyon döngüsü tamamlandı: "
                               +:+ pretty (length results) +:+ " video işlendi")])
       (tasks s1 ++ [results]) (world s1)).
Proof.
  intros Hc Hg. unfold run_automation_cycle.
  rewrite (bind_ok _ _ s (logger INFO "Otomasyon döngüsü başlatılıyor" s).2 tt)
    by reflexivity.
  erewrite try_except_ok; [reflexivity|].
  rewrite (bind_ok _ _ _ _ (daily_video_count ops (world s))) by reflexivity.
  rewrite (bind_ok _ _ _ _ count) by (unfold eval; by rewrite Hc).
  rewrite (bind_ok _ _ _ _ _ Hg). reflexivity.
Qed.

(** An exception of the trend analysis leaves the production of the
    content. *)
Lemma trend_analysis_raises (s : state W U) (count : Z) (e : string) (w : W) :
  get_trending_topics ops count (world s) = (Raise e, w) →
  generate_trending_content ops count s
  = (Raise e,
     mkState
       (trace s ++ [Log INFO ("Trend analizi başlatılıyor - " +:+ pretty count
                              +:+ " video için")])
       (tasks s) w).
Proof.
  intros Ht. unfold generate_trending_content.
  rewrite (bind_ok _ _ s
             (logger INFO ("Trend analizi başlatılıyor - " +:+ pretty count
                               +:+ " video için") s).2 tt) by reflexivity.
  apply bind_raise. unfold call. cbn. by rewrite Ht.
Qed.

(** The loop ends with the first cycle that raises. *)
Lemma auto_loop_raise (n : nat) (s s1 : state W U) (e : string) :
  run_automation_cycle ops s = (Raise e, s1) →
  auto_loop ops (S n) s = (Raise e, s1).
Proof. intros E. cbn [auto_loop]. by apply bind_raise. Qed.

Lemma returns_collect_feedback (results : list (result U)) :
  returns (collect_feedback_for_videos ops results).
Proof.
  unfold collect_feedback_for_videos, sleep.
  apply returns_bind; [by intros s; eexists _, _|]. intros _.
  apply returns_bind.
  { apply returns_bind; [by intros s; eexists _, _|]. intros _.
    by intros s; eexists _, _. }
  intros _. apply returns_for_each. intros r.
  apply returns_try_except. intros e. by intros s; eexists _, _.
Qed.

(** The day between two cycles passes without an exception. *)
Lemma returns_sleep_a_day : returns (sleep_a_day ops).
Proof.
  unfold sleep_a_day.
  apply returns_bind; [by intros s; eexists _, _|]. intros _.
  apply returns_bind; [by intros s; eexists _, _|]. intros pending.
  apply returns_bind.
  - apply returns_for_each. intros b.
    apply returns_try_except. intros e. apply returns_ret.
  - intros _. by intros s; eexists _, _.
Qed.

(** After a cycle that returns, the loop sleeps and starts the next
    cycle. *)
Lemma auto_loop_next (n : nat) (s s1 : state W U) (results : list (result U)) :
  run_automation_cycle ops s = (Ok results, s1) →
  ∃ s2, sleep_a_day ops s1 = (Ok tt, s2)
        ∧ auto_loop ops (S n) s = auto_loop ops n s2.
Proof.
  intros E. destruct (returns_sleep_a_day s1) as ([] & s2 & E2).
  exists s2. split; [done|]. cbn [auto_loop].
  rewrite (bind_ok _ _ _ _ _ E). by rewrite (bind_ok _ _ _ _ _ E2).
Qed.

(** The cycles that follow [k] cycles that returned. *)
Lemma auto_loop_after (k : nat) :
  ∀ (m : nat) (s sk : state W U),
    auto_loop ops k s = (Ok tt, sk) →
    auto_loop ops (k + m) s = auto_loop ops m sk.
Proof.
  induction k as [|k IH]; intros m s sk.
  - by intros [= <-].
  - cbn [auto_loop Nat.add]. intros E.
    destruct (run_automation_cycle ops s) as [[results|e] s1] eqn:Ec.
    2: { by rewrite (bind_raise _ _ _ _ _ Ec) in E. }
    rewrite (bind_ok _ _ _ _ _ Ec) in E. rewrite (bind_ok _ _ _ _ _ Ec).
    destruct (sleep_a_day ops s1) as [[[]|e] s2] eqn:Es.
    2: { by rewrite (bind_raise _ _ _ _ _ Es) in E. }
    rewrite (bind_ok _ _ _ _ _ Es) in E. rewrite (bind_ok _ _ _ _ _ Es).
    by apply IH.
Qed.

(** In the automatic mode [main] ends as its loop does. *)
Lemma main_auto (a : args) (cycles : nat) (s : state W U) :
  arg_auto_mode a = true →
  main ops a cycles s
  = match auto_loop ops cycles (loop_start ops a s) with
    | (Ok _, s') => (Running, s')
    | (Raise e, s') =>
        (Exited 1,
         mkState (trace s' ++ [Log ERROR ("Kritik hata: " +:+ e)])
           (tasks s') (world s'))
    end.
Proof.
  intros Ha. unfold main, main_body. rewrite Ha.
  rewrite (bind_ok _ _ (after_test_mode ops a s) (loop_start ops a s) tt)
    by reflexivity.
  unfold mbind, M_bind.
  by destruct (auto_loop ops cycles (loop_start ops a s)) as [[[]|e] s'].
Qed.

(** The process ends with the first cycle that raises. *)
Lemma main_cycle_raises (a : args) (s sk s' : state W U) (k n : nat)
    (e : string) :
  arg_auto_mode a = true →
  auto_loop ops k (loop_start ops a s) = (Ok tt, sk) →
  run_automation_cycle ops sk = (Raise e, s') →
  main ops a (k + S n) s
  = (Exited 1,
     mkState (trace s' ++ [Log ERROR ("Kritik hata: " +:+ e)])
       (tasks s') (world s')).
Proof.
  intros Ha Hk Hc.
  by rewrite (main_auto _ _ _ Ha), (auto_loop_after _ _ _ _ Hk),
    (auto_loop_raise _ _ _ _ Hc).
Qed.

(** C2 (as amended).  In the automatic mode, after any number of cycles
    that returned, an exception in the body of the next cycle ends the
    loop and the process, whatever the number of cycles that were still
    to come.  Whether the exception comes from reading the number of
    videos or from the production of the content, of which the trend
    analysis is the first step, the cycle logs it and raises it again,
    and [main] logs it as critical and exits with status 1.  The loop
    goes on only after a cycle whose body returned: the batch is handed
    to the deferred task, the loop sleeps for a day, and the process is
    still running when the next cycle is due. *)
Theorem cycle_failure_ends_process (a : args) (s sk : state W U) (k : nat) :
  arg_auto_mode a = true →
  auto_loop ops k (loop_start ops a s) = (Ok tt, sk) →
  (∀ n e,
     daily_video_count ops (world sk) = Raise e →
     run_automation_cycle ops sk
     = (Raise e,
        mkState
          (trace sk ++ [Log INFO "Otomasyon döngüsü başlatılıyor";
                        Log ERROR ("Otomasyon döngüsü hatası: " +:+ e)])
          (tasks sk) (world sk))
     ∧ main ops a (k + S n) s
       = (Exited 1,
          mkState
            (trace sk ++ [Log INFO "Otomasyon döngüsü başlatılıyor";
                          Log ERROR ("Otomasyon döngüsü hatası: " +:+ e);
                          Log ERROR ("Kritik hata: " +:+ e)])
            (tasks sk) (world sk)))
  ∧ (∀ n count e s1,
       daily_video_count ops (world sk) = Ok count →
       generate_trending_content ops count
         (logger INFO "Otomasyon döngüsü başlatılıyor" sk).2 = (Raise e, s1) →
       run_automation_cycle ops sk
       = (Raise e,
          mkState (trace s1 ++ [Log ERROR ("Otomasyon döngüsü hatası: " +:+ e)])
            (tasks s1) (world s1))
       ∧ main ops a (k + S n) s
         = (Exited 1,
            mkState
              (trace s1 ++ [Log ERROR ("Otomasyon döngüsü hatası: " +:+ e);
                            Log ERROR ("Kritik hata: " +:+ e)])
              (tasks s1) (world s1)))
  ∧ (∀ n count e w,
       daily_video_count ops (world sk) = Ok count →
       get_trending_topics ops count (world sk) = (Raise e, w) →
       main ops a (k + S n) s
       = (Exited 1,
          mkState
            (trace sk
             ++ [Log INFO "Otomasyon döngüsü başlatılıyor";
                 Log INFO ("Trend analizi başlatılıyor - " +:+ pretty count
                           +:+ " video için");
                 Log ERROR ("Otomasyon döngüsü hatası: " +:+ e);
                 Log ERROR ("Kritik hata: " +:+ e)])
            (tasks sk) w))
  ∧ (∀ count results s1,
       daily_video_count ops (world sk) = Ok count →
       generate_trending_content ops count
         (logger INFO "Otomasyon döngüsü başlatılıyor" sk).2
       = (Ok results, s1) →
       ∃ s2 s3,
         run_automation_cycle ops sk = (Ok results, s2)
         ∧ last (tasks s2) = Some results
         ∧ sleep_a_day ops s2 = (Ok tt, s3)
         ∧ auto_loop ops (S k) (loop_start ops a s) = (Ok tt, s3)
         ∧ main ops a (S k) s = (Running, s3)).
Proof.
  intros Ha Hk. split; [|split; [|split]].
  - intros n e Hc. pose proof (cycle_count_raises sk e Hc) as Hr.
    split; [done|].
    rewrite (main_cycle_raises a s sk _ k n e Ha Hk Hr). cbn [trace tasks world].
    by rewrite <- app_assoc.
  - intros n count e s1 Hc Hg.
    pose proof (cycle_content_raises sk s1 count e Hc Hg) as Hr.
    split; [done|].
    rewrite (main_cycle_raises a s sk _ k n e Ha Hk Hr). cbn [trace tasks world].
    by rewrite <- app_assoc.
  - intros n count e w Hc Ht.
    pose proof (trend_analysis_raises
                  (logger INFO "Otomasyon döngüsü başlatılıyor" sk).2
                  count e w Ht) as Hg.
    pose proof (cycle_content_raises sk _ count e Hc Hg) as Hr.
    rewrite (main_cycle_raises a s sk _ k n e Ha Hk Hr).
    cbn [trace tasks world logger emit snd].
    by rewrite <- !app_assoc.
  - intros count results s1 Hc Hg.
    pose proof (cycle_returns sk s1 count results Hc Hg) as Hr.
    destruct (auto_loop_next 0 _ _ _ Hr) as (s3 & Hs & Hn).
    eexists _, s3. split; [exact Hr|]. split; [apply last_snoc|].
    split; [done|].
    assert (Hl : auto_loop ops (S k) (loop_start ops a s) = (Ok tt, s3)).
    { replace (S k) with (k + 1)%nat by lia.
      by rewrite (auto_loop_after _ _ _ _ Hk), Hn. }
    split; [done|]. by rewrite (main_auto _ _ _ Ha), Hl.
Qed.

End Orchestrator.

(** ** Concrete runs *)

(** The first cycle of the automatic mode with a trend analysis that
    gives two topics: both videos are made, the batch is handed over,
    and during the day that follows the collector is called for both
    uploads although its first call raised. *)
Example first_cycle_returns :
  auto_loop (faltering_ops two_topics) 1
    (loop_start (faltering_ops two_topics) auto_args idle)
  = (Ok tt,
     mkState
       [Log INFO "Otomatik mod başlatıldı - CTRL+C ile durdurun";
        Log INFO "Otomasyon döngüsü başlatılıyor";
        Log INFO "Trend analizi başlatılıyor - 3 video için";
        Log INFO "Video içeriği oluşturuluyor: AI money";
        Log INFO "Script oluşturuluyor (en): AI money";
        Log INFO "Seslendirme oluşturuluyor (en)";
        Log INFO "Video oluşturuluyor (en)";
        Log INFO "Video yükleniyor (en)";
        Log INFO "Video başarıyla oluşturuldu ve yüklendi (en): AI money";
        Log INFO "Video içeriği oluşturuluyor: Passive income";
        Log INFO "Script oluşturuluyor (en): Passive income";
        Log INFO "Seslendirme oluşturuluyor (en)";
        Log INFO "Video oluşturuluyor (en)";
        Log INFO "Video yükleniyor (en)";
        Log INFO "Video başarıyla oluşturuldu ve yüklendi (en): Passive income";
        Log INFO "Otomasyon döngüsü tamamlandı: 2 video işlendi";
        Sleep 86400;
        Log INFO "Feedback toplama başlatılıyor";
        Sleep 7200;
        Collect "upload_en" {[ "content" := "All about AI money" ]};
        Log ERROR "Feedback toplama hatası: quota exceeded";
        Collect "upload_en" {[ "content" := "All about Passive income" ]}]
       []
       ["get_trending_topics";
        "generate_script en"; "add_affiliate_content"; "create_voiceover en";
        "create_video en"; "upload_video en";
        "generate_script en"; "add_affiliate_content"; "create_voiceover en";
        "create_video en"; "upload_video en";
        "collect_video_metrics upload_en"; "collect_video_metrics upload_en"]).
Proof. by vm_compute. Qed.

(** C2, witness.  The automatic mode observed for three cycles, with a
    trend analysis that raises when the second cycle calls it: the
    process exits with status 1 and the third cycle is never started. *)
Lemma cycle_failure_ends_process_witness :
  main (faltering_ops two_topics) auto_args 3 idle
  = (Exited 1,
     mkState
       (trace (auto_loop (faltering_ops two_topics) 1
                 (loop_start (faltering_ops two_topics) auto_args idle)).2
        ++ [Log INFO "Otomasyon döngüsü başlatılıyor";
            Log INFO "Trend analizi başlatılıyor - 3 video için";
            Log ERROR "Otomasyon döngüsü hatası: ranking engine crashed";
            Log ERROR "Kritik hata: ranking engine crashed"])
       []
       (world (auto_loop (faltering_ops two_topics) 1
                 (loop_start (faltering_ops two_topics) auto_args idle)).2
        ++ ["get_trending_topics"])).
Proof.
  apply (proj1 (proj2 (proj2
           (cycle_failure_ends_process (faltering_ops two_topics) auto_args idle
              (auto_loop (faltering_ops two_topics) 1
                 (loop_start (faltering_ops two_topics) auto_args idle)).2
              1 eq_refl ltac:(by vm_compute))))
           1%nat 3 "ranking engine crashed").
  - reflexivity.
  - by vm_compute.
Defined.

(** C2, counterexample.  The trend analysis raises in the first of three
    cycles: the process exits with status 1, and the trend analysis was
    called once. *)
Lemma cycle_failure_not_survived :
  (main (scripted_ops (Raise "ranking engine crashed") [] []) auto_args 3 idle).1
  = Exited 1
  ∧ world (main (scripted_ops (Raise "ranking engine crashed") [] [])
             auto_args 3 idle).2
    = ["get_trending_topics"]
  ∧ ¬ survives_cycle_failures
        (scripted_ops (Raise "ranking engine crashed") [] []) auto_args 3 idle.
Proof.
  split; [by vm_compute|]. split; [by vm_compute|].
  unfold survives_cycle_failures. by vm_compute.
Qed.

(** C10, witness.  The batch of the cycle that made two videos, with a
    collector that raises at its first call: the error is logged and the
    second upload is collected. *)
Lemma feedback_collection_witness :
  last (tasks (run_automation_cycle (faltering_ops two_topics) idle).2)
  = Some [[("en", Artifacts {[ "content" := "All about AI money" ]}
                    "output/audio/voice_en.mp3" "output/videos/video_en.mp4"
                    "upload_en" "2024-01-01T12:00:00")];
          [("en", Artifacts {[ "content" := "All about Passive income" ]}
                    "output/audio/voice_en.mp3" "output/videos/video_en.mp4"
                    "upload_en" "2024-01-01T12:00:00")]]
  ∧ ∃ s',
      collect_feedback_for_videos (faltering_ops two_topics)
        [[("en", Artifacts {[ "content" := "All about AI money" ]}
                   "output/audio/voice_en.mp3" "output/videos/video_en.mp4"
                   "upload_en" "2024-01-01T12:00:00")];
         [("en", Artifacts {[ "content" := "All about Passive income" ]}
                   "output/audio/voice_en.mp3" "output/videos/video_en.mp4"
                   "upload_en" "2024-01-01T12:00:00")]]
        idle
      = (Ok tt, s')
      ∧ trace s'
        = [Log INFO "Feedback toplama başlatılıyor"; Sleep 7200;
           Collect "upload_en" {[ "content" := "All about AI money" ]};
           Log ERROR "Feedback toplama hatası: quota exceeded";
           Collect "upload_en" {[ "content" := "All about Passive income" ]}]
      ∧ tasks s' = []
      ∧ world s'
        = ["collect_video_metrics upload_en"; "collect_video_metrics upload_en"]
      ∧ collects (trace s')
        = [("upload_en", {[ "content" := "All about AI money" ]});
           ("upload_en", {[ "content" := "All about Passive income" ]})].
Proof.
  apply (feedback_collection (faltering_ops two_topics) idle
           (run_automation_cycle (faltering_ops two_topics) idle).2 idle).
  by vm_compute.
Defined.

(** The try of the deferred task is around the uploads of one result.
    A cycle never hands over a result with two uploads; were the task
    given one, with uploads for English and German, an error for the
    English upload would leave the German one uncollected. *)
Example sibling_upload_skipped :
  eligible en_de_uploaded
  = [("upload_en", {[ "content" := "All about AI money" ]});
     ("upload_de", {[ "content" := "All about AI money" ]})]
  ∧ collects (trace (collect_feedback_for_videos
                       (scripted_ops (Ok []) [] ["upload_en"])
                       [en_de_uploaded] idle).2)
    = [("upload_en", {[ "content" := "All about AI money" ]})].
Proof. split; [reflexivity|by vm_compute]. Qed.

(** C9, witness.  English and German are requested and the voice stage
    fails for German: the entry of German is the failure, the entry of
    English is not touched by it. *)
Lemma language_failure_isolated_witness :
  language_step (scripted_ops (Ok []) ["de"] []) "AI money" "finance" true None
    en_de_uploaded "de" idle
  = (Ok (dict_set "de" (Error "voice synthesis failed") en_de_uploaded),
     mkState
       [Log INFO "Script oluşturuluyor (de): AI money";
        Log INFO "Seslendirme oluşturuluyor (de)";
        Log ERROR "Hata (de): AI money - voice synthesis failed"]
       []
       ["generate_script de"; "add_affiliate_content"; "create_voiceover de"])
  ∧ dict_get "en" (dict_set "de" (Error "voice synthesis failed") en_de_uploaded)
    = dict_get "en" en_de_uploaded.
Proof.
  split.
  - apply (proj1 (proj2 (proj2
      (language_failure_isolated (scripted_ops (Ok []) ["de"] [])
         "AI money" "finance" true None [] idle)))
      "de" en_de_uploaded idle
      (mkState
         [Log INFO "Script oluşturuluyor (de): AI money";
          Log INFO "Seslendirme oluşturuluyor (de)"]
         []
         ["generate_script de"; "add_affiliate_content"; "create_voiceover de"])
      "voice synthesis failed").
    reflexivity.
  - apply (proj2 (proj2 (proj2
      (language_failure_isolated (scripted_ops (Ok []) ["de"] [])
         "AI money" "finance" true None [] idle)))).
    discriminate.
Defined.

(** The scenario of the design document: English and German for one
    topic, the German branch failing at the voice stage.  The English
    entry has its four artifacts and the result holds one error. *)
Example english_unaffected_by_german :
  (create_video_content (scripted_ops (Ok []) ["de"] []) "AI money" "finance"
     (Some ["en"; "de"]) true None idle).1
  = Ok [("en", Artifacts {[ "content" := "All about AI money" ]}
                 "output/audio/voice_en.mp3" "output/videos/video_en.mp4"
                 "upload_en" "2024-01-01T12:00:00");
        ("de", Error "voice synthesis failed")]
  ∧ errors [("en", Artifacts {[ "content" := "All about AI money" ]}
                     "output/audio/voice_en.mp3" "output/videos/video_en.mp4"
                     "upload_en" "2024-01-01T12:00:00");
            ("de", Error (U:=string) "voice synthesis failed")]
    = ["voice synthesis failed"].
Proof. split; [by vm_compute|reflexivity]. Qed.

End OrchestratorFacts.

(* ================================================================== *)
(** * Properties of the text helpers *)
(* ================================================================== *)

Module TextFacts.
Import SplitFacts.

(** ** Lower case *)

Lemma isspace_lower_char (c : ascii) : Py.isspace (Py.lower_char c) = Py.isspace c.
Proof. by destruct c as [[] [] [] [] [] [] [] []]. Qed.

Lemma lower_char_idemp (c : ascii) :
  Py.lower_char (Py.lower_char c) = Py.lower_char c.
Proof. by destruct c as [[] [] [] [] [] [] [] []]. Qed.

Lemma lower_idemp (s : string) : Py.lower (Py.lower s) = Py.lower s.
Proof.
  induction s as [|c s IH]; simpl; [done|].
  by rewrite lower_char_idemp, IH.
Qed.

Lemma lower_length (s : string) : String.length (Py.lower s) = String.length s.
Proof. induction s as [|c s IH]; simpl; [done|]. by rewrite IH. Qed.

Lemma lower_app (a b : string) : Py.lower (a +:+ b) = Py.lower a +:+ Py.lower b.
Proof.
  induction a as [|c a IH]; [done|].
  rewrite append_cons. simpl. by rewrite IH, append_cons.
Qed.

(** ** Words *)

Lemma nonempty_app_l (a b : string) :
  Py.nonempty a = true → Py.nonempty (a +:+ b) = true.
Proof. by destruct a. Qed.

Lemma split_ws_cons_space (c : ascii) (s : string) :
  Py.isspace c = true → Py.split_ws (String c s) = Py.split_ws s.
Proof. intros H. simpl. by rewrite H. Qed.

(** A character that is not white space starts a word, or extends the
    first word of what follows. *)
Lemma split_ws_cons_char (c : ascii) (s : string) :
  Py.isspace c = false →
  Py.split_ws (String c s)
  = match s with
    | EmptyString => [String c EmptyString]
    | String c' _ =>
        if Py.isspace c' then String c EmptyString :: Py.split_ws s
        else match Py.split_ws s with
             | w :: ws => String c w :: ws
             | [] => [String c EmptyString]
             end
    end.
Proof. intros H. cbn [Py.split_ws]. by rewrite H. Qed.

(** Every element of [s.split()] is a word. *)
Lemma split_ws_words (s : string) : Forall Py.is_word (Py.split_ws s).
Proof.
  induction s as [|c s IH]; [constructor|].
  destruct (Py.isspace c) eqn:Hc.
  - by rewrite split_ws_cons_space.
  - rewrite split_ws_cons_char by done.
    assert (Hw : Py.is_word (String c EmptyString)).
    { split; [done|]. simpl. by rewrite Hc. }
    destruct s as [|c' s']; [by apply Forall_singleton|].
    destruct (Py.isspace c') eqn:Hc'; [by constructor|].
    destruct (Py.split_ws (String c' s')) as [|w ws]; [by apply Forall_singleton|].
    inversion IH as [|? ? [_ Hns] Hws]; subst.
    constructor; [|done]. split; [done|]. simpl. by rewrite Hc, Hns.
Qed.

(** A word followed by white space is the first element of the
    split. *)
Lemma split_ws_word_space (w : string) (c : ascii) (rest : string) :
  Py.is_word w → Py.isspace c = true →
  Py.split_ws (w +:+ String c rest) = w :: Py.split_ws rest.
Proof.
  intros [Hne Hns] Hc. induction w as [|x w IH]; [done|].
  simpl in Hns. apply andb_prop in Hns as [Hx Hns].
  apply negb_true_iff in Hx.
  rewrite append_cons, split_ws_cons_char by done.
  destruct w as [|y w].
  - rewrite append_nil_l, Hc. by rewrite split_ws_cons_space.
  - rewrite append_cons. rewrite append_cons in IH.
    assert (Hy : Py.isspace y = false).
    { simpl in Hns. apply andb_prop in Hns as [Hy _]. by apply negb_true_iff. }
    rewrite Hy, IH by done. done.
Qed.

(** A word alone is split into itself. *)
Lemma split_ws_word (w : string) : Py.is_word w → Py.split_ws w = [w].
Proof.
  intros [Hne Hns]. induction w as [|x w IH]; [done|].
  simpl in Hns. apply andb_prop in Hns as [Hx Hns].
  apply negb_true_iff in Hx.
  rewrite split_ws_cons_char by done.
  destruct w as [|y w]; [done|].
  assert (Hy : Py.isspace y = false).
  { simpl in Hns. apply andb_prop in Hns as [Hy _]. by apply negb_true_iff. }
  by rewrite Hy, IH.
Qed.

(** Splitting what [' '.join] made of words gives the words back. *)
Lemma split_ws_join (ws : list string) :
  Forall Py.is_word ws → Py.split_ws (Py.join " " ws) = ws.
Proof.
  induction 1 as [|w ws Hw Hws IH]; [done|].
  destruct ws as [|w' ws'].
  - by apply split_ws_word.
  - rewrite join_cons by done.
    change (" " +:+ ?s) with (String " " s).
    by rewrite split_ws_word_space, IH.
Qed.

(** Lower case does not move the boundaries of words. *)
Lemma split_ws_lower (s : string) :
  Py.split_ws (Py.lower s) = map Py.lower (Py.split_ws s).
Proof.
  induction s as [|c s IH]; [done|].
  cbn [Py.lower]. destruct (Py.isspace c) eqn:Hc.
  - rewrite !split_ws_cons_space by (by rewrite ?isspace_lower_char). done.
  - rewrite !split_ws_cons_char by (by rewrite ?isspace_lower_char).
    destruct s as [|c' s']; [done|].
    cbn [Py.lower] in *. rewrite isspace_lower_char.
    destruct (Py.isspace c'); [by rewrite IH|].
    rewrite IH. by destruct (Py.split_ws (String c' s')).
Qed.

(** ** Occurrences *)

Lemma prefix_spec (a s : string) :
  String.prefix a s = true ↔ ∃ b, s = a +:+ b.
Proof.
  revert s. induction a as [|x a IH]; intros s.
  - split; [by exists s|by destruct s].
  - destruct s as [|y s]; simpl.
    + split; [done|]. by intros [b Hb].
    + destruct (Ascii.ascii_dec x y) as [->|Hne].
      * rewrite IH. split; intros [b Hb]; exists b.
        -- by rewrite append_cons, Hb.
        -- rewrite append_cons in Hb. by injection Hb.
      * split; [done|]. intros [b Hb]. rewrite append_cons in Hb.
        injection Hb as ? ?. by subst.
Qed.

(** [needle in hay] holds exactly when [hay] is some text, the needle
    and some text. *)
Lemma contains_spec (needle hay : string) :
  Py.contains needle hay = true ↔ ∃ a b, hay = a +:+ needle +:+ b.
Proof.
  induction hay as [|y hay IH]; cbn [Py.contains].
  - destruct (String.prefix needle EmptyString) eqn:Hp.
    + split; [|done]. intros _. apply prefix_spec in Hp as [b Hb].
      by exists EmptyString, b.
    + split; [done|]. intros (a & b & Hab).
      destruct a; [|done]. rewrite append_nil_l in Hab.
      assert (String.prefix needle EmptyString = true) by (apply prefix_spec; eauto).
      congruence.
  - destruct (String.prefix needle (String y hay)) eqn:Hp.
    + split; [|done]. intros _. apply prefix_spec in Hp as [b Hb].
      by exists EmptyString, b.
    + rewrite IH. split.
      * intros (a & b & ->). by exists (String y a), b.
      * intros (a & b & Hab). destruct a as [|x a].
        -- rewrite append_nil_l in Hab.
           assert (String.prefix needle (String y hay) = true)
             by (apply prefix_spec; eauto).
           congruence.
        -- rewrite append_cons in Hab. injection Hab as _ ->. by exists a, b.
Qed.

End TextFacts.

(* ================================================================== *)
(** * Properties of the topic helpers of the trend analysis *)
(* ================================================================== *)

Module TopicFacts.
Import Trend TextFacts SplitFacts.

(** ** Keyword tables *)

Lemma existsb_occurs (keywords : list string) (t : string) :
  existsb (λ keyword, Py.contains keyword t) keywords = true
  ↔ ∃ k, k ∈ keywords ∧ occurs_in k t.
Proof.
  rewrite existsb_exists. split; intros (k & Hk & Ho); exists k.
  - split; [by apply list_elem_of_In|by apply contains_spec].
  - split; [by apply list_elem_of_In|by apply contains_spec].
Qed.

(** No keyword of the entries [table] occurs in [t]. *)
Local Abbreviation silent table t :=
  (∀ (c : string) (kws : list string) (k : string),
     (c, kws) ∈ table → k ∈ kws → ¬ occurs_in k t).

Lemma scan_table_None (table : list (string * list string)) (t : string) :
  scan_table table t = None ↔ silent table t.
Proof.
  induction table as [|[c kws] table IH]; simpl.
  - split; [|done]. intros _ c kws k Hin. by apply elem_of_nil in Hin.
  - destruct (existsb _ kws) eqn:E.
    + split; [done|]. intros Hs. apply existsb_occurs in E as (k & Hk & Ho).
      destruct (Hs c kws k); [by left|done|done].
    + rewrite IH. split.
      * intros Hs c' kws' k Hin Hk Ho. apply elem_of_cons in Hin as [[= -> ->]|Hin].
        -- assert (existsb (λ keyword, Py.contains keyword t) kws = true)
             by (apply existsb_occurs; eauto).
           congruence.
        -- by apply (Hs c' kws' k).
      * intros Hs c' kws' k Hin. apply (Hs c' kws' k). by right.
Qed.

(** The scan returns the key of the first entry one of whose keywords
    occurs. *)
Lemma scan_table_Some (table : list (string * list string)) (t c : string) :
  scan_table table t = Some c ↔
  ∃ before kws after,
    table = before ++ (c, kws) :: after
    ∧ (∃ k, k ∈ kws ∧ occurs_in k t)
    ∧ silent before t.
Proof.
  induction table as [|[c0 kws0] table IH]; simpl.
  - split; [done|]. intros (before & kws & after & E & _). by destruct before.
  - destruct (existsb _ kws0) eqn:E.
    + split.
      * intros [= ->]. exists [], kws0, table. split; [done|].
        split; [by apply existsb_occurs|].
        intros c' kws' k Hin. by apply elem_of_nil in Hin.
      * intros (before & kws & after & Et & Hk & Hs).
        destruct before as [|[c1 kws1] before]; [by injection Et as -> _ _|].
        injection Et as -> -> _.
        apply existsb_occurs in E as (k & Hin & Ho).
        destruct (Hs c1 kws1 k); [by left|done|done].
    + rewrite IH. split.
      * intros (before & kws & after & -> & Hk & Hs).
        exists ((c0, kws0) :: before), kws, after. split; [done|].
        split; [done|]. intros c' kws' k Hin Hkw Ho.
        apply elem_of_cons in Hin as [[= -> ->]|Hin]; [|by apply (Hs c' kws' k)].
        assert (existsb (λ keyword, Py.contains keyword t) kws0 = true)
          by (apply existsb_occurs; eauto).
        congruence.
      * intros (before & kws & after & Et & Hk & Hs).
        destruct before as [|[c1 kws1] before].
        -- injection Et as -> -> _. apply existsb_occurs in Hk. congruence.
        -- injection Et as -> -> ->. exists before, kws, after.
           split; [done|]. split; [done|].
           intros c' kws' k Hin. apply (Hs c' kws' k). by right.
Qed.

Lemma scan_table_key (table : list (string * list string)) (t c : string) :
  scan_table table t = Some c → c ∈ map fst table.
Proof.
  intros (before & kws & after & -> & _)%scan_table_Some.
  rewrite map_app. apply elem_of_app. right. by left.
Qed.

(** An entry is found at one place only in a table without repeated
    keys. *)
Lemma entry_unique {V} (table b1 a1 b2 a2 : list (string * V)) (c : string)
    (v1 v2 : V) :
  NoDup (map fst table) →
  table = b1 ++ (c, v1) :: a1 → table = b2 ++ (c, v2) :: a2 →
  b1 = b2 ∧ v1 = v2.
Proof.
  intros Hnd E1 E2. subst table. revert b2 Hnd E2.
  induction b1 as [|[c1 w1] b1 IH]; intros [|[c2 w2] b2] Hnd E2; simpl in *.
  - by injection E2 as ->.
  - injection E2 as -> -> ->. apply NoDup_cons in Hnd as [Hni _].
    destruct Hni. rewrite map_app. apply elem_of_app. right. by left.
  - injection E2 as -> -> <-. apply NoDup_cons in Hnd as [Hni _].
    destruct Hni. rewrite map_app. apply elem_of_app. right. by left.
  - injection E2 as -> -> E2. apply NoDup_cons in Hnd as [_ Hnd].
    destruct (IH b2 Hnd E2) as [-> ->]. done.
Qed.

(** ** Categories and formats *)

Lemma categorize_topic_in_categories (topic : string) :
  _categorize_topic topic ∈ categories.
Proof.
  unfold _categorize_topic, categories.
  destruct (scan_table target_categories (Py.lower topic)) as [c|] eqn:E.
  - apply scan_table_key in E. cbn in E. rewrite !elem_of_cons in E.
    rewrite !elem_of_cons. tauto.
  - rewrite !elem_of_cons. tauto.
Qed.

(** X1.  [_categorize_topic] always answers with one of the six
    categories, and with [general] exactly when no keyword of any
    category occurs in the topic put in lower case. *)
Theorem categorize_topic_closed (topic : string) :
  _categorize_topic topic ∈ categories
  ∧ (_categorize_topic topic = "general"
     ↔ ∀ c kws k, (c, kws) ∈ target_categories → k ∈ kws →
         ¬ occurs_in k (Py.lower topic)).
Proof.
  split; [apply categorize_topic_in_categories|].
  unfold _categorize_topic.
  destruct (scan_table target_categories (Py.lower topic)) as [c|] eqn:E.
  - pose proof (scan_table_key _ _ _ E) as Hc.
    assert (Hg : c ≠ "general").
    { intros ->. revert Hc. apply (bool_decide_unpack _). by vm_compute. }
    split; [done|]. intros Hs. apply scan_table_None in Hs. congruence.
  - split; [|done]. intros _. by apply scan_table_None.
Qed.

(** X2.  The category is that of the first entry of
    [target_categories], in the order of the table, one of whose
    keywords occurs in the topic put in lower case: an entry is chosen
    exactly when one of its keywords occurs and no keyword of an earlier
    entry does. *)
Theorem categorize_topic_first_match (topic : string)
    (before after : list (string * list string)) (c : string)
    (kws : list string) :
  target_categories = before ++ (c, kws) :: after →
  _categorize_topic topic = c
  ↔ (∃ k, k ∈ kws ∧ occurs_in k (Py.lower topic))
    ∧ ∀ c' kws' k', (c', kws') ∈ before → k' ∈ kws' →
        ¬ occurs_in k' (Py.lower topic).
Proof.
  intros Et. unfold _categorize_topic. split.
  - destruct (scan_table target_categories (Py.lower topic)) as [c0|] eqn:E.
    + intros ->. apply scan_table_Some in E as (b & kws' & a & Et' & Hk & Hs).
      assert (Hnd : NoDup (map fst target_categories)).
      { apply (bool_decide_unpack _). by vm_compute. }
      destruct (entry_unique _ _ _ _ _ _ _ _ Hnd Et' Et) as [-> ->]. done.
    + intros <-. exfalso.
      assert (Hin : "general" ∈ map fst target_categories).
      { rewrite Et, map_app. apply elem_of_app. right. by left. }
      revert Hin. apply (bool_decide_unpack _). by vm_compute.
  - intros [Hk Hs].
    assert (E : scan_table target_categories (Py.lower topic) = Some c).
    { apply scan_table_Some. by exists before, kws, after. }
    by rewrite E.
Qed.

(** X2, witness: the entry of tech comes after that of finance. *)
Lemma categorize_topic_first_match_witness :
  _categorize_topic "Best AI tools" = "tech"
  ↔ (∃ k, k ∈ ["ai"; "programming"; "technology"; "software"; "automation"]
          ∧ occurs_in k (Py.lower "Best AI tools"))
    ∧ ∀ (c' : string) (kws' : list string) (k' : string),
        (c', kws')
        ∈ [("finance", ["money"; "investing"; "crypto"; "stocks"; "business"])] →
        k' ∈ kws' → ¬ occurs_in k' (Py.lower "Best AI tools").
Proof.
  apply (categorize_topic_first_match "Best AI tools"
           (take 1 target_categories) (drop 2 target_categories) "tech").
  reflexivity.
Defined.

(** The formats and, for each, what its first template puts before and
    after the topic. *)
Local Abbreviation frames :=
  [("how_to", "How to ", " in 2025");
   ("tips", "5 ", " Tips That Actually Work");
   ("list", "Top 5 ", " Methods");
   ("story", "My ", " Journey: What I Learned");
   ("controversial", "The Dark Side of ", EmptyString)].

Lemma suggest_video_format_known (topic category : string) :
  _suggest_video_format topic category
  ∈ ["how_to"; "tips"; "list"; "story"; "controversial"].
Proof.
  unfold _suggest_video_format.
  destruct (scan_table video_formats (Py.lower topic)) as [f|] eqn:E.
  - apply scan_table_key in E. exact E.
  - repeat case_decide; rewrite !elem_of_cons; tauto.
Qed.

(** The first template of each of the five formats. *)
Lemma format_topic_frames (f : string) :
  f ∈ ["how_to"; "tips"; "list"; "story"; "controversial"] →
  ∃ prefix suffix,
    (f, prefix, suffix) ∈ frames
    ∧ Py.nonempty prefix = true
    ∧ ∀ original_topic,
        _format_topic_for_video original_topic f
        = prefix +:+ _clean_topic original_topic +:+ suffix.
Proof.
  intros H. rewrite !elem_of_cons in H.
  destruct H as [->|[->|[->|[->|[->|H]]]]]; [| | | | |by apply elem_of_nil in H].
  - exists "How to ", " in 2025".
    split; [rewrite !elem_of_cons; tauto|]. by split.
  - exists "5 ", " Tips That Actually Work".
    split; [rewrite !elem_of_cons; tauto|]. by split.
  - exists "Top 5 ", " Methods".
    split; [rewrite !elem_of_cons; tauto|]. by split.
  - exists "My ", " Journey: What I Learned".
    split; [rewrite !elem_of_cons; tauto|]. by split.
  - exists "The Dark Side of ", EmptyString.
    split; [rewrite !elem_of_cons; tauto|]. by split.
Qed.

(** X3.  [_suggest_video_format] answers with one of the five formats
    for which [_format_topic_for_video] has templates, so the title is
    the cleaned topic inside the first template of the suggested
    format; the default template is never needed. *)
Theorem suggested_format_has_template (topic category : string) :
  ∃ f prefix suffix,
    (f, prefix, suffix) ∈ frames
    ∧ _suggest_video_format topic category = f
    ∧ ∀ original_topic,
        _format_topic_for_video original_topic f
        = prefix +:+ _clean_topic original_topic +:+ suffix.
Proof.
  destruct (format_topic_frames (_suggest_video_format topic category))
    as (prefix & suffix & Hin & _ & Ht).
  { apply suggest_video_format_known. }
  exists (_suggest_video_format topic category), prefix, suffix.
  split; [done|]. by split.
Qed.

(** ** Cleaning and keywords *)

Lemma slice_to_take {A} (n : nat) (l : list A) :
  Py.slice_to (Z.of_nat n) l = take n l.
Proof.
  unfold Py.slice_to. rewrite (proj2 (Z.leb_le 0 _)) by lia.
  by rewrite Nat2Z.id.
Qed.

Lemma filter_all {A} (P : A → Prop) `{!∀ a, Decision (P a)} (l : list A) :
  Forall P l → filter P l = l.
Proof.
  induction 1 as [|x l Hx Hl IH]; [done|].
  by rewrite filter_cons_True, IH.
Qed.

Lemma Forall_filter_self {A} (P : A → Prop) `{!∀ a, Decision (P a)} (l : list A) :
  Forall P (filter P l).
Proof. apply Forall_forall. intros x Hx. by apply list_elem_of_filter in Hx as [? _]. Qed.

Lemma Forall_filter_of {A} (P Q : A → Prop) `{!∀ a, Decision (P a)} (l : list A) :
  Forall Q l → Forall Q (filter P l).
Proof.
  rewrite !Forall_forall. intros Hall x Hx.
  apply list_elem_of_filter in Hx as [_ Hx]. by apply Hall.
Qed.

(** The words of a cleaned topic. *)
Lemma clean_topic_split (topic : string) :
  Py.split_ws (_clean_topic topic)
  = take 4 (filter (λ word, Py.lower word ∉ stop_words) (Py.split_ws topic)).
Proof.
  unfold _clean_topic. rewrite (slice_to_take 4).
  apply split_ws_join. apply Forall_take, Forall_filter_of, split_ws_words.
Qed.

(** X4.  A cleaned topic has at most four words; none of them is a stop
    word, whatever its case; they are words of the topic, in the order
    in which the topic has them; and they are separated by single
    spaces, with no space at either end. *)
Theorem clean_topic_words (topic : string) :
  (length (Py.split_ws (_clean_topic topic)) ≤ 4)%nat
  ∧ Forall (λ word, Py.lower word ∉ stop_words) (Py.split_ws (_clean_topic topic))
  ∧ sublist (Py.split_ws (_clean_topic topic)) (Py.split_ws topic)
  ∧ Py.join " " (Py.split_ws (_clean_topic topic)) = _clean_topic topic.
Proof.
  rewrite clean_topic_split. split; [|split; [|split]].
  - rewrite length_take. lia.
  - apply Forall_take, Forall_filter_self.
  - etrans; [apply sublist_take|apply sublist_filter].
  - unfold _clean_topic. by rewrite (slice_to_take 4).
Qed.

(** X5.  Cleaning a cleaned topic changes nothing. *)
Theorem clean_topic_idempotent (topic : string) :
  _clean_topic (_clean_topic topic) = _clean_topic topic.
Proof.
  unfold _clean_topic at 1. rewrite clean_topic_split, (slice_to_take 4).
  rewrite filter_all by apply Forall_take, Forall_filter_self.
  rewrite take_take, Nat.min_id.
  unfold _clean_topic. by rewrite (slice_to_take 4).
Qed.

Lemma extract_keywords_length (text : string) :
  (length (_extract_keywords text) ≤ 5)%nat.
Proof.
  unfold _extract_keywords. rewrite (slice_to_take 5), length_take. lia.
Qed.

(** X6.  [_extract_keywords] gives at most five keywords; each has more
    than three characters, is in lower case and is free of white space;
    they are words of the text put in lower case, in their order. *)
Theorem extract_keywords_shape (text : string) :
  (length (_extract_keywords text) ≤ 5)%nat
  ∧ Forall (λ word, (3 < String.length word)%nat ∧ Py.lower word = word
                    ∧ Py.is_word word)
      (_extract_keywords text)
  ∧ sublist (_extract_keywords text) (Py.split_ws (Py.lower text)).
Proof.
  split; [apply extract_keywords_length|].
  unfold _extract_keywords. rewrite (slice_to_take 5). split.
  - apply Forall_take. apply Forall_forall. intros w Hw.
    apply list_elem_of_filter in Hw as [Hlen Hw]. split; [done|].
    split.
    + rewrite split_ws_lower in Hw. apply list_elem_of_fmap in Hw as (v & -> & _).
      apply lower_idemp.
    + pose proof (split_ws_words (Py.lower text)) as Hall.
      rewrite Forall_forall in Hall. by apply Hall.
  - etrans; [apply sublist_take|apply sublist_filter].
Qed.

(** ** The topics that the source adapters build *)

Lemma suggested_title_nonempty (topic category original_topic : string) :
  Py.nonempty
    (_format_topic_for_video original_topic (_suggest_video_format topic category))
  = true.
Proof.
  destruct (format_topic_frames (_suggest_video_format topic category))
    as (prefix & suffix & _ & Hne & ->).
  { apply suggest_video_format_known. }
  by apply nonempty_app_l.
Qed.

(** X7.  Every topic that a source adapter builds has a title that is
    not empty, a category among the six and at most five related
    keywords. *)
Theorem adapter_topics_titled (name : string) (n : Z) :
  Forall (λ t, Py.nonempty (title t) = true
               ∧ category t ∈ categories
               ∧ (length (related_keywords t) ≤ 5)%nat)
    [google_topic name; youtube_topic name n; reddit_topic name n].
Proof.
  repeat apply Forall_cons_2; [..|apply Forall_nil_2]; cbn [title category source
    related_keywords google_topic youtube_topic reddit_topic];
    (split; [apply suggested_title_nonempty|]);
    (split; [apply categorize_topic_in_categories|]).
  - simpl. lia.
  - apply extract_keywords_length.
  - apply extract_keywords_length.
Qed.

(** ** Scores *)

Lemma category_bonus_pos (c : string) : (0 < category_bonus c)%Q.
Proof. unfold category_bonus. by repeat case_decide. Qed.

Lemma source_bonus_pos (s : string) : (0 < source_bonus s)%Q.
Proof. unfold source_bonus. by repeat case_decide. Qed.

Lemma base_score_nonneg (t : TrendTopic) :
  (0 <= confidence_score t)%Q → (0 <= base_score t)%Q.
Proof.
  intros H. unfold base_score.
  assert (H1 : (0 <= confidence_score t * category_bonus (category t))%Q).
  { apply Qmult_le_0_compat; [done|]. apply Qlt_le_weak, category_bonus_pos. }
  assert (H2 : (0 <= confidence_score t * category_bonus (category t)
                     * source_bonus (source t))%Q).
  { apply Qmult_le_0_compat; [done|]. apply Qlt_le_weak, source_bonus_pos. }
  destruct (1000 <? search_volume t); [by apply Qmult_le_0_compat|].
  destruct (500 <? search_volume t); [by apply Qmult_le_0_compat|done].
Qed.

(** X8.  The score written by the ranking is clamped from above only:
    it never exceeds [1.0], and it is not negative when the confidence
    that the adapter gave is not. *)
Theorem score_in_unit_interval (t : TrendTopic) :
  (0 <= confidence_score t)%Q →
  (0 <= confidence_score (score_trend t))%Q
  ∧ (confidence_score (score_trend t) <= 1.0)%Q.
Proof.
  intros H. split; [|apply PyFacts.min_le_r].
  cbn [confidence_score score_trend]. unfold Py.min.
  destruct (Py.Qltb 1.0 (base_score t)); [done|by apply base_score_nonneg].
Qed.

(** X8, witness: a topic of Reddit as the adapter builds it. *)
Lemma score_in_unit_interval_witness :
  (0 <= confidence_score (score_trend (reddit_topic "Python tips" 150)))%Q
  ∧ (confidence_score (score_trend (reddit_topic "Python tips" 150)) <= 1.0)%Q.
Proof. apply (score_in_unit_interval (reddit_topic "Python tips" 150)). done. Defined.

(** ** The best topics *)

Lemma StronglySorted_app_inv {A} (R : A → A → Prop) (l1 l2 : list A) :
  StronglySorted R (l1 ++ l2) → ∀ a b, a ∈ l1 → b ∈ l2 → R a b.
Proof.
  induction l1 as [|x l1 IH]; simpl; intros H a b Ha Hb.
  - by apply elem_of_nil in Ha.
  - apply StronglySorted_inv in H as [Hs Hx].
    apply elem_of_cons in Ha as [->|Ha]; [|by apply IH].
    rewrite Forall_forall in Hx. apply Hx. apply elem_of_app. by right.
Qed.

(** X9.  [get_trending_topics(count)] returns the best topics: what it
    returns and what it leaves out are together the scored candidates of
    all sources, and no topic left out has a higher score than a topic
    returned.  The number of topics returned is [count], or all of them
    when there are fewer; a negative [count] leaves out that many topics
    from the end of the ranking. *)
Theorem get_trending_topics_best (results : list (Result (list TrendTopic)))
    (count : Z) :
  (∃ rest,
     Permutation (get_trending_topics results count ++ rest)
       (map score_trend (all_trends results))
     ∧ ∀ t u, t ∈ get_trending_topics results count → u ∈ rest →
         (confidence_score u <= confidence_score t)%Q)
  ∧ Z.of_nat (length (get_trending_topics results count))
    = if 0 <=? count
      then Z.min count (Z.of_nat (length (all_trends results)))
      else Z.max 0 (Z.of_nat (length (all_trends results)) + count).
Proof.
  rewrite TrendFacts.get_trending_topics_values.
  set (ranked := Py.sorted confidence_score true
                   (map score_trend (all_trends results))).
  assert (Hlen : length ranked = length (all_trends results)).
  { unfold ranked. rewrite (Permutation_length (PyFacts.sorted_perm _ _ _)).
    apply length_map. }
  assert (Hn : ∃ n, Py.slice_to count ranked = take n ranked).
  { unfold Py.slice_to. destruct (0 <=? count); eauto. }
  split.
  - destruct Hn as [n ->]. exists (drop n ranked). split.
    + rewrite take_drop. apply PyFacts.sorted_perm.
    + intros t u Ht Hu.
      apply (StronglySorted_app_inv
               (λ a b, (confidence_score b <= confidence_score a)%Q)
               (take n ranked) (drop n ranked)); [|done|done].
      rewrite take_drop. apply PyFacts.sorted_reverse_desc.
  - unfold Py.slice_to. rewrite <- Hlen.
    destruct (0 <=? count) eqn:E; rewrite length_take.
    + apply Z.leb_le in E. lia.
    + apply Z.leb_gt in E. lia.
Qed.

End TopicFacts.

(* ================================================================== *)
(** * Properties of the subtitle lines *)
(* ================================================================== *)

Module SubtitleFacts.
Import Video TextFacts SplitFacts.

Local Abbreviation J := (Py.join " ").
Local Abbreviation len s := (Z.of_nat (String.length s)).

Lemma join_snoc (g : list string) (w : string) :
  g ≠ [] → J (g ++ [w]) = (J g +:+ " ") +:+ w.
Proof.
  induction g as [|x g IH]; [done|]. intros _.
  destruct g as [|y g].
  - cbn [app]. rewrite join_cons by done. by rewrite append_assoc.
  - change ((x :: y :: g) ++ [w]) with (x :: ((y :: g) ++ [w])).
    rewrite join_cons by done. rewrite IH by done.
    rewrite (join_cons _ x (y :: g)) by done.
    by rewrite !append_assoc.
Qed.

Lemma join_nonempty (g : list string) :
  Forall Py.is_word g → g ≠ [] → Py.nonempty (J g) = true.
Proof.
  intros Hg Hne. destruct g as [|x g]; [done|].
  apply Forall_cons in Hg as [[Hx _] _].
  destruct g; [done|]. rewrite join_cons by done. by apply nonempty_app_l.
Qed.

(** ** Greedy filling *)

Lemma greedy_snoc (max : Z) (L : list string) (l l' : string) :
  greedy max (L ++ [l]) →
  (∀ w ws, Py.split_ws l' = w :: ws → max < len ((l +:+ " ") +:+ w)) →
  greedy max ((L ++ [l]) ++ [l']).
Proof.
  intros HL Hl. induction L as [|x L IH]; [by split|].
  destruct L as [|y L]; [by repeat split; try apply HL|].
  destruct HL as [Hxy HL]. split; [done|]. by apply IH.
Qed.

Lemma greedy_last (max : Z) (L : list string) (l l' : string) :
  greedy max (L ++ [l]) →
  (∀ w ws, Py.split_ws l' = w :: ws → ∃ ws', Py.split_ws l = w :: ws') →
  greedy max (L ++ [l']).
Proof.
  intros HL Hl. induction L as [|x L IH]; [done|].
  destruct L as [|y L].
  - destruct HL as [Hxl _]. split; [|done]. intros w ws Hw.
    destruct (Hl w ws Hw) as [ws' Hw']. by apply (Hxl w ws').
  - destruct HL as [Hxy HL]. split; [done|]. by apply IH.
Qed.

(** ** The wrapping loop *)

Lemma wrapped_words (max : Z) (processed : list string) (groups : list (list string))
    (g : list string) :
  Forall Py.is_word processed → concat groups ++ g = processed →
  Forall Py.is_word g.
Proof. intros Hp <-. by apply Forall_app in Hp as [_ ?]. Qed.

Lemma subtitle_step_wrapped (max : Z) (processed : list string)
    (st : list string * string) (w : string) :
  Py.is_word w → Forall Py.is_word processed →
  wrapped max processed st →
  wrapped max (processed ++ [w]) (subtitle_step max st w).
Proof.
  intros Hw Hp (groups & g & -> & Hc & Hne & Hcur & Hfit & Hfg & Hgr).
  pose proof (wrapped_words max _ _ _ Hp Hc) as Hwg.
  assert (Hfw : fits max [w]) by (by right).
  assert (Hcase : (g = [] ∧ groups = []) ∨ g ≠ []).
  { destruct g as [|x g]; [left|by right].
    destruct groups as [|g0 groups]; [done|by destruct Hcur]. }
  assert (Hinit : wrapped max ([] ++ [w]) ([], w)).
  { exists [], [w]. by repeat split. }
  unfold subtitle_step.
  destruct (len ((J g +:+ " ") +:+ w) <=? max) eqn:E.
  - destruct Hcase as [[-> ->]|Hg]; [by subst processed|].
    rewrite join_nonempty by done. rewrite <- join_snoc by done.
    exists groups, (g ++ [w]). split; [done|].
    split; [by rewrite app_assoc, Hc|]. split; [done|].
    split; [by destruct g|]. split; [done|].
    split.
    + intros _. left. rewrite join_snoc by done. by apply Z.leb_le.
    + apply (greedy_last max _ (J g)); [done|]. intros w0 ws.
      rewrite !split_ws_join by (by apply Forall_app; split; [|apply Forall_singleton]).
      destruct g as [|x g]; [done|]. intros [= -> _].
      exists g. by apply split_ws_join.
  - destruct Hcase as [[-> ->]|Hg]; [by subst processed|].
    rewrite join_nonempty by done.
    exists (groups ++ [g]), [w]. split; [by rewrite map_app|].
    split; [by rewrite concat_app, <- Hc; simpl; rewrite app_nil_r|].
    split; [apply Forall_app; split; [done|by apply Forall_singleton]|].
    split; [done|].
    split; [apply Forall_app; split; [done|apply Forall_singleton; by apply Hfg]|].
    split; [done|].
    rewrite map_app. apply greedy_snoc; [done|]. intros w0 ws.
    change (J [w]) with w. rewrite split_ws_word by done.
    intros [= <- _]. by apply Z.leb_gt.
Qed.

Lemma subtitle_loop_wrapped (max : Z) (words : list string) :
  Forall Py.is_word words →
  ∀ processed st,
    Forall Py.is_word processed → wrapped max processed st →
    wrapped max (processed ++ words) (foldl (subtitle_step max) st words).
Proof.
  induction 1 as [|w words Hw Hws IH]; intros processed st Hp Hst.
  - by rewrite app_nil_r.
  - cbn [foldl]. rewrite (cons_middle w), app_assoc. apply IH.
    + apply Forall_app; split; [done|by apply Forall_singleton].
    + by apply subtitle_step_wrapped.
Qed.

(** The lines are groups of consecutive words of the text. *)
Lemma split_lines_groups (text : string) (max : Z) :
  ∃ groups : list (list string),
    _split_text_for_subtitles text max = map J groups
    ∧ concat groups = Py.split_ws text
    ∧ Forall (λ g, g ≠ []) groups
    ∧ Forall (fits max) groups
    ∧ greedy max (map J groups).
Proof.
  unfold _split_text_for_subtitles.
  destruct (subtitle_loop_wrapped max (Py.split_ws text) (split_ws_words text)
              [] ([], EmptyString))
    as (groups & g & E & Hc & Hne & Hcur & Hfit & Hfg & Hgr).
  { done. }
  { exists [], []. by repeat split. }
  rewrite E. simpl in Hc.
  assert (Hwg : Forall Py.is_word g).
  { pose proof (split_ws_words text) as Hall. rewrite <- Hc in Hall.
    by apply Forall_app in Hall as [_ ?]. }
  destruct g as [|x g].
  - destruct groups as [|g0 groups]; [|by destruct Hcur].
    exists []. by repeat split.
  - rewrite join_nonempty by done.
    exists (groups ++ [x :: g]). split; [by rewrite map_app|].
    split; [by rewrite concat_app; simpl; rewrite app_nil_r|].
    split; [apply Forall_app; split; [done|by apply Forall_singleton]|].
    split; [apply Forall_app; split; [done|apply Forall_singleton; by apply Hfg]|].
    by rewrite map_app.
Qed.

Lemma groups_words (groups : list (list string)) (text : string) :
  concat groups = Py.split_ws text → Forall (Forall Py.is_word) groups.
Proof.
  intros Hc. pose proof (split_ws_words text) as Hall. rewrite <- Hc in Hall.
  clear Hc. induction groups as [|g groups IH]; [done|].
  simpl in Hall. apply Forall_app in Hall as [Hg Hrest].
  constructor; [done|by apply IH].
Qed.

(** X10.  Wrapping loses and invents nothing: read word by word, the
    subtitle lines give the words of the text in their order.  No line
    is empty, and within a line the words are separated by single
    spaces, with no space at either end. *)
Theorem subtitle_lines_keep_words (text : string) (max_chars_per_line : Z) :
  concat (map Py.split_ws (_split_text_for_subtitles text max_chars_per_line))
  = Py.split_ws text
  ∧ Forall (λ line, Py.nonempty line = true
                    ∧ Py.join " " (Py.split_ws line) = line)
      (_split_text_for_subtitles text max_chars_per_line).
Proof.
  destruct (split_lines_groups text max_chars_per_line)
    as (groups & -> & Hc & Hne & _ & _).
  pose proof (groups_words _ _ Hc) as Hw. rewrite <- Hc. clear Hc.
  induction groups as [|g groups IH]; [done|].
  apply Forall_cons in Hw as [Hg Hw]. apply Forall_cons in Hne as [Hg0 Hne].
  destruct (IH Hne Hw) as [IH1 IH2]. cbn [map concat].
  rewrite split_ws_join by done. split; [by rewrite IH1|].
  constructor; [|done]. split; [by apply join_nonempty|].
  by rewrite split_ws_join.
Qed.

(** X11.  A subtitle line is longer than the limit only when it
    consists of a single word that is longer than the limit; for every
    language the limit of the lines written to the subtitle file is at
    most 25 characters. *)
Theorem subtitle_lines_fit (text language : string) (limit : Z) :
  Forall (λ line, Z.of_nat (String.length line) ≤ limit
                  ∨ Py.split_ws line = [line])
    (_split_text_for_subtitles text limit)
  ∧ Forall (λ line, Z.of_nat (String.length line) ≤ 25
                    ∨ Py.split_ws line = [line])
      (subtitle_lines text language).
Proof.
  assert (Hall : ∀ max,
    Forall (λ line, len line ≤ max ∨ Py.split_ws line = [line])
      (_split_text_for_subtitles text max)).
  { intros max. destruct (split_lines_groups text max)
      as (groups & -> & Hc & _ & Hfit & _).
    pose proof (groups_words _ _ Hc) as Hw. clear Hc.
    apply Forall_fmap. apply Forall_forall. intros g Hg.
    rewrite Forall_forall in Hfit. rewrite Forall_forall in Hw.
    destruct (Hfit g Hg) as [Hle|Hone]; [by left|right].
    destruct g as [|w [|? ?]]; try done.
    specialize (Hw _ Hg). change (Py.split_ws w = [w]).
    apply split_ws_word. by inversion Hw. }
  split; [apply Hall|].
  unfold subtitle_lines. eapply Forall_impl; [apply Hall|].
  intros line [Hle|Hone]; [left|by right].
  unfold max_chars_per_line in Hle. repeat case_decide; lia.
Qed.

(** X12.  The lines are filled greedily: the first word of every line
    but the first would not have fitted, after a space, at the end of
    the line before it. *)
Theorem subtitle_lines_greedy (text : string) (max_chars_per_line : Z) :
  greedy max_chars_per_line (_split_text_for_subtitles text max_chars_per_line).
Proof.
  by destruct (split_lines_groups text max_chars_per_line)
    as (groups & -> & _ & _ & _ & Hgr).
Qed.

End SubtitleFacts.

(* ================================================================== *)
(** * Properties of the colour conversion *)
(* ================================================================== *)

Module ColourFacts.
Import Video.

Lemma hex_digit_range (c : ascii) (d : Z) :
  hex_digit c = Some d → 0 ≤ d ≤ 15.
Proof.
  intros H. destruct c as [[] [] [] [] [] [] [] []]; vm_compute in H;
    first [discriminate | injection H as <-; lia].
Qed.

Lemma hex_digit_not_space (c : ascii) (d : Z) :
  hex_digit c = Some d → int_space c = false.
Proof.
  intros H. by destruct c as [[] [] [] [] [] [] [] []]; vm_compute in H |- *.
Qed.

(** A literal of two hexadecimal digits has the value of its digits. *)
Lemma int16_two_digits (a b : ascii) (x y : Z) :
  hex_digit a = Some x → hex_digit b = Some y →
  int16 (String a (String b EmptyString)) = Ok (16 * x + y).
Proof.
  intros Ha Hb.
  assert (Hx : b ≠ "x"%char ∧ b ≠ "X"%char).
  { split; intros ->; discriminate. }
  unfold int16. cbn [skip_int_space]. rewrite (hex_digit_not_space a x Ha).
  destruct a as [[] [] [] [] [] [] [] []];
    try (by vm_compute in Ha);
    cbn -[hex_digit Z.mul Z.add];
    try (rewrite decide_False by tauto);
    cbn -[hex_digit Z.mul Z.add]; rewrite Ha; cbn -[hex_digit Z.mul Z.add];
    rewrite Hb; do 2 f_equal; lia.
Qed.

(** X13.  A colour of six hexadecimal digits, in either case and after
    any number of [#], is converted to its three components, each
    between 0 and 255; what follows the six digits is not read. *)
Theorem hex_to_rgb_digits (hex_color rest : string) (c1 c2 c3 c4 c5 c6 : ascii)
    (d1 d2 d3 d4 d5 d6 : Z) :
  Py.lstrip_char "#" hex_color
  = String c1 (String c2 (String c3 (String c4 (String c5 (String c6 rest))))) →
  hex_digit c1 = Some d1 → hex_digit c2 = Some d2 →
  hex_digit c3 = Some d3 → hex_digit c4 = Some d4 →
  hex_digit c5 = Some d5 → hex_digit c6 = Some d6 →
  _hex_to_rgb hex_color = Ok (16 * d1 + d2, 16 * d3 + d4, 16 * d5 + d6)
  ∧ 0 ≤ 16 * d1 + d2 ≤ 255
  ∧ 0 ≤ 16 * d3 + d4 ≤ 255
  ∧ 0 ≤ 16 * d5 + d6 ≤ 255.
Proof.
  intros E H1 H2 H3 H4 H5 H6. split.
  - unfold _hex_to_rgb. rewrite E. cbn [String.substring].
    replace (String.substring 0 0 rest) with EmptyString by (by destruct rest).
    by rewrite (int16_two_digits _ _ _ _ H1 H2), (int16_two_digits _ _ _ _ H3 H4),
      (int16_two_digits _ _ _ _ H5 H6).
  - apply hex_digit_range in H1, H2, H3, H4, H5, H6. lia.
Qed.

(** X13, witness: the first colour of the finance style. *)
Lemma hex_to_rgb_digits_witness :
  _hex_to_rgb "#1a5f3f" = Ok (16 * 1 + 10, 16 * 5 + 15, 16 * 3 + 15)
  ∧ 0 ≤ 16 * 1 + 10 ≤ 255
  ∧ 0 ≤ 16 * 5 + 15 ≤ 255
  ∧ 0 ≤ 16 * 3 + 15 ≤ 255.
Proof.
  by apply (hex_to_rgb_digits "#1a5f3f" EmptyString "1" "a" "5" "f" "3" "f").
Defined.

(** X14.  A colour with fewer than five characters after the [#], such
    as a shorthand of three digits, is rejected: the conversion
    raises. *)
Theorem hex_to_rgb_short (hex_color : string) :
  (String.length (Py.lstrip_char "#" hex_color) < 5)%nat →
  ∃ msg, _hex_to_rgb hex_color = Raise msg.
Proof.
  unfold _hex_to_rgb. intros Hlen.
  assert (E : String.substring 4 2 (Py.lstrip_char "#" hex_color) = EmptyString).
  { destruct (Py.lstrip_char "#" hex_color) as [|? [|? [|? [|? [|? ?]]]]];
      simpl in *; done || lia. }
  rewrite E.
  destruct (int16 (String.substring 0 2 _)); [|by eexists].
  destruct (int16 (String.substring 2 2 _)); [|by eexists].
  by eexists.
Qed.

(** X14, witness: white in shorthand. *)
Lemma hex_to_rgb_short_witness : ∃ msg, _hex_to_rgb "#fff" = Raise msg.
Proof. apply (hex_to_rgb_short "#fff"). simpl. lia. Defined.

End ColourFacts.

(* ================================================================== *)
(** * Properties of the finishing steps of the renderer *)
(* ================================================================== *)

Module RenderFacts.
Import Video MonadFacts.

Section Helpers.
Context {W : Type} (ops : Ops W).

(** X15.  [add_watermark] never raises and never loses the video: it
    returns the path of the watermarked file when ffmpeg ran and exited
    with status 0, and the path it was given in every other case. *)
Theorem add_watermark_keeps_video (video_path : string)
    (watermark_text : option string) (s : state W) :
  ∃ path s',
    add_watermark ops video_path watermark_text s = (Ok path, s')
    ∧ (path = video_path
       ∨ ∃ text stderr w,
           subprocess_run ops
             (watermark_cmd video_path text
                (in_output_dir ("watermarked_" +:+ now ops (world s) +:+ ".mp4")))
             (world s)
           = (Ok (0, stderr), w)
           ∧ text = (if Py.truthy watermark_text
                     then default EmptyString watermark_text
                     else "AI Generated")
           ∧ path = in_output_dir ("watermarked_" +:+ now ops (world s) +:+ ".mp4")).
Proof.
  cbv beta iota zeta delta
    [add_watermark try_except mbind M_bind mret M_ret ask call logger].
  cbn [world].
  set (text := if negb (Py.truthy watermark_text) then _ else _).
  destruct (subprocess_run ops _ (world s)) as [[[rc stderr]|e] w] eqn:E; cbn.
  - destruct (rc =? 0) eqn:Hrc; cbn.
    + apply Z.eqb_eq in Hrc as ->. eexists _, _. split; [done|]. right.
      exists text, stderr, w. split; [done|]. split; [|done].
      unfold text. by destruct (Py.truthy watermark_text).
    + eexists _, _. split; [done|]. by left.
  - eexists _, _. split; [done|]. by left.
Qed.

(** X16.  [create_thumbnail] never raises: it returns the path of the
    thumbnail when ffmpeg ran and exited with status 0, and the empty
    string in every other case. *)
Theorem create_thumbnail_or_empty (video_path : string) (s : state W) :
  ∃ path s',
    create_thumbnail ops video_path s = (Ok path, s')
    ∧ (path = EmptyString
       ∨ ∃ stderr w,
           subprocess_run ops
             (thumbnail_cmd video_path
                (in_output_dir ("thumbnail_" +:+ now ops (world s) +:+ ".jpg")))
             (world s)
           = (Ok (0, stderr), w)
           ∧ path = in_output_dir ("thumbnail_" +:+ now ops (world s) +:+ ".jpg")).
Proof.
  cbv beta iota zeta delta
    [create_thumbnail try_except mbind M_bind mret M_ret ask call logger].
  cbn [world].
  destruct (subprocess_run ops _ (world s)) as [[[rc stderr]|e] w] eqn:E; cbn.
  - destruct (rc =? 0) eqn:Hrc; cbn.
    + apply Z.eqb_eq in Hrc as ->. eexists _, _. split; [done|]. right.
      by exists stderr, w.
    + eexists _, _. split; [done|]. by left.
  - eexists _, _. split; [done|]. by left.
Qed.

End Helpers.

End RenderFacts.

(* ================================================================== *)
(** * Inversion of computations *)
(* ================================================================== *)

Module MonadInv.

Lemma bind_inv {S A B} (m : M S A) (f : A → M S B) (s s' : S) (b : B) :
  (m ≫= f) s = (Ok b, s') → ∃ a s1, m s = (Ok a, s1) ∧ f a s1 = (Ok b, s').
Proof.
  unfold mbind, M_bind. destruct (m s) as [[a|e] s1]; [|done].
  intros E. by exists a, s1.
Qed.

Lemma try_except_inv {S A} (m : M S A) (handler : string → M S A) (s s' : S)
    (a : A) :
  try_except m handler s = (Ok a, s') →
  m s = (Ok a, s') ∨ ∃ e s1, m s = (Raise e, s1) ∧ handler e s1 = (Ok a, s').
Proof.
  unfold try_except. destruct (m s) as [[a'|e] s1]; [by left|].
  intros E. right. by exists e, s1.
Qed.

Lemma bind_raise_inv {S A B} (m : M S A) (f : A → M S B) (s s' : S) (e : string) :
  (m ≫= f) s = (Raise e, s') →
  m s = (Raise e, s') ∨ ∃ a s1, m s = (Ok a, s1) ∧ f a s1 = (Raise e, s').
Proof.
  unfold mbind, M_bind. destruct (m s) as [[a|e'] s1]; [|intros [= -> ->]; by left].
  intros E. right. by exists a, s1.
Qed.

Lemma try_except_raise_inv {S A} (m : M S A) (handler : string → M S A)
    (s s' : S) (e : string) :
  try_except m handler s = (Raise e, s') →
  ∃ e' s1, m s = (Raise e', s1) ∧ handler e' s1 = (Raise e, s').
Proof.
  unfold try_except. destruct (m s) as [[a|e'] s1]; [done|].
  intros E. by exists e', s1.
Qed.

End MonadInv.

(* ================================================================== *)
(** * Properties of the voice configuration *)
(* ================================================================== *)

Module ConfigFacts.
Import Voice MonadFacts MonadInv CascadeFacts.

Section Overrides.
Context {W : Type} (ops : Ops W).

(** ** The getter and the setter *)

(** X17.  With a configuration for English in place,
    [get_voice_config] gives back the dictionary object that
    [update_voice_config] wrote to: the object the language was bound
    to or, for a language without configuration, the object [config]
    itself.  That object holds every item of [config], and under every
    other key what it held before.  No other object is written and no
    other language is bound anew, so a language bound to another
    object reads what it read before, while a language bound to the
    same object reads the update.  A language without configuration is
    given the object of English. *)
Theorem update_then_get_voice_config (language : string) (config : positive)
    (s : state W) :
  is_Some (voice_configs (self s) !! "en") →
  (∀ d, voice_configs (self s) !! language = Some d → is_Some (objects s !! d)) →
  ∃ s',
    update_voice_config language config s = (Ok tt, s')
    ∧ get_voice_config language s'
      = (Ok (default config (voice_configs (self s) !! language)), s')
    ∧ (∀ k v,
         items (objects s) config !! k = Some v →
         items (objects s') (default config (voice_configs (self s) !! language))
           !! k = Some v)
    ∧ (∀ k,
         items (objects s) config !! k = None →
         items (objects s') (default config (voice_configs (self s) !! language))
           !! k
         = items (objects s) (default config (voice_configs (self s) !! language))
             !! k)
    ∧ (∀ q, q ≠ default config (voice_configs (self s) !! language) →
            objects s' !! q = objects s !! q)
    ∧ (∀ other, other ≠ language →
                voice_configs (self s') !! other = voice_configs (self s) !! other)
    ∧ (∀ unknown, voice_configs (self s) !! unknown = None →
                  get_voice_config unknown s = get_voice_config "en" s).
Proof.
  intros [en Hen] Hwf.
  assert (Hlast : ∀ unknown, voice_configs (self s) !! unknown = None →
            get_voice_config unknown s = get_voice_config "en" s).
  { intros unknown Hu. unfold get_voice_config.
    rewrite !(bind_ok _ _ s s (voice_configs (self s))) by reflexivity.
    by rewrite Hen, Hu. }
  unfold update_voice_config.
  rewrite (bind_ok _ _ s s (voice_configs (self s))) by reflexivity.
  destruct (voice_configs (self s) !! language) as [d|] eqn:El;
    cbn [default from_option id].
  - destruct (Hwf d eq_refl) as [x Hx].
    eexists. split; [reflexivity|]. cbn [self objects].
    split; [|split; [|split; [|split; [|split]]]]; [| | | |done|done].
    + unfold get_voice_config.
      rewrite (bind_ok _ _ _ _ (voice_configs (self s))) by reflexivity.
      by rewrite Hen, El.
    + intros k v Hk. cbn [id]. unfold items at 1.
      rewrite lookup_alter_eq, Hx. cbn.
      unfold dict_update. by apply lookup_union_Some_l.
    + intros k Hk. cbn [id]. unfold items at 1 3.
      rewrite lookup_alter_eq, !Hx. cbn.
      unfold dict_update. by rewrite lookup_union_r.
    + intros q Hq. by rewrite lookup_alter_ne by congruence.
  - eexists. split; [reflexivity|]. cbn [self objects voice_configs].
    split; [|split; [|split; [|split; [|split]]]]; [|done|done|done| |done].
    + unfold get_voice_config.
      rewrite (bind_ok _ _ _ _ (<[language := config]> (voice_configs (self s))))
        by reflexivity.
      rewrite lookup_insert_eq. cbn [default].
      destruct (decide (language = "en")) as [->|Hne].
      * by rewrite lookup_insert_eq.
      * by rewrite lookup_insert_ne, Hen.
    + intros other Hne. by rewrite lookup_insert_ne by congruence.
Qed.

(** ** What a call does to the configuration *)

(** Choosing the configuration and writing the overrides. *)
Lemma configure_closed (language voice_style : string)
    (custom_voice_id : option string) (s : state W) :
  configure language voice_style custom_voice_id s
  = match resolved (self s) language with
    | Some d =>
        (Ok d,
         mkState (self s)
           (overridden (self s) voice_style custom_voice_id d (objects s))
           (log s) (world s))
    | None => (Raise (key_error "en"), s)
    end.
Proof.
  destruct s as [g h l w].
  cbv beta iota zeta delta
    [configure resolve_config mbind M_bind mret M_ret attr raise setitem update
     overridden resolved self objects log world].
  destruct (voice_configs g !! "en") as [en|]; [|done].
  destruct (Py.truthy custom_voice_id);
    by destruct (style_presets g !! voice_style).
Qed.

(** After a call the instance and the dictionary objects are as
    [configure] left them when there is an API key, and as they were
    when there is none. *)
Lemma create_voiceover_config (text language voice_style : string)
    (custom_voice_id : option string) (s : state W) :
  self (create_voiceover ops text language voice_style custom_voice_id s).2
  = self s
  ∧ objects (create_voiceover ops text language voice_style custom_voice_id s).2
    = if Py.truthy (api_key (self s))
      then match resolved (self s) language with
           | Some d => overridden (self s) voice_style custom_voice_id d (objects s)
           | None => objects s
           end
      else objects s.
Proof.
  destruct (Py.truthy (api_key (self s))) eqn:Hkey.
  - pose proof (configure_closed language voice_style custom_voice_id
                  (announce text language s).2) as Hc.
    change (self (announce text language s).2) with (self s) in Hc.
    change (objects (announce text language s).2) with (objects s) in Hc.
    destruct (resolved (self s) language) as [d|].
    + match type of Hc with _ = (_, ?st) => set (s1 := st) in * end.
      destruct (returns_chunk_loop ops d language
                  (_split_text_for_tts text 2500) 0%nat [] s1)
        as (files & s2 & Hloop).
      destruct (returns_assemble ops files language s2) as (final & s3 & Hasm).
      rewrite (create_voiceover_primary ops _ _ _ _ _ _ _ _ _ _ _
                 Hkey Hc Hloop Hasm).
      destruct (keeps_conclude ops final text language s3) as [-> ->].
      destruct (keeps_assemble ops files language s2) as [H1 H2].
      rewrite Hasm in H1, H2. cbn [snd] in H1, H2. rewrite H1, H2.
      destruct (keeps_chunk_loop ops d language
                  (_split_text_for_tts text 2500) 0%nat [] s1) as [H3 H4].
      rewrite Hloop in H3, H4. cbn [snd] in H3, H4. by rewrite H3, H4.
    + rewrite (create_voiceover_handler ops _ _ _ _ _ _ _ Hkey Hc).
      by destruct (keeps_fallback ops text language
                     (logger ERROR ("Seslendirme hatası: " +:+ key_error "en")
                        (announce text language s).2).2) as [-> ->].
  - rewrite (create_voiceover_no_key ops _ _ _ _ _ Hkey).
    by destruct (keeps_fallback ops text language
                   (logger ERROR "ElevenLabs API key bulunamadı"
                      (announce text language s).2).2) as [-> ->].
Qed.

(** The overrides write into one object. *)
Lemma overridden_lookup_ne (g : VoiceoverGenerator) (voice_style : string)
    (custom_voice_id : option string) (d q : positive)
    (h : gmap positive (gmap string value)) :
  q ≠ d → overridden g voice_style custom_voice_id d h !! q = h !! q.
Proof.
  intros Hq. unfold overridden.
  destruct (style_presets g !! voice_style);
    destruct (Py.truthy custom_voice_id);
    by rewrite ?lookup_alter_ne by congruence.
Qed.

(** X18.  What a call to [create_voiceover] does to the configuration.
    The instance itself is never changed: no language and no style is
    bound anew.  Without API key, or without a configuration for
    English, no dictionary is written either.  Otherwise the dictionary
    object of the language, or that of English when the language has
    none, receives the custom voice and then the settings of the style
    preset; the writes go to the object itself, so they are in force for
    the calls that follow and for every language bound to that object.
    No other object is written.  A call with neither a custom voice nor
    a known style writes nothing. *)
Theorem create_voiceover_configuration (text language voice_style : string)
    (custom_voice_id : option string) (s : state W) :
  self (create_voiceover ops text language voice_style custom_voice_id s).2
  = self s
  ∧ objects (create_voiceover ops text language voice_style custom_voice_id s).2
    = (if Py.truthy (api_key (self s))
       then match resolved (self s) language with
            | Some d =>
                overridden (self s) voice_style custom_voice_id d (objects s)
            | None => objects s
            end
       else objects s)
  ∧ (∀ q, resolved (self s) language ≠ Some q →
          objects (create_voiceover ops text language voice_style
                     custom_voice_id s).2 !! q
          = objects s !! q)
  ∧ (Py.truthy custom_voice_id = false →
     style_presets (self s) !! voice_style = None →
     objects (create_voiceover ops text language voice_style custom_voice_id s).2
     = objects s).
Proof.
  destruct (create_voiceover_config text language voice_style custom_voice_id s)
    as [Hself Hobj].
  split; [done|]. split; [done|]. rewrite Hobj. split.
  - intros q Hq. destruct (Py.truthy (api_key (self s))); [|done].
    destruct (resolved (self s) language) as [d|]; [|done].
    apply overridden_lookup_ne. congruence.
  - intros Hc Hs. destruct (Py.truthy (api_key (self s))); [|done].
    destruct (resolved (self s) language) as [d|]; [|done].
    unfold overridden. by rewrite Hc, Hs.
Qed.

(** Writing the overrides into a dictionary twice is writing them
    once. *)
Lemma overrides_twice (settings x : gmap string value) (v : value) :
  dict_update settings
    (<["voice_id" := v]> (dict_update settings (<["voice_id" := v]> x)))
  = dict_update settings (<["voice_id" := v]> x).
Proof.
  unfold dict_update. apply map_eq. intros i.
  destruct (settings !! i) as [u|] eqn:E.
  - by rewrite !(lookup_union_Some_l _ _ _ _ E).
  - rewrite !lookup_union_r by done.
    destruct (decide (i = "voice_id")) as [->|Hne].
    + by rewrite !lookup_insert_eq.
    + rewrite !lookup_insert_ne by done. rewrite lookup_union_r by done.
      by rewrite lookup_insert_ne.
Qed.

Lemma settings_twice (settings x : gmap string value) :
  dict_update settings (dict_update settings x) = dict_update settings x.
Proof.
  unfold dict_update. apply map_eq. intros i.
  destruct (settings !! i) as [u|] eqn:E.
  - by rewrite !(lookup_union_Some_l _ _ _ _ E).
  - by rewrite !lookup_union_r.
Qed.

(** Writing the overrides into the store twice is writing them once,
    also when the style preset is the object that is written. *)
Lemma overridden_idempotent (g : VoiceoverGenerator) (voice_style : string)
    (custom_voice_id : option string) (d : positive)
    (h : gmap positive (gmap string value)) :
  overridden g voice_style custom_voice_id d
    (overridden g voice_style custom_voice_id d h)
  = overridden g voice_style custom_voice_id d h.
Proof.
  assert (Hid : ∀ y : gmap string value, y ∪ y = y)
    by (intros y; apply map_union_idemp).
  apply map_eq. intros q. destruct (decide (q = d)) as [->|Hq].
  2: { by rewrite !overridden_lookup_ne. }
  unfold overridden, items.
  destruct (style_presets g !! voice_style) as [p|];
    destruct (Py.truthy custom_voice_id).
  - destruct (decide (p = d)) as [->|Hp].
    + rewrite !lookup_alter_eq. destruct (h !! d) as [x|]; cbn; [|done].
      f_equal. unfold dict_update. rewrite !Hid.
      by rewrite insert_insert_eq.
    + rewrite !lookup_alter_eq, !(lookup_alter_ne _ _ d p) by congruence.
      destruct (h !! d) as [x|]; cbn; [|done].
      f_equal. apply overrides_twice.
  - destruct (decide (p = d)) as [->|Hp].
    + rewrite !lookup_alter_eq. destruct (h !! d) as [x|]; cbn; [|done].
      f_equal. unfold dict_update. by rewrite !Hid.
    + rewrite !lookup_alter_eq, !(lookup_alter_ne _ _ d p) by congruence.
      destruct (h !! d) as [x|]; cbn; [|done].
      f_equal. apply settings_twice.
  - rewrite !lookup_alter_eq. destruct (h !! d) as [x|]; cbn; [|done].
    by rewrite insert_insert_eq.
  - done.
Qed.

(** X19.  Calling [create_voiceover] again with the same language,
    style and custom voice leaves the instance and every dictionary as
    the first call left them, whatever the two texts are. *)
Theorem create_voiceover_configuration_idempotent
    (text text' language voice_style : string)
    (custom_voice_id : option string) (s : state W) :
  self (create_voiceover ops text' language voice_style custom_voice_id
          (create_voiceover ops text language voice_style custom_voice_id s).2).2
  = self (create_voiceover ops text language voice_style custom_voice_id s).2
  ∧ objects
      (create_voiceover ops text' language voice_style custom_voice_id
         (create_voiceover ops text language voice_style custom_voice_id s).2).2
    = objects (create_voiceover ops text language voice_style custom_voice_id s).2.
Proof.
  destruct (create_voiceover_config text' language voice_style custom_voice_id
              (create_voiceover ops text language voice_style
                 custom_voice_id s).2) as [Hself' Hobj'].
  destruct (create_voiceover_config text language voice_style custom_voice_id s)
    as [Hself Hobj].
  split; [done|]. rewrite Hobj', Hself.
  destruct (Py.truthy (api_key (self s))); [|done].
  destruct (resolved (self s) language) as [d|]; [|done].
  rewrite Hobj. apply overridden_idempotent.
Qed.

(** ** Chunks and merging *)

(** X20.  When the dictionary of the voice lacks one of the keys that
    the request needs, [_generate_audio_chunk] gives [None] for the
    chunk without contacting the voice service: the [KeyError] of the
    first missing key is logged, and the instance, the dictionaries and
    the world are as they were. *)
Theorem chunk_without_required_key (text : string) (voice_config : positive)
    (language : string) (i : nat) (s : state W) :
  (∃ key, key ∈ required_keys
          ∧ objects s !! voice_config ≫= (.!! key) = None) →
  ∃ key,
    key ∈ required_keys
    ∧ _generate_audio_chunk ops text voice_config language i s
      = (Ok None,
         mkState (self s) (objects s)
           (log s ++ [(ERROR, "Ses chunk oluşturma hatası: " +:+ key_error key)])
           (world s)).
Proof.
  intros (key & Hin & Hmiss).
  assert (Hraise : ∀ key', objects s !! voice_config ≫= (.!! key') = None →
            getitem voice_config key' s = (Raise (key_error key'), s)).
  { intros key' E. unfold getitem. by rewrite E. }
  assert (Hok : ∀ key' v, objects s !! voice_config ≫= (.!! key') = Some v →
            getitem voice_config key' s = (Ok v, s)).
  { intros key' v E. unfold getitem. by rewrite E. }
  assert (Hkeys : ∀ key', key' ∈ ["voice_id"; "model_id"; "stability";
                                  "similarity_boost"] → key' ∈ required_keys)
    by done.
  unfold _generate_audio_chunk.
  destruct (objects s !! voice_config ≫= (.!! "voice_id")) as [v1|] eqn:E1.
  2: { exists "voice_id". split; [apply Hkeys; rewrite !elem_of_cons; tauto|].
       rewrite (try_except_raise _ _ s s (key_error "voice_id")); [done|].
       apply bind_raise. by apply Hraise. }
  destruct (objects s !! voice_config ≫= (.!! "model_id")) as [v2|] eqn:E2.
  2: { exists "model_id". split; [apply Hkeys; rewrite !elem_of_cons; tauto|].
       rewrite (try_except_raise _ _ s s (key_error "model_id")); [done|].
       rewrite (bind_ok _ _ s s v1) by (by apply Hok).
       rewrite (bind_ok _ _ s s (api_base (self s))) by reflexivity. cbv zeta.
       rewrite (bind_ok _ _ s s (api_key (self s))) by reflexivity. cbv zeta.
       apply bind_raise. by apply Hraise. }
  destruct (objects s !! voice_config ≫= (.!! "stability")) as [v3|] eqn:E3.
  2: { exists "stability". split; [apply Hkeys; rewrite !elem_of_cons; tauto|].
       rewrite (try_except_raise _ _ s s (key_error "stability")); [done|].
       rewrite (bind_ok _ _ s s v1) by (by apply Hok).
       rewrite (bind_ok _ _ s s (api_base (self s))) by reflexivity. cbv zeta.
       rewrite (bind_ok _ _ s s (api_key (self s))) by reflexivity. cbv zeta.
       rewrite (bind_ok _ _ s s v2) by (by apply Hok).
       apply bind_raise. by apply Hraise. }
  destruct (objects s !! voice_config ≫= (.!! "similarity_boost"))
    as [v4|] eqn:E4.
  2: { exists "similarity_boost".
       split; [apply Hkeys; rewrite !elem_of_cons; tauto|].
       rewrite (try_except_raise _ _ s s (key_error "similarity_boost")); [done|].
       rewrite (bind_ok _ _ s s v1) by (by apply Hok).
       rewrite (bind_ok _ _ s s (api_base (self s))) by reflexivity. cbv zeta.
       rewrite (bind_ok _ _ s s (api_key (self s))) by reflexivity. cbv zeta.
       rewrite (bind_ok _ _ s s v2) by (by apply Hok).
       rewrite (bind_ok _ _ s s v3) by (by apply Hok).
       apply bind_raise. by apply Hraise. }
  unfold required_keys in Hin. rewrite !elem_of_cons in Hin.
  destruct Hin as [->|[->|[->|[->|Hin]]]]; try congruence.
  by apply elem_of_nil in Hin.
Qed.

Lemma getitem_inv (voice_config : positive) (key : string) (s s1 : state W)
    (v : value) :
  getitem voice_config key s = (Ok v, s1) → s1 = s.
Proof.
  unfold getitem. destruct (_ ≫= _); [by intros [= _ <-]|done].
Qed.

(** X21.  [_generate_audio_chunk] gives a file only when the voice
    service was sent the text of the chunk and answered with status 200,
    and the body of the answer was written to the file, which lies in
    the output directory and is named after the language, the time and
    the index of the chunk. *)
Theorem chunk_file_only_after_200 (text : string) (voice_config : positive)
    (language : string) (i : nat) (s s' : state W) (f : string) :
  _generate_audio_chunk ops text voice_config language i s = (Ok (Some f), s') →
  ∃ url headers payload response w1,
    http_post ops url headers payload (world s) = (Ok response, w1)
    ∧ p_text payload = text
    ∧ status response = 200
    ∧ f = output_dir (self s) +:+ "/"
          +:+ ("voice_" +:+ language +:+ "_" +:+ now ops w1 +:+ "_chunk"
               +:+ pretty i +:+ ".mp3")
    ∧ write_file ops f (body response) w1 = (Ok tt, world s').
Proof.
  unfold _generate_audio_chunk. intros E.
  apply try_except_inv in E as [E|(e & s1 & _ & E)]; [|done].
  apply bind_inv in E as (voice_id & s1 & E1 & E). apply getitem_inv in E1 as ->.
  apply bind_inv in E as (base & s1 & [= <- <-] & E). cbv zeta in E.
  apply bind_inv in E as (key & s1 & [= <- <-] & E). cbv zeta in E.
  apply bind_inv in E as (model_id & s1 & E1 & E). apply getitem_inv in E1 as ->.
  apply bind_inv in E as (stability & s1 & E1 & E). apply getitem_inv in E1 as ->.
  apply bind_inv in E as (similarity & s1 & E1 & E). apply getitem_inv in E1 as ->.
  apply bind_inv in E as (style & s1 & [= <- <-] & E).
  apply bind_inv in E as (boost & s1 & [= <- <-] & E). cbv zeta in E.
  apply bind_inv in E as (response & s1 & Epost & E).
  unfold call in Epost.
  destruct (http_post ops _ _ _ (world s)) as [[r|e] w1] eqn:Ep; [|done].
  injection Epost as -> <-.
  destruct (status response =? 200) eqn:Hst; [|done].
  apply Z.eqb_eq in Hst.
  apply bind_inv in E as (timestamp & s1 & [= <- <-] & E). cbv zeta in E.
  apply bind_inv in E as (filepath & s1 & [= <- <-] & E).
  apply bind_inv in E as ([] & s1 & Ew & E).
  unfold call in Ew. cbn [world self log objects] in Ew.
  destruct (write_file ops _ _ w1) as [[[]|e] w2] eqn:Ewf; [|done].
  injection Ew as <-. injection E as <- <-.
  eexists _, _, _, response, w1. split; [exact Ep|]. by repeat split.
Qed.

(** X22.  [_merge_audio_files] never raises and leaves the instance
    and the dictionaries alone.  What it returns is the merged file, or
    else the first of the files it was given; with no file given this is
    [None]. *)
Theorem merge_outcome (audio_files : list string) (language : string)
    (s : state W) :
  ∃ r s',
    _merge_audio_files ops audio_files language s = (Ok r, s')
    ∧ self s' = self s
    ∧ objects s' = objects s
    ∧ (r = head audio_files
       ∨ r = Some (output_dir (self s) +:+ "/"
                   +:+ ("voice_" +:+ language +:+ "_" +:+ now ops (world s)
                        +:+ "_final.mp3"))).
Proof.
  destruct (returns_merge ops audio_files language s) as (r & s' & E).
  exists r, s'. split; [done|].
  pose proof (keeps_merge ops audio_files language s) as Hk.
  rewrite E in Hk. destruct Hk as [Hself Hobj].
  split; [done|]. split; [done|].
  unfold _merge_audio_files in E.
  apply try_except_inv in E as [E|(e & s1 & _ & E)]; [|left; by injection E].
  apply bind_inv in E as (timestamp & s1 & [= <- <-] & E). cbv zeta in E.
  apply bind_inv in E as (output_path & s1 & [= <- <-] & E).
  apply bind_inv in E as (file_list_path & s1 & [= <- <-] & E).
  apply bind_inv in E as (content & s1 & [= <- <-] & E).
  apply bind_inv in E as ([] & s1 & _ & E). cbv zeta in E.
  apply bind_inv in E as (result & s2 & _ & E).
  destruct (result.1 =? 0).
  - apply bind_inv in E as ([] & s3 & _ & E).
    apply bind_inv in E as ([] & s4 & _ & E).
    apply bind_inv in E as ([] & s5 & _ & E).
    right. by injection E.
  - apply bind_inv in E as ([] & s3 & _ & E).
    destruct audio_files as [|f0 l]; [done|]. left. by injection E.
Qed.

End Overrides.

(** ** Concrete runs *)

(** X17, witness: a caller's dictionary with a slower voice, given for
    English on a fresh instance. *)
Lemma update_then_get_voice_config_witness :
  ∃ s',
    update_voice_config "en" 10%positive (fresh_with {[ "stability" := VNum 0.9 ]})
    = (Ok tt, s')
    ∧ get_voice_config "en" s' = (Ok 1%positive, s')
    ∧ items (objects s') 1%positive !! "stability" = Some (VNum 0.9)
    ∧ items (objects s') 1%positive !! "voice_id"
      = Some (VStr "21m00Tcm4TlvDq8ikWAM")
    ∧ objects s' !! 2%positive
      = objects (fresh_with {[ "stability" := VNum 0.9 ]}) !! 2%positive.
Proof.
  destruct (update_then_get_voice_config (W := list string) "en" 10%positive
              (fresh_with {[ "stability" := VNum 0.9 ]}))
    as (s' & E & Hget & Hin & Hout & Hframe & _).
  { by eexists. }
  { intros d [= <-]. by eexists. }
  exists s'. split; [done|]. split; [exact Hget|]. split; [|split].
  - exact (Hin "stability" (VNum 0.9) eq_refl).
  - exact (Hout "voice_id" eq_refl).
  - apply Hframe. by vm_compute.
Defined.

(** A language that was given the dictionary of English shares it: an
    update for that language is an update of English. *)
Example shared_dictionary_updated :
  observed_configs
    (update_voice_config "fr" 10%positive
       (update_voice_config "fr" 1%positive
          (fresh_with {[ "stability" := VNum 0.9 ]})).2).2
    !! "en" ≫= (.!! "stability")
  = Some (VNum 0.9).
Proof. by vm_compute. Qed.

(** X18, witness: a call for German in the energetic style with a
    custom voice writes into the dictionary of German, and into no
    other. *)
Lemma create_voiceover_configuration_witness :
  objects (create_voiceover (recording_ops starts_with_a true true)
             "all is well" "de" "energetic" (Some "custom") fresh).2
  = overridden (self fresh) "energetic" (Some "custom") 2%positive (objects fresh)
  ∧ objects (create_voiceover (recording_ops starts_with_a true true)
               "all is well" "de" "energetic" (Some "custom") fresh).2
      !! 1%positive
    = objects fresh !! 1%positive.
Proof.
  split.
  - exact (proj1 (proj2 (create_voiceover_configuration
                           (recording_ops starts_with_a true true)
                           "all is well" "de" "energetic" (Some "custom") fresh))).
  - apply (proj1 (proj2 (proj2 (create_voiceover_configuration
                                  (recording_ops starts_with_a true true)
                                  "all is well" "de" "energetic" (Some "custom")
                                  fresh)))).
    by vm_compute.
Defined.

(** What that call leaves in the dictionary of German. *)
Example german_overridden :
  items (objects (create_voiceover (recording_ops starts_with_a true true)
                    "all is well" "de" "energetic" (Some "custom") fresh).2)
    2%positive
  = list_to_map
      [("voice_id", VStr "custom");
       ("model_id", VStr "eleven_multilingual_v2");
       ("stability", VNum 0.4);
       ("similarity_boost", VNum 0.9);
       ("style", VNum 0.3);
       ("use_speaker_boost", VBool true)].
Proof. by vm_compute. Qed.

(** X20, witness: a dictionary that holds a stability only has no
    voice; the world records no request. *)
Lemma chunk_without_required_key_witness :
  ∃ key,
    key ∈ required_keys
    ∧ _generate_audio_chunk (recording_ops starts_with_a true true)
        "allons" 10%positive "fr" 0 (fresh_with {[ "stability" := VNum 0.5 ]})
      = (Ok None,
         mkState (self (fresh_with {[ "stability" := VNum 0.5 ]}))
           (objects (fresh_with {[ "stability" := VNum 0.5 ]}))
           (log (fresh_with {[ "stability" := VNum 0.5 ]})
            ++ [(ERROR, "Ses chunk oluşturma hatası: " +:+ key_error key)])
           (world (fresh_with {[ "stability" := VNum 0.5 ]}))).
Proof.
  apply (chunk_without_required_key (recording_ops starts_with_a true true)
           "allons" 10%positive "fr" 0
           (fresh_with {[ "stability" := VNum 0.5 ]})).
  exists "voice_id". split; [by left|]. by vm_compute.
Defined.

(** X21, witness: a chunk that the voice service accepts. *)
Lemma chunk_file_only_after_200_witness :
  ∃ url headers payload response w1,
    http_post (recording_ops starts_with_a true true) url headers payload []
    = (Ok response, w1)
    ∧ p_text payload = "all is well"
    ∧ status response = 200
    ∧ "output/audio/voice_en_20240101_120000_chunk0.mp3"
      = output_dir (self fresh) +:+ "/"
        +:+ ("voice_" +:+ "en" +:+ "_"
             +:+ now (recording_ops starts_with_a true true) w1 +:+ "_chunk"
             +:+ pretty 0%nat +:+ ".mp3")
    ∧ write_file (recording_ops starts_with_a true true)
        "output/audio/voice_en_20240101_120000_chunk0.mp3" (body response) w1
      = (Ok tt, ["post"; "write"]).
Proof.
  apply (chunk_file_only_after_200 (recording_ops starts_with_a true true)
           "all is well" 1%positive "en" 0 fresh
           (mkState (init (Some "sk_test")) init_objects
              [(INFO, "Ses parçası oluşturuldu: voice_en_20240101_120000_chunk0.mp3")]
              ["post"; "write"])).
  by vm_compute.
Defined.

End ConfigFacts.

(* ================================================================== *)
(** * Properties of the batches and of the one-shot modes *)
(* ================================================================== *)

Module BatchFacts.
Import Main MonadFacts MonadInv OrchestratorFacts.

Section Orchestrator.
Context {W U : Type} (ops : Ops W U).

Local Abbreviation M := (M (state W U)).

(** [create_video_content] never raises. *)
Lemma returns_create_video_content (topic category : string)
    (languages : option (list string)) (include_affiliates : bool)
    (trend_data : option Main.topic) :
  returns (create_video_content ops topic category languages include_affiliates
             trend_data).
Proof.
  intros s. unfold create_video_content.
  rewrite (bind_ok _ _ s _ tt) by reflexivity.
  match goal with |- context [language_loop _ _ _ _ _ ?l ?acc ?s0] =>
    destruct (language_loop_keys ops topic category include_affiliates
                trend_data l acc s0) as (r & s' & E & _)
  end.
  by exists r, s'.
Qed.

(** ** Topics that cannot be read *)

(** The turn of a topic given as a dictionary with a title: its result
    is appended. *)
Lemma topic_loop_titled (d : gmap string string) (rest : list Main.topic)
    (results : list (result U)) (s : state W U) :
  is_Some (d !! "title") →
  ∃ r s1,
    topic_loop ops (TopicDict d :: rest) results s
    = topic_loop ops rest (results ++ [r]) s1
    ∧ map fst r = ["en"].
Proof.
  intros [title Ht]. cbn [topic_loop].
  destruct (returns_create_video_content title
              (match d !! "category" with Some v => v | None => "general" end)
              None true (Some (TopicDict d)) s) as (r & s1 & E).
  exists r, s1. split.
  - rewrite (bind_ok _ _ s s1 (results ++ [r])); [done|].
    apply try_except_ok. cbn [subscript topic_get]. rewrite Ht.
    rewrite (bind_ok _ _ s s title) by reflexivity.
    rewrite (bind_ok _ _ s s _) by reflexivity.
    by rewrite (bind_ok _ _ _ _ _ E).
  - unfold create_video_content in E. cbn [default] in E.
    rewrite (bind_ok _ _ s _ tt) in E by reflexivity.
    rewrite language_loop_cons in E. cbn [language_loop] in E.
    by injection E as <- _.
Qed.

(** The turn of a topic whose title cannot be read: the handler reads
    the title again, and the exception leaves the loop. *)
Lemma topic_loop_unreadable (t : Main.topic) (rest : list Main.topic)
    (results : list (result U)) (s : state W U) (e : string) :
  subscript t "title" = Raise e →
  topic_loop ops (t :: rest) results s = (Raise e, s).
Proof.
  intros Ht. cbn [topic_loop]. apply bind_raise.
  rewrite (try_except_raise _ _ s s e).
  - apply bind_raise. unfold eval. by rewrite Ht.
  - apply bind_raise. unfold eval. by rewrite Ht.
Qed.

(** X23.  [generate_trending_content] gives up at the first topic whose
    title cannot be read by subscript, a dictionary without title or an
    instance of [TrendTopic]: the exception leaves the function through
    the handler, and with it the results of the topics before it are
    lost. *)
Theorem unreadable_topic_aborts_batch (count : Z) (s : state W U)
    (before : list (gmap string string)) (t : Main.topic)
    (trending : list Main.topic) (e : string) (w' : W) :
  get_trending_topics ops count (world s)
  = (Ok (map TopicDict before ++ t :: trending), w') →
  Forall (λ d, is_Some (d !! "title")) before →
  subscript t "title" = Raise e →
  ∃ s', generate_trending_content ops count s = (Raise e, s').
Proof.
  intros Eg Hb Ht. unfold generate_trending_content.
  rewrite (bind_ok _ _ s _ tt) by reflexivity.
  match goal with |- context [(call ?f ≫= ?k) ?s0] =>
    assert (Ec : call f s0 = (Ok (map TopicDict before ++ t :: trending),
                              mkState (trace s0) (tasks s0) w'))
      by (unfold call; cbn [world]; by rewrite Eg);
    rewrite (bind_ok _ _ _ _ _ Ec); clear Ec;
    generalize (mkState (trace s0) (tasks s0) w')
  end.
  generalize (@nil (result U)). clear Eg.
  induction Hb as [|d before Hd Hb IH]; intros results s0.
  - exists s0. by apply topic_loop_unreadable.
  - cbn [map app].
    destruct (topic_loop_titled d (map TopicDict before ++ t :: trending)
                results s0 Hd) as (r & s1 & -> & _).
    apply IH.
Qed.

(** X24.  When the trend analysis answers with instances of
    [TrendTopic], as [TrendAnalyzer.get_trending_topics] does,
    [generate_trending_content] raises a [TypeError] at the first of
    them.  No stage has run by then: the trace has the opening line
    only, and the world is as the trend analysis left it.  A run of
    [main] for trends, without [--topic] and without [--auto-mode],
    then exits with status 1. *)
Theorem trend_objects_make_no_video (count : Z) (s : state W U)
    (t : Trend.TrendTopic) (trending : list Main.topic) (w' : W) :
  (get_trending_topics ops count (world s) = (Ok (TopicObj t :: trending), w') →
   generate_trending_content ops count s
   = (Raise "'TrendTopic' object is not subscriptable",
      mkState
        (trace s ++ [Log INFO ("Trend analizi başlatılıyor - " +:+ pretty count
                               +:+ " video için")])
        (tasks s) w'))
  ∧ (∀ (a : args) (cycles : nat),
       arg_auto_mode a = false → arg_topic a = None → arg_count a = count →
       get_trending_topics ops count (world (after_test_mode ops a s))
       = (Ok (TopicObj t :: trending), w') →
       (main ops a cycles s).1 = Exited 1).
Proof.
  assert (Hgen : ∀ s0,
    get_trending_topics ops count (world s0) = (Ok (TopicObj t :: trending), w') →
    generate_trending_content ops count s0
    = (Raise "'TrendTopic' object is not subscriptable",
       mkState
         (trace s0 ++ [Log INFO ("Trend analizi başlatılıyor - " +:+ pretty count
                                 +:+ " video için")])
         (tasks s0) w')).
  { intros s0 Eg. unfold generate_trending_content.
    rewrite (bind_ok _ _ s0 _ tt) by reflexivity.
    match goal with |- context [(call ?f ≫= ?k) ?s1] =>
      assert (Ec : call f s1 = (Ok (TopicObj t :: trending),
                                mkState (trace s1) (tasks s1) w'))
        by (unfold call; cbn [world]; by rewrite Eg);
      rewrite (bind_ok _ _ _ _ _ Ec); clear Ec
    end.
    by rewrite (topic_loop_unreadable (TopicObj t) trending [] _
                  "'TrendTopic' object is not subscriptable"). }
  split; [apply Hgen|].
  intros a cycles Hauto Htopic Hcount Eg. unfold main, main_body.
  rewrite Hauto, Htopic, Hcount.
  by rewrite (bind_raise _ _ _ _ _ (Hgen _ Eg)).
Qed.

(** X25.  When every topic of the trend analysis is a dictionary with
    a title, [generate_trending_content] does not raise, whatever the
    stages do, and returns one result for each topic, in order; each
    result has the one entry of English. *)
Theorem titled_topics_one_result_each (count : Z) (s : state W U)
    (trending : list (gmap string string)) (w' : W) :
  get_trending_topics ops count (world s) = (Ok (map TopicDict trending), w') →
  Forall (λ d, is_Some (d !! "title")) trending →
  ∃ results s',
    generate_trending_content ops count s = (Ok results, s')
    ∧ length results = length trending
    ∧ Forall (λ r, map fst r = ["en"]) results.
Proof.
  intros Eg Hall. unfold generate_trending_content.
  rewrite (bind_ok _ _ s _ tt) by reflexivity.
  match goal with |- context [(call ?f ≫= ?k) ?s0] =>
    assert (Ec : call f s0 = (Ok (map TopicDict trending),
                              mkState (trace s0) (tasks s0) w'))
      by (unfold call; cbn [world]; by rewrite Eg);
    rewrite (bind_ok _ _ _ _ _ Ec); clear Ec;
    generalize (mkState (trace s0) (tasks s0) w')
  end.
  clear Eg.
  assert (Hloop : ∀ acc s0,
    Forall (λ r, map fst r = ["en"]) acc →
    ∃ results s',
      topic_loop ops (map TopicDict trending) acc s0 = (Ok results, s')
      ∧ length results = (length acc + length trending)%nat
      ∧ Forall (λ r : result U, map fst r = ["en"]) results).
  { induction Hall as [|d trending Hd Hall IH]; intros acc s0 Hacc.
    - exists acc, s0. cbn. split; [done|]. split; [lia|done].
    - cbn [map].
      destruct (topic_loop_titled d (map TopicDict trending) acc s0 Hd)
        as (r & s1 & -> & Hr).
      destruct (IH (acc ++ [r]) s1) as (results & s' & E & Hlen & Hen).
      { apply Forall_app. split; [done|by apply Forall_singleton]. }
      exists results, s'. split; [done|]. split; [|done].
      rewrite Hlen, length_app. cbn. lia. }
  intros s0. destruct (Hloop [] s0) as (results & s' & E & Hlen & Hen); [done|].
  by exists results, s'.
Qed.

(** ** The mode of a single topic *)

(** X26.  Called with [--topic], [main] exits with status 0 whatever
    the stages did, even when they failed for every language: it prints
    the result, which has an entry for each of the languages of
    [--languages] and for nothing else. *)
Theorem topic_mode_exits_zero (a : args) (cycles : nat) (s : state W U)
    (topic : string) :
  arg_auto_mode a = false → arg_topic a = Some topic →
  Py.nonempty topic = true →
  ∃ r s',
    main ops a cycles s = (Exited 0, s')
    ∧ last (trace s') = Some (Print ("Video oluşturuldu: " +:+ repr_result ops r))
    ∧ ∀ l, l ∈ Py.split_char ","%char (arg_languages a) ↔ is_Some (dict_get l r).
Proof.
  intros Hauto Htopic Hne. unfold main, main_body. rewrite Hauto, Htopic.
  destruct topic as [|c topic]; [done|].
  set (languages := Py.split_char ","%char (arg_languages a)).
  set (s0 := after_test_mode ops a s).
  unfold create_video_content. cbn [default].
  destruct (language_loop_keys ops (String c topic) "general"
              (arg_include_affiliates a) None languages []
              (logger INFO ("Video içeriği oluşturuluyor: " +:+ String c topic)
                 s0).2)
    as (r & s1 & E & Hkeys).
  exists r, (mkState (trace s1 ++ [Print ("Video oluşturuldu: " +:+ repr_result ops r)])
               (tasks s1) (world s1)).
  split; [|split].
  - rewrite (bind_ok _ _ s0 s1 r); [done|].
    by rewrite (bind_ok _ _ s0 _ tt) by reflexivity.
  - cbn [trace]. apply last_snoc.
  - intros l. rewrite Hkeys. split; [by left|]. intros [H|[x Hx]]; [done|done].
Qed.

(** ** The order of the entries *)

Lemma dict_set_keys {V} (k : string) (v : V) (d : list (string * V)) :
  map fst (dict_set k v d)
  = if decide (k ∈ map fst d) then map fst d else map fst d ++ [k].
Proof.
  induction d as [|[k' v'] d IH]; [done|]. cbn [dict_set map fst].
  destruct (decide (k' = k)) as [->|Hne].
  - rewrite decide_True by (by left). done.
  - cbn [map fst]. rewrite IH. destruct (decide (k ∈ map fst d)) as [Hin|Hni].
    + rewrite decide_True by (by right). done.
    + rewrite decide_False; [done|]. rewrite elem_of_cons.
      by intros [->|Hin].
Qed.

Lemma language_loop_order (topic category : string) (include_affiliates : bool)
    (trend_data : option Main.topic) (languages : list string) :
  ∀ (results results' : result U) (s s' : state W U),
    language_loop ops topic category include_affiliates trend_data languages
      results s = (Ok results', s') →
    NoDup (map fst results) →
    NoDup (map fst results')
    ∧ (NoDup (map fst results ++ languages) →
       map fst results' = map fst results ++ languages).
Proof.
  induction languages as [|lang rest IH]; intros results results' s s'.
  - intros [= <- _] Hnd. split; [done|]. by rewrite app_nil_r.
  - rewrite language_loop_cons. intros E Hnd.
    apply IH in E as [Hnd' Hord].
    + split; [done|]. intros Hall. rewrite Hord.
      * rewrite dict_set_keys, decide_False, <- app_assoc; [done|].
        apply NoDup_app in Hall as (_ & Hdisj & _). intros Hin.
        apply (Hdisj _ Hin). by left.
      * rewrite dict_set_keys, decide_False, <- app_assoc; [done|].
        apply NoDup_app in Hall as (_ & Hdisj & _). intros Hin.
        apply (Hdisj _ Hin). by left.
    + rewrite dict_set_keys. case_decide; [done|].
      apply NoDup_app. split; [done|]. split; [|apply NoDup_singleton].
      intros x Hx Hk. apply elem_of_cons in Hk as [->|Hk]; [done|].
      by apply elem_of_nil in Hk.
Qed.

(** X27.  The result of [create_video_content] has one entry for each
    language and no language twice; when no language is given twice the
    entries are in the order of the languages, which is the order in
    which the deferred collection of feedback visits them. *)
Theorem result_keys_follow_languages (topic category : string)
    (languages : list string) (include_affiliates : bool)
    (trend_data : option Main.topic) (s s' : state W U) (r : result U) :
  create_video_content ops topic category (Some languages) include_affiliates
    trend_data s = (Ok r, s') →
  NoDup (map fst r) ∧ (NoDup languages → map fst r = languages).
Proof.
  unfold create_video_content. cbn [default].
  rewrite (bind_ok _ _ s _ tt) by reflexivity. intros E.
  apply language_loop_order in E as [Hnd Hord]; [|apply NoDup_nil_2].
  split; [done|]. intros Hl. by apply Hord.
Qed.

(** ** The feedback tasks *)

(** A computation that schedules nothing and runs no scheduled task. *)
Local Abbreviation keeps_tasks m := (∀ s : state W U, tasks (m s).2 = tasks s).

Lemma tasks_bind {A B} (m : M A) (f : A → M B) :
  keeps_tasks m → (∀ a, keeps_tasks (f a)) → keeps_tasks (m ≫= f).
Proof.
  intros Hm Hf s. unfold mbind, M_bind. specialize (Hm s).
  destruct (m s) as [[a|e] s1]; cbn [snd] in *; [|done].
  by rewrite Hf.
Qed.

Lemma tasks_try_except {A} (m : M A) (handler : string → M A) :
  keeps_tasks m → (∀ e, keeps_tasks (handler e)) →
  keeps_tasks (try_except m handler).
Proof.
  intros Hm Hh s. unfold try_except. specialize (Hm s).
  destruct (m s) as [[a|e] s1]; cbn [snd] in *; [done|].
  by rewrite Hh.
Qed.

Lemma tasks_call {A} (f : W → Result A * W) : keeps_tasks (call f).
Proof. intros s. unfold call. by destruct (f (world s)). Qed.

Ltac tasks_step :=
  first
    [ apply tasks_bind; [|intros ?]
    | apply tasks_try_except; [|intros ?]
    | apply tasks_call
    | by intros ? ].

Lemma tasks_stages (topic language category : string) (include_affiliates : bool)
    (trend_data : option Main.topic) :
  keeps_tasks (stages ops topic language category include_affiliates trend_data).
Proof.
  unfold stages. repeat tasks_step. destruct include_affiliates; tasks_step.
Qed.

Lemma tasks_language_loop (topic category : string) (include_affiliates : bool)
    (trend_data : option Main.topic) (languages : list string) :
  ∀ results, keeps_tasks (language_loop ops topic category include_affiliates
                            trend_data languages results).
Proof.
  induction languages as [|lang rest IH]; intros results; cbn [language_loop].
  - done.
  - apply tasks_bind; [|intros r; apply IH].
    unfold language_step. repeat first [apply tasks_stages | tasks_step].
Qed.

Lemma tasks_topic_loop (trending_topics : list Main.topic) :
  ∀ results, keeps_tasks (topic_loop ops trending_topics results).
Proof.
  induction trending_topics as [|t rest IH]; intros results; cbn [topic_loop].
  - done.
  - apply tasks_bind; [|intros r; apply IH].
    unfold create_video_content.
    repeat first [apply tasks_language_loop | tasks_step].
Qed.

Lemma tasks_generate (count : Z) :
  keeps_tasks (generate_trending_content ops count).
Proof.
  unfold generate_trending_content.
  repeat first [apply tasks_topic_loop | tasks_step].
Qed.

(** X28.  A cycle that returns has scheduled exactly one feedback task,
    for the results it returns; a cycle that raises has scheduled
    none. *)
Theorem feedback_scheduled_once (s : state W U) :
  (∀ results s1,
     run_automation_cycle ops s = (Ok results, s1) →
     tasks s1 = tasks s ++ [results])
  ∧ (∀ e s1,
       run_automation_cycle ops s = (Raise e, s1) → tasks s1 = tasks s).
Proof.
  split.
  - intros results s1. unfold run_automation_cycle.
    rewrite (bind_ok _ _ s _ tt) by reflexivity.
    set (s0 := (logger INFO "Otomasyon döngüsü başlatılıyor" s).2).
    intros E. apply try_except_inv in E as [E|(e & s2 & _ & E)].
    + apply bind_inv in E as (c & s2 & [= <- <-] & E).
      apply bind_inv in E as (n & s2 & En & E).
      assert (s2 = s0) as -> by (unfold eval in En; by injection En).
      apply bind_inv in E as (res & s3 & Eg & E).
      pose proof (tasks_generate n s0) as Hg. rewrite Eg in Hg. cbn [snd] in Hg.
      apply bind_inv in E as ([] & s4 & [= <-] & E).
      apply bind_inv in E as ([] & s5 & [= <-] & E).
      injection E as <- <-. cbn [tasks]. by rewrite Hg.
    + by apply bind_inv in E as ([] & s3 & _ & E).
  - intros e s1. unfold run_automation_cycle.
    rewrite (bind_ok _ _ s _ tt) by reflexivity.
    set (s0 := (logger INFO "Otomasyon döngüsü başlatılıyor" s).2).
    intros E. apply try_except_raise_inv in E as (e' & s2 & Em & Eh).
    assert (Hs2 : tasks s2 = tasks s).
    { apply bind_raise_inv in Em as [Em|(c & s3 & [= <- <-] & Em)]; [done|].
      apply bind_raise_inv in Em as [Em|(n & s3 & En & Em)].
      { unfold eval in Em. by injection Em as _ <-. }
      assert (s3 = s0) as -> by (unfold eval in En; by injection En).
      pose proof (tasks_generate n s0) as Hg.
      apply bind_raise_inv in Em as [Em|(res & s4 & Eg & Em)].
      { by rewrite Em in Hg. }
      apply bind_raise_inv in Em as [Em|([] & s5 & _ & Em)]; [done|].
      by apply bind_raise_inv in Em as [Em|([] & s6 & _ & Em)]. }
    cbn in Eh. injection Eh as _ <-. done.
Qed.

End Orchestrator.

(** X27, witness: English and German, the voice stage failing for
    German. *)
Lemma result_keys_follow_languages_witness :
  ∃ r s',
    create_video_content (scripted_ops (Ok []) ["de"] []) "AI money" "general"
      (Some ["en"; "de"]) false None idle = (Ok r, s')
    ∧ NoDup (map fst r)
    ∧ map fst r = ["en"; "de"].
Proof.
  destruct (create_video_content (scripted_ops (Ok []) ["de"] []) "AI money"
              "general" (Some ["en"; "de"]) false None idle)
    as [[r|e] s'] eqn:E.
  - exists r, s'. split; [done|].
    destruct (result_keys_follow_languages _ _ _ _ _ _ _ _ _ E) as [Hnd Hord].
    split; [done|]. apply Hord. by apply (bool_decide_unpack _).
  - by vm_compute in E.
Defined.

(** X26, witness: the voice stage fails for both languages, and the
    process exits with status 0 all the same. *)
Lemma topic_mode_exits_zero_witness :
  ∃ r s',
    main (scripted_ops (Ok []) ["en"; "de"] [])
      (mkArgs (Some "AI money") "en,de" 1 false false false) 0 idle
    = (Exited 0, s')
    ∧ last (trace s')
      = Some (Print ("Video oluşturuldu: "
                     +:+ repr_result (scripted_ops (Ok []) ["en"; "de"] []) r))
    ∧ ∀ l, l ∈ Py.split_char ","%char "en,de" ↔ is_Some (dict_get l r).
Proof.
  by apply (topic_mode_exits_zero (scripted_ops (Ok []) ["en"; "de"] [])
              (mkArgs (Some "AI money") "en,de" 1 false false false) 0 idle
              "AI money").
Defined.

(** X23, witness: a titled topic followed by a dictionary without
    title. *)
Lemma unreadable_topic_aborts_batch_witness :
  ∃ s',
    generate_trending_content
      (scripted_ops (Ok [TopicDict {[ "title" := "AI money" ]}; TopicDict ∅]) [] [])
      2 idle
    = (Raise "'title'", s').
Proof.
  apply (unreadable_topic_aborts_batch
           (scripted_ops (Ok [TopicDict {[ "title" := "AI money" ]}; TopicDict ∅])
              [] [])
           2 idle [{[ "title" := "AI money" ]}] (TopicDict ∅) [] "'title'"
           ["get_trending_topics"]).
  - reflexivity.
  - apply Forall_singleton. by eexists.
  - reflexivity.
Defined.

(** X24, witness: the trend analysis finds the finance topic of Google
    Trends. *)
Lemma trend_objects_make_no_video_witness :
  generate_trending_content
    (scripted_ops (Ok [TopicObj Trend.google_finance]) [] []) 1 idle
  = (Raise "'TrendTopic' object is not subscriptable",
     mkState
       ([] ++ [Log INFO ("Trend analizi başlatılıyor - " +:+ pretty 1
                         +:+ " video için")])
       [] ["get_trending_topics"])
  ∧ (main (scripted_ops (Ok [TopicObj Trend.google_finance]) [] [])
       (mkArgs None "en" 1 false false false) 0 idle).1
    = Exited 1.
Proof.
  destruct (trend_objects_make_no_video
              (scripted_ops (Ok [TopicObj Trend.google_finance]) [] [])
              1 idle Trend.google_finance [] ["get_trending_topics"])
    as [Hgen Hmain].
  split.
  - by apply Hgen.
  - by apply Hmain.
Defined.

(** X25, witness: two titled topics, the voice stage failing. *)
Lemma titled_topics_one_result_each_witness :
  ∃ results s',
    generate_trending_content
      (scripted_ops
         (Ok (map TopicDict [{[ "title" := "AI money" ]};
                             {[ "title" := "Python tips" ]}]))
         ["en"] [])
      2 idle
    = (Ok results, s')
    ∧ length results
      = length [({[ "title" := "AI money" ]} : gmap string string);
                {[ "title" := "Python tips" ]}]
    ∧ Forall (λ r, map fst r = ["en"]) results.
Proof.
  apply (titled_topics_one_result_each
           (scripted_ops
              (Ok (map TopicDict [{[ "title" := "AI money" ]};
                                  {[ "title" := "Python tips" ]}]))
              ["en"] [])
           2 idle _ ["get_trending_topics"]).
  - reflexivity.
  - repeat apply Forall_cons_2; [by eexists|by eexists|apply Forall_nil_2].
Defined.

(** X28, witness: a cycle without topics schedules the empty batch, and
    a cycle whose trend analysis raises schedules nothing. *)
Lemma feedback_scheduled_once_witness :
  tasks (run_automation_cycle (scripted_ops (Ok []) [] []) idle).2
  = tasks idle ++ [[]]
  ∧ tasks (run_automation_cycle (scripted_ops (Raise "timeout") [] []) idle).2
    = tasks idle.
Proof.
  split.
  - apply (proj1 (feedback_scheduled_once (scripted_ops (Ok []) [] []) idle) []).
    by vm_compute.
  - apply (proj2 (feedback_scheduled_once
                    (scripted_ops (Raise "timeout") [] []) idle)
             "timeout").
    by vm_compute.
Defined.

End BatchFacts.
